(** * Open/R routing control-plane core: netlink route encoder, FIB
      reconciler and persistent store.

    Shallow embedding of
      - openr/nl/NetlinkRoute.cpp        (Module [Netlink]),
      - openr/fib/Fib.cpp                (Module [Fib]),
      - openr/config-store/PersistentStore.cpp (Module [PersistentStore]),
    with the properties of the specification stated and proved (or refuted)
    against the embedded code. *)

From Stdlib Require Import ZArith Lia.
From stdpp Require Import base gmap sets list strings.

Open Scope Z_scope.

(** ** Results with logging and C++ exceptions

    The encoder is straight-line code that (a) writes [LOG(ERROR)] lines,
    (b) may throw ([folly::Optional::value()] on an empty optional) and
    (c) may write past a fixed-size array.  [M A] is a writer monad for the
    log lines over an outcome that is either a returned value or an abnormal
    termination. *)

Inductive LogLine := LOG_ERROR (msg : string) (args : list Z).

Inductive Abnormal :=
  | OptionalEmptyException   (* folly::Optional::value() on folly::none *)
  | OutOfBounds.             (* write past the end of a std::array *)

Inductive Outcome (A : Type) :=
  | Returned (a : A)
  | Threw (e : Abnormal).
Arguments Returned {A} a.
Arguments Threw {A} e.

Definition M (A : Type) : Type := (Outcome A * list LogLine)%type.

Definition ret {A} (a : A) : M A := (Returned a, []).

Definition bind {A B} (m : M A) (k : A -> M B) : M B :=
  match m with
  | (Returned a, l) => let '(r, l') := k a in (r, l ++ l')
  | (Threw e, l) => (Threw e, l)
  end.

Definition throw {A} (e : Abnormal) : M A := (Threw e, []).

Definition log_error (msg : string) (args : list Z) : M unit :=
  (Returned tt, [LOG_ERROR msg args]).

(** [o.value()] *)
Definition value {A} (o : option A) : M A :=
  match o with
  | Some a => ret a
  | None => throw OptionalEmptyException
  end.

Notation "'let*' x ':=' m 'in' k" := (bind m (fun x => k))
  (at level 10, x name, m at level 100, k at level 200).

(** The outcome of a computation, its log lines left aside. *)
Definition outcome {A} (m : M A) : Outcome A := fst m.

(** ** Exponential backoff *)

Module ExponentialBackoff.

(** Modelled from the spec: the class [ExponentialBackoff] (openr/common,
    not under src/).  The spec names it [ExpBackoff(initial, max)] with the
    operations [report_success], [report_error] and [time_remaining]: an
    error starts the backoff at [initial] and doubles it up to [max], a
    success clears it, and the time remaining until retry is counted from the
    last error, never negative.  Times are milliseconds on the steady
    clock. *)
Record t := mk {
  initialBackoff : Z;
  maxBackoff : Z;
  currentBackoff : Z;
  lastErrorTime : Z;
}.

(** Modelled from the spec: the constructor [ExpBackoff(initial, max)]; no
    error has been reported yet. *)
Definition make (initial max : Z) : t :=
  {| initialBackoff := initial; maxBackoff := max;
     currentBackoff := 0; lastErrorTime := 0 |}.

(** Modelled from the spec: [report_success] clears the backoff. *)
Definition reportSuccess (b : t) : t :=
  {| initialBackoff := initialBackoff b; maxBackoff := maxBackoff b;
     currentBackoff := 0; lastErrorTime := 0 |}.

(** Modelled from the spec: [report_error] at clock reading [now] starts
    the backoff at [initial] or doubles it, up to [max]. *)
Definition reportError (now : Z) (b : t) : t :=
  {| initialBackoff := initialBackoff b; maxBackoff := maxBackoff b;
     currentBackoff :=
       if currentBackoff b =? 0 then initialBackoff b
       else Z.min (maxBackoff b) (currentBackoff b * 2);
     lastErrorTime := now |}.

(** Modelled from the spec: [time_remaining] at clock reading [now], the
    part of the current backoff that has not elapsed since the last
    error. *)
Definition getTimeRemainingUntilRetry (now : Z) (b : t) : Z :=
  let res := lastErrorTime b + currentBackoff b - now in
  if 0 <=? res then res else 0.

End ExponentialBackoff.

(** ** Netlink route encoder (openr/nl/NetlinkRoute.cpp) *)

Module Netlink.

(** *** Constants of the Linux headers *)

Definition AF_INET : Z := 2.
Definition AF_INET6 : Z := 10.
Definition AF_MPLS : Z := 28.

Definition RTN_UNICAST : Z := 1.
Definition RTN_MULTICAST : Z := 5.
Definition RT_SCOPE_UNIVERSE : Z := 0.
Definition RT_SCOPE_LINK : Z := 253.
Definition RT_TABLE_MAIN : Z := 254.

Definition RTM_NEWROUTE : Z := 24.
Definition RTM_DELROUTE : Z := 25.
Definition RTM_F_NOTIFY : Z := 0x100.

Definition NLM_F_REQUEST : Z := 0x1.
Definition NLM_F_ACK : Z := 0x4.
Definition NLM_F_REPLACE : Z := 0x100.
Definition NLM_F_CREATE : Z := 0x400.

Definition RTA_DST : Z := 1.
Definition RTA_OIF : Z := 4.
Definition RTA_GATEWAY : Z := 5.
Definition RTA_MULTIPATH : Z := 9.
Definition RTA_VIA : Z := 18.
Definition RTA_NEWDST : Z := 19.
Definition RTA_ENCAP_TYPE : Z := 21.
Definition RTA_ENCAP : Z := 22.

Definition MPLS_IPTUNNEL_DST : Z := 1.
Definition LWTUNNEL_ENCAP_MPLS : Z := 1.

Definition sizeof_nlmsghdr : Z := 16.
Definition sizeof_rtmsg : Z := 12.
Definition sizeof_rtattr : Z := 4.
Definition sizeof_rtnexthop : Z := 8.
Definition sizeof_mpls_label : Z := 4.
Definition sizeof_int : Z := 4.
Definition sizeof_uint16 : Z := 2.

(** [RTA_ALIGN], [NLMSG_ALIGN]: round up to a multiple of four. *)
Definition RTA_ALIGN (len : Z) : Z := Z.land (len + 3) (Z.lnot 3).
Definition NLMSG_ALIGN (len : Z) : Z := Z.land (len + 3) (Z.lnot 3).
Definition RTA_LENGTH (len : Z) : Z := RTA_ALIGN sizeof_rtattr + len.
Definition NLMSG_LENGTH (len : Z) : Z := len + NLMSG_ALIGN sizeof_nlmsghdr.

(** *** Constants of the repository that src/ does not define *)

(** Modelled from the spec: [kLabelShift] (openr/nl/NetlinkTypes.h, not under
    src/); the spec packs a label as [htonl((L & 0xFFFFF) << 12)]. *)
Definition kLabelShift : Z := 12.

(** Modelled from the spec: [kLabelBosShift] (openr/nl/NetlinkTypes.h, not
    under src/); the spec ORs in [htonl(1 << 8)] for bottom-of-stack. *)
Definition kLabelBosShift : Z := 8.

(** Modelled from the spec: [kLabelSizeBits] (openr/nl/NetlinkTypes.h, not
    under src/); a label has 20 bits. *)
Definition kLabelSizeBits : Z := 20.

(** What remains is taken as a parameter of the encoder: the sizes of the
    message buffer, of the label array and of the [RTA_VIA] structs, and the
    byte order of the host, on which [htonl] depends. *)
Record Platform := {
  kMaxNlPayloadSize : Z;
  kMaxLabels : Z;
  sizeof_nextHop : Z;
  sizeof_nextHopV4 : Z;
  hostLittleEndian : bool;
}.

(** *** Data model *)

Inductive ResultCode :=
  | SUCCESS
  | NO_MESSAGE_BUFFER
  | NO_NEXTHOP_IP
  | NO_LABEL
  | NO_LOOPBACK_INDEX
  | UNKNOWN_LABEL_ACTION
  | INVALID_ADDRESS_FAMILY.

#[global] Instance ResultCode_eq_dec : EqDecision ResultCode.
Proof. solve_decision. Defined.

Inductive MplsActionCode :=
  | PUSH
  | SWAP
  | PHP
  | POP_AND_LOOKUP
  | OtherAction (code : Z).   (* an enum value outside the four cases *)

(** [folly::IPAddress]: the address bytes; [byteCount] is their number. *)
Definition IPAddress := list Z.
Definition byteCount (ip : IPAddress) : Z := Z.of_nat (length ip).

Module NextHop.
Record t := mk {
  getIfIndex : option Z;
  getGateway : option IPAddress;
  getLabelAction : option MplsActionCode;
  getSwapLabel : option Z;
  getPushLabels : option (list Z);
  getFamily : Z;
}.
End NextHop.

Module Route.
Record t := mk {
  getDestination : IPAddress * Z;
  getFamily : Z;
  getType : Z;
  getProtocolId : Z;
  getScope : Z;
  getFlags : option Z;
  getMplsLabel : option Z;
  getNextHops : list NextHop.t;
}.
End Route.

(** What an attribute carries.  The length of the payload is given
    separately, as the code gives it to [addAttributes] and
    [addSubAttributes]. *)
Inductive Payload :=
  | P_none                                   (* nullptr *)
  | P_bytes (bs : list Z)                    (* address bytes *)
  | P_labels (entries : list Z)              (* struct mpls_label[] *)
  | P_via (addrFamily : Z) (ip : list Z)     (* struct nextHop *)
  | P_uint16 (v : Z)
  | P_int (v : Z).

Record rtattr := mk_rtattr {
  rta_len : Z;
  rta_type : Z;
  rta_data : Payload;
}.

Record rtnexthop := mk_rtnexthop {
  rtnh_len : Z;
  rtnh_flags : Z;
  rtnh_hops : Z;
  rtnh_ifindex : Z;
}.

(** The [RTA_MULTIPATH] container under construction ([nhop] in
    [addNextHops]): its own header and the sub-attributes appended so far,
    in buffer order.  A pointer to a sub-attribute is its index. *)
Record NhopBuf := mk_nhop {
  nh_rta_len : Z;
  nh_rta_type : Z;
  nh_subattrs : list rtattr;
}.

(** A top-level attribute of the message: plain data, or the payload of the
    [RTA_MULTIPATH] container ([rtnexthop] headers and their
    sub-attributes). *)
Inductive MsgPayload :=
  | MP_data (p : Payload)
  | MP_multipath (rtnhs : list rtnexthop) (subs : list rtattr).

Record nlattr := mk_nlattr {
  nla_len : Z;
  nla_type : Z;
  nla_data : MsgPayload;
}.

(** The message: [nlmsghdr], [rtmsg] and the attributes appended so far. *)
Record NlMsg := mk_msg {
  nlmsg_len : Z;
  nlmsg_type : Z;
  nlmsg_flags : Z;
  rtm_family : Z;
  rtm_dst_len : Z;
  rtm_src_len : Z;
  rtm_tos : Z;
  rtm_table : Z;
  rtm_protocol : Z;
  rtm_scope : Z;
  rtm_type : Z;
  rtm_flags : Z;
  attrs : list nlattr;
}.

(** The zero-filled message a [NetlinkRouteMessage] starts from. *)
Definition emptyMsg : NlMsg :=
  mk_msg 0 0 0 0 0 0 0 0 0 0 0 0 [].

(** Arithmetic on [uint32_t] wraps around. *)
Definition uint32 (x : Z) : Z := x mod 2 ^ 32.

(** The four bytes of a 32-bit value in reverse order. *)
Definition bswap_32 (x : Z) : Z :=
  Z.lor (Z.lor (Z.shiftl (Z.land x 0xFF) 24) (Z.shiftl (Z.land x 0xFF00) 8))
        (Z.lor (Z.land (Z.shiftr x 8) 0xFF00) (Z.land (Z.shiftr x 24) 0xFF)).

Section Encoder.

Variable P : Platform.

(** [htonl]: host to network (big-endian) byte order. *)
Definition htonl (x : Z) : Z :=
  if hostLittleEndian P then bswap_32 x else x.

(** Modelled from the spec: [NetlinkMessage::addSubAttributes]
    (openr/nl/NetlinkMessage.cpp, not under src/).  It appends a TLV
    sub-attribute at the aligned end of the container and grows the
    container's [rta_len] by the aligned size of the new attribute; when the
    fixed-size buffer cannot hold it, it logs and returns [nullptr]. *)
Definition addSubAttributes (rta : NhopBuf) (type : Z) (data : Payload)
    (len : Z) : M (option nat * NhopBuf) :=
  let subRtaLen := RTA_LENGTH len in
  if RTA_ALIGN (nh_rta_len rta) + RTA_ALIGN subRtaLen >? kMaxNlPayloadSize P
  then
    let* _ := log_error "No buffer for adding attr" [type; len] in
    ret (None, rta)
  else
    ret (Some (length (nh_subattrs rta)),
         mk_nhop (NLMSG_ALIGN (nh_rta_len rta) + RTA_ALIGN subRtaLen)
                 (nh_rta_type rta)
                 (nh_subattrs rta ++ [mk_rtattr subRtaLen type data])).

(** Modelled from the spec: [NetlinkMessage::addAttributes]
    (openr/nl/NetlinkMessage.cpp, not under src/): the same for a top-level
    attribute of the message, with [nlmsg_len] as the running length and
    [MessageBufferExhausted] as a result code. *)
Definition addAttributes (type : Z) (data : MsgPayload) (len : Z)
    (msg : NlMsg)
    : M (ResultCode * NlMsg) :=
  let rtaLen := RTA_LENGTH len in
  let nlmsgAlen := NLMSG_ALIGN (nlmsg_len msg) in
  if nlmsgAlen + RTA_ALIGN rtaLen >? kMaxNlPayloadSize P
  then
    let* _ := log_error "Space not available to add attribute type" [type] in
    ret (NO_MESSAGE_BUFFER, msg)
  else
    ret (SUCCESS,
         mk_msg (nlmsgAlen + RTA_ALIGN rtaLen) (nlmsg_type msg)
                (nlmsg_flags msg) (rtm_family msg) (rtm_dst_len msg)
                (rtm_src_len msg) (rtm_tos msg) (rtm_table msg)
                (rtm_protocol msg) (rtm_scope msg) (rtm_type msg)
                (rtm_flags msg)
                (attrs msg ++ [mk_nlattr rtaLen type data])).

(** [NetlinkRouteMessage::init].  [nlmsg_len] is set back to the length of
    the two headers: attributes the message held lie beyond it, are no
    longer part of the message and are overwritten by the next attribute. *)
Definition init (type : Z) (rtFlags : Z) (route : Route.t) (msg : NlMsg)
    : NlMsg :=
  let flags := Z.lor NLM_F_REQUEST NLM_F_ACK in
  let flags := if negb (type =? RTM_DELROUTE) then Z.lor flags NLM_F_CREATE
               else flags in
  let flags := if negb (Route.getType route =? RTN_MULTICAST)
               then Z.lor flags NLM_F_REPLACE else flags in
  let rtm_flags' := match Route.getFlags route with
                    | Some f => Z.lor rtFlags f
                    | None => rtFlags
                    end in
  mk_msg (NLMSG_LENGTH sizeof_rtmsg) type flags
         (rtm_family msg) (rtm_dst_len msg)
         0 0 RT_TABLE_MAIN (Route.getProtocolId route) RT_SCOPE_UNIVERSE
         (Route.getType route) rtm_flags' [].

(** [NetlinkRouteMessage::encodeLabel] *)
Definition encodeLabel (label : Z) (bos : bool) : M Z :=
  let* label :=
    (if label >? 0xFFFFF
     then let* _ := log_error "Invalid label 0x" [label] in ret 0
     else ret label) in
  let encodeLabel := htonl (uint32 (Z.shiftl label kLabelShift)) in
  let encodeLabel :=
    if bos then Z.lor encodeLabel (htonl (uint32 (Z.shiftl 1 kLabelBosShift)))
    else encodeLabel in
  ret encodeLabel.

Definition set_rtnh_len (rtnh : rtnexthop) (len : Z) : rtnexthop :=
  mk_rtnexthop len (rtnh_flags rtnh) (rtnh_hops rtnh) (rtnh_ifindex rtnh).

(** [NetlinkRouteMessage::addIpNexthop] *)
Definition addIpNexthop (rta : NhopBuf) (rtnh : rtnexthop)
    (path : NextHop.t) (route : Route.t)
    : M (ResultCode * NhopBuf * rtnexthop) :=
  let* ifIndex := value (NextHop.getIfIndex path) in
  let rtnh := mk_rtnexthop sizeof_rtnexthop 0 0 ifIndex in
  (* RTA_GATEWAY *)
  match NextHop.getGateway path with
  | None =>
      if (Route.getType route =? RTN_MULTICAST)
         || (Route.getScope route =? RT_SCOPE_LINK)
      then ret (SUCCESS, rta, rtnh)
      else
        let* _ := log_error "Nexthop IP not provided" [] in
        ret (NO_NEXTHOP_IP, rta, rtnh)
  | Some via =>
      let* r := addSubAttributes rta RTA_GATEWAY (P_bytes via)
                                 (byteCount via) in
      match r with
      | (None, rta) => ret (NO_MESSAGE_BUFFER, rta, rtnh)
      | (Some _, rta) =>
          (* update length in rtnexthop *)
          ret (SUCCESS, rta,
               set_rtnh_len rtnh
                 (rtnh_len rtnh + (byteCount via + sizeof_rtattr)))
      end
  end.

(** [NetlinkRouteMessage::addSwapOrPHPNexthop] *)
Definition addSwapOrPHPNexthop (rta : NhopBuf) (rtnh : rtnexthop)
    (path : NextHop.t) : M (ResultCode * NhopBuf * rtnexthop) :=
  let* ifIndex := value (NextHop.getIfIndex path) in
  let rtnh := mk_rtnexthop sizeof_rtnexthop 0 0 ifIndex in
  let prevLen := nh_rta_len rta in
  (* labels.size() = 0 implies PHP *)
  let* r :=
    match NextHop.getSwapLabel path with
    | Some label =>
        let* entry := encodeLabel label true in
        addSubAttributes rta RTA_NEWDST (P_labels [entry]) sizeof_mpls_label
    | None => ret (Some 0%nat, rta)
    end in
  match r with
  | (None, rta) => ret (NO_MESSAGE_BUFFER, rta, rtnh)
  | (Some _, rta) =>
      (* update rtnh len *)
      let rtnh := set_rtnh_len rtnh (rtnh_len rtnh + (nh_rta_len rta - prevLen)) in
      (* RTA_VIA *)
      let addrFamily := NextHop.getFamily path in
      let* gw := value (NextHop.getGateway path) in
      let viaLen := if addrFamily =? AF_INET then sizeof_nextHopV4 P
                    else sizeof_nextHop P in
      let* r := addSubAttributes rta RTA_VIA (P_via addrFamily gw) viaLen in
      match r with
      | (None, rta) => ret (NO_MESSAGE_BUFFER, rta, rtnh)
      | (Some _, rta) =>
          ret (SUCCESS, rta,
               set_rtnh_len rtnh (rtnh_len rtnh + (viaLen + sizeof_rtattr)))
      end
  end.

(** [NetlinkRouteMessage::addPopNexthop] *)
Definition addPopNexthop (rta : NhopBuf) (rtnh : rtnexthop)
    (path : NextHop.t) : M (ResultCode * NhopBuf * rtnexthop) :=
  let rtnh := set_rtnh_len rtnh sizeof_rtnexthop in
  match NextHop.getIfIndex path with
  | None =>
      let* _ := log_error "Loopback interface index not provided for POP" [] in
      ret (NO_LOOPBACK_INDEX, rta, rtnh)
  | Some ifIndex =>
      let rtnh := mk_rtnexthop (rtnh_len rtnh) 0 0 ifIndex in
      let oif := rtnh_ifindex rtnh in
      let* r := addSubAttributes rta RTA_OIF (P_int oif) sizeof_int in
      match r with
      | (None, rta) => ret (NO_MESSAGE_BUFFER, rta, rtnh)
      | (Some _, rta) =>
          ret (SUCCESS, rta,
               set_rtnh_len rtnh (rtnh_len rtnh + (sizeof_int + sizeof_rtattr)))
      end
  end.

(** The loop of [addLabelNexthop] over the labels to push:
    [mplsLabel[i++].entry = encodeLabel(label, i == size - 1)], where
    [mplsLabel] is a [std::array] of [kMaxLabels] entries. *)
Fixpoint pushLabels (labels : list Z) (size : Z) (i : Z) (mplsLabel : list Z)
    : M (list Z) :=
  match labels with
  | [] => ret mplsLabel
  | label :: labels' =>
      let bos := i =? size - 1 in
      let* entry := encodeLabel label bos in
      if i <? kMaxLabels P
      then pushLabels labels' size (i + 1) (<[Z.to_nat i := entry]> mplsLabel)
      else throw OutOfBounds
  end.

(** Sets the [rta_len] of the sub-attribute a pointer refers to. *)
Definition set_sub_rta_len (rta : NhopBuf) (ptr : nat) (len : Z) : NhopBuf :=
  mk_nhop (nh_rta_len rta) (nh_rta_type rta)
          (alter (fun a => mk_rtattr len (rta_type a) (rta_data a)) ptr
                 (nh_subattrs rta)).

(** [NetlinkRouteMessage::addLabelNexthop] *)
Definition addLabelNexthop (rta : NhopBuf) (rtnh : rtnexthop)
    (path : NextHop.t) : M (ResultCode * NhopBuf * rtnexthop) :=
  (* fill the OIF *)
  let* ifIndex := value (NextHop.getIfIndex path) in
  let rtnh := mk_rtnexthop sizeof_rtnexthop 0 0 ifIndex in
  let prevLen := nh_rta_len rta in
  (* RTA_ENCAP sub attribute *)
  let* r := addSubAttributes rta RTA_ENCAP P_none 0 in
  match r with
  | (None, rta) => ret (NO_MESSAGE_BUFFER, rta, rtnh)
  | (Some rtaEncap, rta) =>
      (* MPLS_IP_TUNNEL_DST sub attribute *)
      match NextHop.getPushLabels path with
      | None =>
          let* _ := log_error "Labels not provided for PUSH action" [] in
          ret (NO_LABEL, rta, rtnh)
      | Some labels =>
          let size := Z.of_nat (length labels) in
          let* mplsLabel :=
            pushLabels labels size 0
                       (replicate (Z.to_nat (kMaxLabels P)) 0) in
          let totalSize := size * sizeof_mpls_label in
          let* r := addSubAttributes rta MPLS_IPTUNNEL_DST
                      (P_labels (take (length labels) mplsLabel)) totalSize in
          match r with
          | (None, rta) => ret (NO_MESSAGE_BUFFER, rta, rtnh)
          | (Some _, rta) =>
              (* update RTA ENCAP sub attribute length *)
              let rta := set_sub_rta_len rta rtaEncap
                           (RTA_ALIGN (nh_rta_len rta) - prevLen) in
              (* RTA_ENCAP_TYPE sub attribute *)
              let* r := addSubAttributes rta RTA_ENCAP_TYPE
                          (P_uint16 LWTUNNEL_ENCAP_MPLS) sizeof_uint16 in
              match r with
              | (None, rta) => ret (NO_MESSAGE_BUFFER, rta, rtnh)
              | (Some _, rta) =>
                  (* update rtnh len *)
                  let rtnh := set_rtnh_len rtnh
                                (rtnh_len rtnh + (nh_rta_len rta - prevLen)) in
                  (* RTA_GATEWAY *)
                  match NextHop.getGateway path with
                  | None =>
                      let* _ := log_error "Nexthop IP not provided" [] in
                      ret (NO_NEXTHOP_IP, rta, rtnh)
                  | Some via =>
                      let* r := addSubAttributes rta RTA_GATEWAY (P_bytes via)
                                                 (byteCount via) in
                      match r with
                      | (None, rta) => ret (NO_MESSAGE_BUFFER, rta, rtnh)
                      | (Some _, rta) =>
                          ret (SUCCESS, rta,
                               set_rtnh_len rtnh
                                 (rtnh_len rtnh
                                  + (byteCount via + sizeof_rtattr)))
                      end
                  end
              end
          end
      end
  end.

(** [NetlinkRouteMessage::addMultiPathNexthop], the loop over the paths.
    [rtnhs] are the [rtnexthop] headers completed so far; every iteration
    starts a header of [sizeof_rtnexthop] bytes in the zero-filled buffer.
    The code writes the headers through a pointer that only
    [addSubAttributes] bounds; the model keeps them as records, in order,
    and so stands for the code as long as the container stays within the
    [nhop] array, that is [nh_rta_len] within [kMaxNlPayloadSize]: every
    header ends where the [rta_len] of its iteration ends. *)
Fixpoint addMultiPathNexthop_loop (route : Route.t) (paths : list NextHop.t)
    (rta : NhopBuf) (rtnhs : list rtnexthop) (result : ResultCode)
    : M (ResultCode * NhopBuf * list rtnexthop) :=
  match paths with
  | [] => ret (result, rta, rtnhs)
  | path :: paths' =>
      let rtnh := mk_rtnexthop sizeof_rtnexthop 0 0 0 in
      let rta := mk_nhop (nh_rta_len rta + rtnh_len rtnh) (nh_rta_type rta)
                         (nh_subattrs rta) in
      let dispatch : option (M (ResultCode * NhopBuf * rtnexthop)) :=
        match NextHop.getLabelAction path with
        | Some PUSH => Some (addLabelNexthop rta rtnh path)
        | Some SWAP | Some PHP => Some (addSwapOrPHPNexthop rta rtnh path)
        | Some POP_AND_LOOKUP => Some (addPopNexthop rta rtnh path)
        | Some (OtherAction _) => None
        | None => Some (addIpNexthop rta rtnh path route)
        end in
      match dispatch with
      | None =>
          let* _ := log_error "Unknown action " [] in
          ret (UNKNOWN_LABEL_ACTION, rta, rtnhs ++ [rtnh])
      | Some call =>
          let* r := call in
          let '(result, rta, rtnh) := r in
          if decide (result = SUCCESS)
          then addMultiPathNexthop_loop route paths' rta (rtnhs ++ [rtnh])
                                        result
          else ret (result, rta, rtnhs ++ [rtnh])
      end
  end.

(** [NetlinkRouteMessage::addMultiPathNexthop] *)
Definition addMultiPathNexthop (route : Route.t)
    : M (ResultCode * NhopBuf * list rtnexthop) :=
  let rta := mk_nhop (RTA_LENGTH 0) RTA_MULTIPATH [] in
  addMultiPathNexthop_loop route (Route.getNextHops route) rta [] SUCCESS.

(** [NetlinkRouteMessage::addNextHops] *)
Definition addNextHops (route : Route.t) (msg : NlMsg)
    : M (ResultCode * NlMsg) :=
  match Route.getNextHops route with
  | [] => ret (SUCCESS, msg)
  | _ :: _ =>
      let* r := addMultiPathNexthop route in
      let '(status, nhop, rtnhs) := r in
      if decide (status = SUCCESS)
      then
        (* copy the encap info into NLMSG payload *)
        let payloadLen := nh_rta_len nhop - RTA_LENGTH 0 in
        addAttributes RTA_MULTIPATH (MP_multipath rtnhs (nh_subattrs nhop))
                      payloadLen msg
      else ret (status, msg)
  end.

Definition set_family_dst_len (msg : NlMsg) (family dst_len : Z) : NlMsg :=
  mk_msg (nlmsg_len msg) (nlmsg_type msg) (nlmsg_flags msg) family dst_len
         (rtm_src_len msg) (rtm_tos msg) (rtm_table msg) (rtm_protocol msg)
         (rtm_scope msg) (rtm_type msg) (rtm_flags msg) (attrs msg).

Definition set_rtm_flags (msg : NlMsg) (flags : Z) : NlMsg :=
  mk_msg (nlmsg_len msg) (nlmsg_type msg) (nlmsg_flags msg) (rtm_family msg)
         (rtm_dst_len msg) (rtm_src_len msg) (rtm_tos msg) (rtm_table msg)
         (rtm_protocol msg) (rtm_scope msg) (rtm_type msg) flags (attrs msg).

(** [NetlinkRouteMessage::addRoute] *)
Definition addRoute (route : Route.t) (msg : NlMsg) : M (ResultCode * NlMsg) :=
  let '(ip, plen) := Route.getDestination route in
  let addressFamily := Route.getFamily route in
  if negb (addressFamily =? AF_INET) && negb (addressFamily =? AF_INET6)
  then
    let* _ := log_error "Address family is not AF_INET or AF_INET6" [] in
    ret (INVALID_ADDRESS_FAMILY, msg)
  else
    let msg := init RTM_NEWROUTE RTM_F_NOTIFY route msg in
    let msg := set_family_dst_len msg addressFamily plen in
    let* r := addAttributes RTA_DST (MP_data (P_bytes ip)) (byteCount ip) msg in
    let '(status, msg) := r in
    if decide (status = SUCCESS) then addNextHops route msg
    else ret (status, msg).

(** [NetlinkRouteMessage::deleteRoute] *)
Definition deleteRoute (route : Route.t) (msg : NlMsg)
    : M (ResultCode * NlMsg) :=
  let '(ip, plen) := Route.getDestination route in
  let addressFamily := Route.getFamily route in
  if negb (addressFamily =? AF_INET) && negb (addressFamily =? AF_INET6)
  then ret (INVALID_ADDRESS_FAMILY, msg)
  else
    let msg := init RTM_DELROUTE RTM_F_NOTIFY route msg in
    let msg := set_family_dst_len msg addressFamily plen in
    addAttributes RTA_DST (MP_data (P_bytes ip)) (byteCount ip) msg.

(** [NetlinkRouteMessage::addLabelRoute] *)
Definition addLabelRoute (route : Route.t) (msg : NlMsg)
    : M (ResultCode * NlMsg) :=
  let msg := init RTM_NEWROUTE 0 route msg in
  let msg := set_family_dst_len msg AF_MPLS kLabelSizeBits in
  let msg := set_rtm_flags msg 0 in
  if negb (Route.getFamily route =? AF_MPLS)
  then ret (INVALID_ADDRESS_FAMILY, msg)
  else
    match Route.getMplsLabel route with
    | None => ret (NO_LABEL, msg)
    | Some label =>
        let* entry := encodeLabel label true in
        let* r := addAttributes RTA_DST (MP_data (P_labels [entry]))
                                sizeof_mpls_label msg in
        let '(status, msg) := r in
        if decide (status = SUCCESS) then addNextHops route msg
        else ret (status, msg)
    end.

(** [NetlinkRouteMessage::deleteLabelRoute] *)
Definition deleteLabelRoute (route : Route.t) (msg : NlMsg)
    : M (ResultCode * NlMsg) :=
  let msg := init RTM_DELROUTE 0 route msg in
  let msg := set_family_dst_len msg AF_MPLS kLabelSizeBits in
  let msg := set_rtm_flags msg 0 in
  match Route.getMplsLabel route with
  | None =>
      let* _ := log_error "Label not provided" [] in
      ret (NO_LABEL, msg)
  | Some label =>
      let* entry := encodeLabel label true in
      addAttributes RTA_DST (MP_data (P_labels [entry])) sizeof_mpls_label msg
  end.

(** *** Definitions used to state the properties of the encoder *)

(** The 32-bit entry [encodeLabel] computes from a label that is in range. *)
Definition packLabel (label : Z) (bos : bool) : Z :=
  let e := htonl (uint32 (Z.shiftl label kLabelShift)) in
  if bos then Z.lor e (htonl (uint32 (Z.shiftl 1 kLabelBosShift))) else e.


End Encoder.

(** What the range check of [encodeLabel] makes of a label, and of the
    labels of a nexthop and of a route. *)
Definition clampLabel (label : Z) : Z :=
  if label >? 0xFFFFF then 0 else label.

Definition clampNextHop (path : NextHop.t) : NextHop.t :=
  NextHop.mk (NextHop.getIfIndex path) (NextHop.getGateway path)
             (NextHop.getLabelAction path)
             (option_map clampLabel (NextHop.getSwapLabel path))
             (option_map (map clampLabel) (NextHop.getPushLabels path))
             (NextHop.getFamily path).

Definition clampRoute (route : Route.t) : Route.t :=
  Route.mk (Route.getDestination route) (Route.getFamily route)
           (Route.getType route) (Route.getProtocolId route)
           (Route.getScope route) (Route.getFlags route)
           (option_map clampLabel (Route.getMplsLabel route))
           (map clampNextHop (Route.getNextHops route)).

(** A host to evaluate the encoder on: little-endian, a 4096-byte message
    buffer, room for 16 labels, and for [RTA_VIA] the sizes the
    specification gives (17 bytes, 5 bytes for IPv4). *)
Definition linuxHost : Platform :=
  {| kMaxNlPayloadSize := 4096; kMaxLabels := 16;
     sizeof_nextHop := 17; sizeof_nextHopV4 := 5;
     hostLittleEndian := true |}.

(** Inputs to evaluate the encoder on. *)

(** An MPLS route whose label [0x100000] is one past the 20-bit range. *)
Definition badLabelRoute : Route.t :=
  Route.mk ([], 0) AF_MPLS RTN_UNICAST 99 RT_SCOPE_UNIVERSE None
           (Some 0x100000) [].

(** A nexthop pushing the labels 200 and 300 via 192.0.2.1 on interface 3. *)
Definition pushNextHop : NextHop.t :=
  NextHop.mk (Some 3) (Some [192; 0; 2; 1]) (Some PUSH) None
             (Some [200; 300]) AF_INET.

(** A nexthop on interface 3 with neither gateway nor label action. *)
Definition deviceNextHop : NextHop.t :=
  NextHop.mk (Some 3) None None None None AF_INET.

(** A multicast route 224.0.0.0/4 and a unicast route 10.0.0.0/24 over
    [deviceNextHop]. *)
Definition multicastRoute : Route.t :=
  Route.mk ([224; 0; 0; 0], 4) AF_INET RTN_MULTICAST 99 RT_SCOPE_UNIVERSE
           None None [deviceNextHop].


(** The container and header [addMultiPathNexthop] hands to the encoder of
    the first nexthop. *)
Definition firstNhop : NhopBuf :=
  mk_nhop (RTA_LENGTH 0 + sizeof_rtnexthop) RTA_MULTIPATH [].

Definition firstRtnh : rtnexthop := mk_rtnexthop sizeof_rtnexthop 0 0 0.

(** [RTNH_ALIGN] of the Linux headers: round up to a multiple of four.
    [RTNH_NEXT], by which the loop of [addMultiPathNexthop] moves to the next
    header, steps over [RTNH_ALIGN] of the [rtnh_len] of the header it is
    at. *)
Definition RTNH_ALIGN (len : Z) : Z := Z.land (len + 3) (Z.lnot 3).

(** The bytes [RTNH_NEXT] steps over in walking the headers [rtnhs]. *)
Definition rtnhBytes (rtnhs : list rtnexthop) : Z :=
  foldr (fun rtnh acc => RTNH_ALIGN (rtnh_len rtnh) + acc) 0 rtnhs.

(** Further inputs to evaluate the encoder on: a nexthop without interface
    index; a SWAP nexthop to the label 500 via 192.0.2.1 on interface 3; a
    POP_AND_LOOKUP nexthop on the loopback interface 1; a route to 10.0.0.0/24
    over the first of them, and an MPLS route for the label 100 over the
    SWAP, the PUSH and the POP nexthop. *)
Definition noIndexNextHop : NextHop.t :=
  NextHop.mk None (Some [192; 0; 2; 1]) None None None AF_INET.

Definition swapNextHop : NextHop.t :=
  NextHop.mk (Some 3) (Some [192; 0; 2; 1]) (Some SWAP) (Some 500) None
             AF_INET.

Definition popNextHop : NextHop.t :=
  NextHop.mk (Some 1) None (Some POP_AND_LOOKUP) None None AF_INET.

Definition noIndexRoute : Route.t :=
  Route.mk ([10; 0; 0; 0], 24) AF_INET RTN_UNICAST 99 RT_SCOPE_UNIVERSE
           None None [noIndexNextHop].

Definition labelRoute : Route.t :=
  Route.mk ([], 0) AF_MPLS RTN_UNICAST 99 RT_SCOPE_UNIVERSE None (Some 100)
           [swapNextHop; pushNextHop; popNextHop].





(** The message of [multicastRoute] as [addRoute] hands it to
    [addNextHops]: initialised, with family and prefix length, and with
    [RTA_DST]. *)
Definition multicastRouteMsg : NlMsg :=
  mk_msg 36 RTM_NEWROUTE 0x405 AF_INET 4 0 0 RT_TABLE_MAIN 99
         RT_SCOPE_UNIVERSE RTN_MULTICAST RTM_F_NOTIFY
         [mk_nlattr 8 RTA_DST (MP_data (P_bytes [224; 0; 0; 0]))].

End Netlink.

(** ** FIB reconciler (openr/fib/Fib.cpp) *)

Module Fib.

(** *** Thrift data model

    The structs are declared in the thrift files of the repository, which are
    not under src/; the records carry the fields Fib.cpp reads and writes.
    Performance events, counters and log samples are left out: no decision of
    the reconciler depends on them. *)

Record BinaryAddress := mk_BinaryAddress {
  addr : list Z;
  ifName : option string;
}.

Record NextHopThrift := mk_NextHopThrift {
  address : BinaryAddress;
  weight : Z;
  metric : Z;
}.

Record IpPrefix := mk_IpPrefix {
  prefixAddress : list Z;
  prefixLength : Z;
}.

Module UnicastRoute.
Record t := mk {
  dest : IpPrefix;
  doNotInstall : bool;
  nextHops : list NextHopThrift;
}.
End UnicastRoute.

Module MplsRoute.
Record t := mk {
  topLabel : Z;
  nextHops : list NextHopThrift;
}.
End MplsRoute.

Record RouteDatabase := mk_RouteDatabase {
  thisNodeName : string;
  unicastRoutes : list UnicastRoute.t;
  mplsRoutes : list MplsRoute.t;
}.

Record RouteDatabaseDelta := mk_RouteDatabaseDelta {
  unicastRoutesToUpdate : list UnicastRoute.t;
  unicastRoutesToDelete : list IpPrefix;
  mplsRoutesToUpdate : list MplsRoute.t;
  mplsRoutesToDelete : list Z;
}.

Record InterfaceInfo := mk_InterfaceInfo {
  isUp : bool;
  ifIndex : Z;
}.

Record InterfaceDatabase := mk_InterfaceDatabase {
  idb_thisNodeName : string;
  interfaces : gmap string InterfaceInfo;
}.

#[global] Instance BinaryAddress_eq_dec : EqDecision BinaryAddress.
Proof. solve_decision. Defined.
#[global] Instance NextHopThrift_eq_dec : EqDecision NextHopThrift.
Proof. solve_decision. Defined.
#[global] Instance IpPrefix_eq_dec : EqDecision IpPrefix.
Proof. solve_decision. Defined.
#[global] Instance UnicastRoute_eq_dec : EqDecision UnicastRoute.t.
Proof. solve_decision. Defined.
#[global] Instance MplsRoute_eq_dec : EqDecision MplsRoute.t.
Proof. solve_decision. Defined.

(** [v.size()] used as a condition. *)
Definition nonempty {A} (l : list A) : bool :=
  match l with
  | [] => false
  | _ :: _ => true
  end.

(** *** The forwarding agent

    The calls of [thrift::FibServiceAsyncClient].  The reconciler state keeps
    the calls it has issued, in order; whether a call throws is decided by
    the environment. *)
Inductive AgentCall :=
  | sync_deleteUnicastRoutes (prefixes : list IpPrefix)
  | sync_addUnicastRoutes (routes : list UnicastRoute.t)
  | sync_deleteMplsRoutes (labels : list Z)
  | sync_addMplsRoutes (routes : list MplsRoute.t)
  | sync_syncFib (routes : list UnicastRoute.t)
  | sync_syncMplsFib (routes : list MplsRoute.t)
  | sync_aliveSince.

Record Agent := mk_Agent {
  throws : AgentCall -> bool;   (* the call ends in an exception *)
  aliveSince : Z;               (* what [aliveSince()] returns *)
}.

(** The body of a [try] block: the calls issued so far are threaded through,
    [None] is a thrown exception, after which nothing more is called. *)
Definition Try (A : Type) : Type :=
  list AgentCall -> option A * list AgentCall.

Definition try_ret {A} (a : A) : Try A := fun calls => (Some a, calls).

Definition try_bind {A B} (m : Try A) (k : A -> Try B) : Try B :=
  fun calls =>
    match m calls with
    | (Some a, calls') => k a calls'
    | (None, calls') => (None, calls')
    end.

Definition call (agent : Agent) (c : AgentCall) : Try unit :=
  fun calls => (if throws agent c then None else Some tt, calls ++ [c]).

Definition when (b : bool) (m : Try unit) : Try unit :=
  if b then m else try_ret tt.

Notation "m1 ;;; m2" := (try_bind m1 (fun _ => m2))
  (at level 100, m2 at level 200, right associativity).

(** What a [try] block issues of the calls [cs] it means to make in order:
    the calls up to and including the first one that throws. *)
Fixpoint attempted (agent : Agent) (cs : list AgentCall) : list AgentCall :=
  match cs with
  | [] => []
  | c :: cs' => c :: (if throws agent c then [] else attempted agent cs')
  end.

(** Whether none of the calls [cs] throws. *)
Definition allSucceed (agent : Agent) (cs : list AgentCall) : bool :=
  forallb (fun c => negb (throws agent c)) cs.

(** The [try] block [m] means to make the calls [cs], in order. *)
Definition issues (agent : Agent) (m : Try unit) (cs : list AgentCall)
    : Prop :=
  forall calls,
    m calls = (if allSucceed agent cs then Some tt else None,
               calls ++ attempted agent cs).

(** *** State of the reconciler *)

Record t := mk {
  routeDb_ : RouteDatabase;
  doNotInstallRouteDb_ : RouteDatabase;
  interfaceStatusDb_ : gmap string bool;
  dirtyRouteDb_ : bool;
  (* [Some d]: the timer is scheduled to fire [d] ms from now *)
  syncRoutesTimer_ : option Z;
  expBackoff_ : ExponentialBackoff.t;
  client_ : bool;                  (* a client object exists *)
  latestAliveSince_ : Z;
  agentCalls : list AgentCall;     (* calls issued to the agent so far *)
}.

Definition set_routeDb (s : t) (v : RouteDatabase) : t :=
  mk v (doNotInstallRouteDb_ s) (interfaceStatusDb_ s) (dirtyRouteDb_ s)
     (syncRoutesTimer_ s) (expBackoff_ s) (client_ s) (latestAliveSince_ s)
     (agentCalls s).
Definition set_doNotInstallRouteDb (s : t) (v : RouteDatabase) : t :=
  mk (routeDb_ s) v (interfaceStatusDb_ s) (dirtyRouteDb_ s)
     (syncRoutesTimer_ s) (expBackoff_ s) (client_ s) (latestAliveSince_ s)
     (agentCalls s).
Definition set_interfaceStatusDb (s : t) (v : gmap string bool) : t :=
  mk (routeDb_ s) (doNotInstallRouteDb_ s) v (dirtyRouteDb_ s)
     (syncRoutesTimer_ s) (expBackoff_ s) (client_ s) (latestAliveSince_ s)
     (agentCalls s).
Definition set_dirtyRouteDb (s : t) (v : bool) : t :=
  mk (routeDb_ s) (doNotInstallRouteDb_ s) (interfaceStatusDb_ s) v
     (syncRoutesTimer_ s) (expBackoff_ s) (client_ s) (latestAliveSince_ s)
     (agentCalls s).
Definition set_syncRoutesTimer (s : t) (v : option Z) : t :=
  mk (routeDb_ s) (doNotInstallRouteDb_ s) (interfaceStatusDb_ s)
     (dirtyRouteDb_ s) v (expBackoff_ s) (client_ s) (latestAliveSince_ s)
     (agentCalls s).
Definition set_expBackoff (s : t) (v : ExponentialBackoff.t) : t :=
  mk (routeDb_ s) (doNotInstallRouteDb_ s) (interfaceStatusDb_ s)
     (dirtyRouteDb_ s) (syncRoutesTimer_ s) v (client_ s)
     (latestAliveSince_ s) (agentCalls s).
Definition set_client (s : t) (v : bool) : t :=
  mk (routeDb_ s) (doNotInstallRouteDb_ s) (interfaceStatusDb_ s)
     (dirtyRouteDb_ s) (syncRoutesTimer_ s) (expBackoff_ s) v
     (latestAliveSince_ s) (agentCalls s).
Definition set_latestAliveSince (s : t) (v : Z) : t :=
  mk (routeDb_ s) (doNotInstallRouteDb_ s) (interfaceStatusDb_ s)
     (dirtyRouteDb_ s) (syncRoutesTimer_ s) (expBackoff_ s) (client_ s) v
     (agentCalls s).
Definition set_agentCalls (s : t) (v : list AgentCall) : t :=
  mk (routeDb_ s) (doNotInstallRouteDb_ s) (interfaceStatusDb_ s)
     (dirtyRouteDb_ s) (syncRoutesTimer_ s) (expBackoff_ s) (client_ s)
     (latestAliveSince_ s) v.

(** [timer->isScheduled()] and [timer->scheduleTimeout(d)] *)
Definition isScheduled (timer : option Z) : bool :=
  match timer with
  | Some _ => true
  | None => false
  end.

Definition scheduleTimeout (d : Z) : option Z := Some d.

(** The constructor arguments the reconciler keeps. *)
Record Config := mk_Config {
  myNodeName_ : string;
  dryrun_ : bool;
  enableFibSync_ : bool;
  enableSegmentRouting_ : bool;
  coldStartDuration_ : Z;
}.

(** Functions of openr/common/Util.h that Fib.cpp calls and src/ does not
    contain; the reconciler is parametrised by them. *)
Record Util := mk_Util {
  getBestNextHopsUnicast : list NextHopThrift -> list NextHopThrift;
  getBestNextHopsMpls : list NextHopThrift -> list NextHopThrift;
  findDeltaRoutes : RouteDatabase -> RouteDatabase -> RouteDatabaseDelta;
  createUnicastRoutesWithBestNexthops :
    list UnicastRoute.t -> list UnicastRoute.t;
  createMplsRoutesWithBestNextHops : list MplsRoute.t -> list MplsRoute.t;
}.

Inductive FibCommand :=
  | ROUTE_DB_GET
  | PERF_DB_GET
  | ROUTE_DB_UNINSTALLABLE_GET
  | OtherCommand (code : Z).

Inductive FibResponse :=
  | RouteDbResponse (db : RouteDatabase)
  | PerfDbResponse
  | Unexpected.     (* folly::makeUnexpected(fbzmq::Error()) *)

Section Reconciler.

Variable C : Config.
Variable U : Util.

(** The state the constructor [Fib::Fib] leaves: the node name in the route
    DB, the backoff of 8 ms to 4096 ms, the full-sync timer scheduled after
    the cold-start duration.  The members the constructor does not mention
    are declared in Fib.h, which is not under src/, and start from their
    defaults: empty containers, no client, and a clear dirty flag (the
    specification has it mean that the last apply failed). *)
Definition init : t :=
  {| routeDb_ := mk_RouteDatabase (myNodeName_ C) [] [];
     doNotInstallRouteDb_ := mk_RouteDatabase "" [] [];
     interfaceStatusDb_ := ∅;
     dirtyRouteDb_ := false;
     syncRoutesTimer_ := scheduleTimeout (coldStartDuration_ C);
     expBackoff_ := ExponentialBackoff.make 8 4096;
     client_ := false;
     latestAliveSince_ := 0;
     agentCalls := [] |}.

(** [Fib::createFibClient]: afterwards a client exists. *)
Definition createFibClient (s : t) : t := set_client s true.

(** [Fib::syncRouteDbDebounced] *)
Definition syncRouteDbDebounced (s : t) : t :=
  if negb (isScheduled (syncRoutesTimer_ s))
  then set_syncRoutesTimer s (scheduleTimeout 0)
  else s.

(** [Fib::updateRoutes] *)
Definition updateRoutes (agent : Agent) (routeDbDelta : RouteDatabaseDelta)
    (s : t) : t :=
  let patchedUnicastRoutesToUpdate :=
    createUnicastRoutesWithBestNexthops U
      (unicastRoutesToUpdate routeDbDelta) in
  let mplsRoutesToUpdate' :=
    createMplsRoutesWithBestNextHops U (mplsRoutesToUpdate routeDbDelta) in
  if dryrun_ C then s
  else if isScheduled (syncRoutesTimer_ s) then s
  else if dirtyRouteDb_ s then syncRouteDbDebounced s
  else
    (* Make thrift calls to do real programming *)
    let s := createFibClient s in
    let body : Try unit :=
      when (nonempty (unicastRoutesToDelete routeDbDelta))
           (call agent
              (sync_deleteUnicastRoutes (unicastRoutesToDelete routeDbDelta)))
      ;;;
      when (nonempty patchedUnicastRoutesToUpdate)
           (call agent (sync_addUnicastRoutes patchedUnicastRoutesToUpdate))
      ;;;
      when (enableSegmentRouting_ C
            && nonempty (mplsRoutesToDelete routeDbDelta))
           (call agent
              (sync_deleteMplsRoutes (mplsRoutesToDelete routeDbDelta)))
      ;;;
      when (enableSegmentRouting_ C && nonempty mplsRoutesToUpdate')
           (call agent (sync_addMplsRoutes mplsRoutesToUpdate')) in
    match body (agentCalls s) with
    | (Some _, calls) => set_dirtyRouteDb (set_agentCalls s calls) false
    | (None, calls) =>
        syncRouteDbDebounced
          (set_dirtyRouteDb (set_client (set_agentCalls s calls) false) true)
    end.

(** [Fib::syncRouteDb] *)
Definition syncRouteDb (agent : Agent) (s : t) : bool * t :=
  let unicastRoutes' :=
    createUnicastRoutesWithBestNexthops U (unicastRoutes (routeDb_ s)) in
  let mplsRoutes' :=
    createMplsRoutesWithBestNextHops U (mplsRoutes (routeDb_ s)) in
  (* In dry run we just print the routes. No real action *)
  if dryrun_ C then (true, s)
  else
    let s := createFibClient s in
    let body : Try unit :=
      call agent (sync_syncFib unicastRoutes')
      ;;;
      when (enableSegmentRouting_ C)
           (call agent (sync_syncMplsFib mplsRoutes')) in
    match body (agentCalls s) with
    | (Some _, calls) =>
        (true, set_dirtyRouteDb (set_agentCalls s calls) false)
    | (None, calls) =>
        (false,
         set_client (set_dirtyRouteDb (set_agentCalls s calls) true) false)
    end.

(** The callback of [syncRoutesTimer_], run when the timer fires (the timer
    is then no longer scheduled).  [now] and [now'] are the readings of the
    steady clock in [reportError] and in [getTimeRemainingUntilRetry]. *)
Definition syncRoutesTimer_callback (agent : Agent) (now now' : Z) (s : t)
    : t :=
  let s := set_syncRoutesTimer s None in
  let '(success, s) := syncRouteDb agent s in
  if success
  then set_expBackoff s (ExponentialBackoff.reportSuccess (expBackoff_ s))
  else
    (* Apply exponential backoff and schedule next run *)
    let s := set_expBackoff s
               (ExponentialBackoff.reportError now (expBackoff_ s)) in
    set_syncRoutesTimer s
      (scheduleTimeout
         (ExponentialBackoff.getTimeRemainingUntilRetry now' (expBackoff_ s))).

(** The callback of the periodic [syncFibTimer_]. *)
Definition syncFibTimer_callback (agent : Agent) (s : t) : t :=
  if negb (isScheduled (syncRoutesTimer_ s))
  then snd (syncRouteDb agent s)     (* Trigger immediate run *)
  else s.

(** [Fib::keepAliveCheck]; [None] when the call to the agent throws. *)
Definition keepAliveCheck (agent : Agent) (s : t) : option unit * t :=
  let s := createFibClient s in
  match call agent sync_aliveSince (agentCalls s) with
  | (None, calls) => (None, set_agentCalls s calls)
  | (Some _, calls) =>
      let s := set_agentCalls s calls in
      let s :=
        if negb (aliveSince agent =? latestAliveSince_ s)
        then
          syncRouteDbDebounced
            (set_expBackoff (set_dirtyRouteDb s true)
               (ExponentialBackoff.reportSuccess (expBackoff_ s)))
        else s in
      (Some tt, set_latestAliveSince s (aliveSince agent))
  end.

(** The callback of [healthChecker_]. *)
Definition healthChecker_callback (agent : Agent) (s : t) : t :=
  match keepAliveCheck agent s with
  | (Some _, s) => s
  | (None, s) => set_client s false
  end.

(** [Fib::processRequestMsg]; [None] is a request that does not parse. *)
Definition processRequestMsg (request : option FibCommand) (s : t)
    : FibResponse :=
  match request with
  | None => Unexpected
  | Some ROUTE_DB_GET => RouteDbResponse (routeDb_ s)
  | Some PERF_DB_GET => PerfDbResponse
  | Some ROUTE_DB_UNINSTALLABLE_GET => RouteDbResponse (doNotInstallRouteDb_ s)
  | Some (OtherCommand _) => Unexpected
  end.

(** The loop of [processRouteDb] that removes the routes that should not be
    programmed: the routes that stay and the routes moved to
    [doNotInstallRouteDb], each in order. *)
Fixpoint removeDoNotInstall (rIter : list UnicastRoute.t)
    (doNotInstall : list UnicastRoute.t)
    : list UnicastRoute.t * list UnicastRoute.t :=
  match rIter with
  | [] => ([], doNotInstall)
  | r :: rest =>
      if UnicastRoute.doNotInstall r
      then removeDoNotInstall rest (doNotInstall ++ [r])
      else
        let '(kept, doNotInstall) := removeDoNotInstall rest doNotInstall in
        (r :: kept, doNotInstall)
  end.

(** [Fib::processRouteDb].  Returned with the state is the delta that was
    handed to [updateRoutes]. *)
Definition processRouteDb (agent : Agent) (newRouteDb : RouteDatabase)
    (s : t) : t * RouteDatabaseDelta :=
  let doNotInstallRouteDb := mk_RouteDatabase "" [] [] in
  (* remove routes that should not be programmed *)
  let '(kept, removed) :=
    removeDoNotInstall (unicastRoutes newRouteDb)
                       (unicastRoutes doNotInstallRouteDb) in
  let newRouteDb :=
    mk_RouteDatabase (thisNodeName newRouteDb) kept (mplsRoutes newRouteDb) in
  let doNotInstallRouteDb :=
    mk_RouteDatabase (thisNodeName doNotInstallRouteDb) removed
                     (mplsRoutes doNotInstallRouteDb) in
  (* Find out delta to be programmed *)
  let routeDelta := findDeltaRoutes U newRouteDb (routeDb_ s) in
  (* update new routeDb_ *)
  let s := set_routeDb s newRouteDb in
  let s := set_doNotInstallRouteDb s doNotInstallRouteDb in
  (* Send request to agent *)
  (updateRoutes agent routeDelta s, routeDelta).

(** The first loop of [processInterfaceDb]: the new interface status and the
    interfaces which were up before and are now reported down. *)
Fixpoint findAffectedInterfaces (kvs : list (string * InterfaceInfo))
    (interfaceStatusDb : gmap string bool) (affectedInterfaces : gset string)
    : gmap string bool * gset string :=
  match kvs with
  | [] => (interfaceStatusDb, affectedInterfaces)
  | (ifName, info) :: kvs' =>
      let isUp := isUp info in
      let wasUp := default false (interfaceStatusDb !! ifName) in
      let interfaceStatusDb := <[ifName := isUp]> interfaceStatusDb in
      let affectedInterfaces :=
        if wasUp && negb isUp then {[ifName]} ∪ affectedInterfaces
        else affectedInterfaces in
      findAffectedInterfaces kvs' interfaceStatusDb affectedInterfaces
  end.

(** Valid paths of a unicast route; [None] when the [CHECK] that every
    nexthop has an interface name fails, which aborts the process. *)
Fixpoint validNextHopsUnicast (affectedInterfaces : gset string)
    (nextHops : list NextHopThrift) : option (list NextHopThrift) :=
  match nextHops with
  | [] => Some []
  | nextHop :: rest =>
      match ifName (address nextHop) with
      | None => None
      | Some name =>
          match validNextHopsUnicast affectedInterfaces rest with
          | None => None
          | Some valid =>
              Some (if decide (name ∈ affectedInterfaces) then valid
                    else nextHop :: valid)
          end
      end
  end.

(** Valid paths of an MPLS route: there is no interface name for the
    [POP_AND_LOOKUP] action. *)
Fixpoint validNextHopsMpls (affectedInterfaces : gset string)
    (nextHops : list NextHopThrift) : list NextHopThrift :=
  match nextHops with
  | [] => []
  | nextHop :: rest =>
      let valid := validNextHopsMpls affectedInterfaces rest in
      match ifName (address nextHop) with
      | None => nextHop :: valid
      | Some name =>
          if decide (name ∈ affectedInterfaces) then valid
          else nextHop :: valid
      end
  end.

Definition add_unicastRoutesToUpdate (d : RouteDatabaseDelta)
    (r : UnicastRoute.t) : RouteDatabaseDelta :=
  mk_RouteDatabaseDelta (unicastRoutesToUpdate d ++ [r])
    (unicastRoutesToDelete d) (mplsRoutesToUpdate d) (mplsRoutesToDelete d).
Definition add_unicastRoutesToDelete (d : RouteDatabaseDelta)
    (p : IpPrefix) : RouteDatabaseDelta :=
  mk_RouteDatabaseDelta (unicastRoutesToUpdate d)
    (unicastRoutesToDelete d ++ [p]) (mplsRoutesToUpdate d)
    (mplsRoutesToDelete d).
Definition add_mplsRoutesToUpdate (d : RouteDatabaseDelta)
    (r : MplsRoute.t) : RouteDatabaseDelta :=
  mk_RouteDatabaseDelta (unicastRoutesToUpdate d) (unicastRoutesToDelete d)
    (mplsRoutesToUpdate d ++ [r]) (mplsRoutesToDelete d).
Definition add_mplsRoutesToDelete (d : RouteDatabaseDelta)
    (l : Z) : RouteDatabaseDelta :=
  mk_RouteDatabaseDelta (unicastRoutesToUpdate d) (unicastRoutesToDelete d)
    (mplsRoutesToUpdate d) (mplsRoutesToDelete d ++ [l]).

(** The loop of [processInterfaceDb] over [routeDb_.unicastRoutes]: the
    routes that stay, with their valid nexthops, and the delta. *)
Fixpoint filterUnicastRoutes (affectedInterfaces : gset string)
    (routes : list UnicastRoute.t) (routeDbDelta : RouteDatabaseDelta)
    : option (list UnicastRoute.t * RouteDatabaseDelta) :=
  match routes with
  | [] => Some ([], routeDbDelta)
  | it :: rest =>
      match validNextHopsUnicast affectedInterfaces (UnicastRoute.nextHops it)
      with
      | None => None
      | Some validNextHops =>
          let prevBestNextHops :=
            getBestNextHopsUnicast U (UnicastRoute.nextHops it) in
          let validBestNextHops := getBestNextHopsUnicast U validNextHops in
          (* Update valid nexthops *)
          let it := UnicastRoute.mk (UnicastRoute.dest it)
                      (UnicastRoute.doNotInstall it) validNextHops in
          let routeDbDelta :=
            if nonempty validBestNextHops
               && bool_decide (validBestNextHops <> prevBestNextHops)
            then add_unicastRoutesToUpdate routeDbDelta
                   (UnicastRoute.mk (UnicastRoute.dest it) false
                                    validBestNextHops)
            else routeDbDelta in
          (* Remove route if no valid paths *)
          if negb (nonempty (UnicastRoute.nextHops it))
          then filterUnicastRoutes affectedInterfaces rest
                 (add_unicastRoutesToDelete routeDbDelta
                    (UnicastRoute.dest it))
          else
            match filterUnicastRoutes affectedInterfaces rest routeDbDelta
            with
            | None => None
            | Some (rest', routeDbDelta) => Some (it :: rest', routeDbDelta)
            end
      end
  end.

(** The loop of [processInterfaceDb] over [routeDb_.mplsRoutes]. *)
Fixpoint filterMplsRoutes (affectedInterfaces : gset string)
    (routes : list MplsRoute.t) (routeDbDelta : RouteDatabaseDelta)
    : list MplsRoute.t * RouteDatabaseDelta :=
  match routes with
  | [] => ([], routeDbDelta)
  | it :: rest =>
      let validNextHops :=
        validNextHopsMpls affectedInterfaces (MplsRoute.nextHops it) in
      let prevBestNextHops := getBestNextHopsMpls U (MplsRoute.nextHops it) in
      let validBestNextHops := getBestNextHopsMpls U validNextHops in
      (* Update valid nexthops *)
      let it := MplsRoute.mk (MplsRoute.topLabel it) validNextHops in
      let routeDbDelta :=
        if nonempty validBestNextHops
           && bool_decide (validBestNextHops <> prevBestNextHops)
        then add_mplsRoutesToUpdate routeDbDelta
               (MplsRoute.mk (MplsRoute.topLabel it) validBestNextHops)
        else routeDbDelta in
      (* Remove route if no valid paths *)
      if negb (nonempty (MplsRoute.nextHops it))
      then filterMplsRoutes affectedInterfaces rest
             (add_mplsRoutesToDelete routeDbDelta (MplsRoute.topLabel it))
      else
        let '(rest', routeDbDelta) :=
          filterMplsRoutes affectedInterfaces rest routeDbDelta in
        (it :: rest', routeDbDelta)
  end.

(** [Fib::processInterfaceDb] up to the call of [updateRoutes]: the state and
    the delta it has built; [None] when a [CHECK] fails. *)
Definition filterRoutesByInterfaceDb (interfaceDb : InterfaceDatabase) (s : t)
    : option (t * RouteDatabaseDelta) :=
  (* Find interfaces which were up before and we detected them down *)
  let '(interfaceStatusDb, affectedInterfaces) :=
    findAffectedInterfaces (map_to_list (interfaces interfaceDb))
                           (interfaceStatusDb_ s) ∅ in
  let s := set_interfaceStatusDb s interfaceStatusDb in
  let routeDbDelta := mk_RouteDatabaseDelta [] [] [] [] in
  match filterUnicastRoutes affectedInterfaces (unicastRoutes (routeDb_ s))
                            routeDbDelta with
  | None => None
  | Some (unicastRoutes', routeDbDelta) =>
      let '(mplsRoutes', routeDbDelta) :=
        filterMplsRoutes affectedInterfaces (mplsRoutes (routeDb_ s))
                         routeDbDelta in
      Some (set_routeDb s (mk_RouteDatabase (thisNodeName (routeDb_ s))
                                            unicastRoutes' mplsRoutes'),
            routeDbDelta)
  end.

(** [Fib::processInterfaceDb] *)
Definition processInterfaceDb (agent : Agent) (interfaceDb : InterfaceDatabase)
    (s : t) : option t :=
  match filterRoutesByInterfaceDb interfaceDb s with
  | None => None
  | Some (s, routeDbDelta) => Some (updateRoutes agent routeDbDelta s)
  end.

(** The interfaces [processInterfaceDb] finds gone down. *)
Definition affectedInterfaces (interfaceDb : InterfaceDatabase) (s : t)
    : gset string :=
  snd (findAffectedInterfaces (map_to_list (interfaces interfaceDb))
                              (interfaceStatusDb_ s) ∅).

(** The callback of the decision subscription: a publication that cannot be
    read ([None]) or that comes from another node is dropped. *)
Definition decisionSub_callback (agent : Agent)
    (maybeThriftObj : option RouteDatabase) (s : t) : t :=
  match maybeThriftObj with
  | None => s
  | Some thriftRouteDb =>
      if decide (thisNodeName thriftRouteDb <> myNodeName_ C) then s
      else fst (processRouteDb agent thriftRouteDb s)
  end.

(** The callback of the link-monitor subscription, likewise; [None] as a
    result is the abort of a failed [CHECK]. *)
Definition linkMonSub_callback (agent : Agent)
    (maybeThriftObj : option InterfaceDatabase) (s : t) : option t :=
  match maybeThriftObj with
  | None => Some s
  | Some thriftInterfaceDb =>
      if decide (idb_thisNodeName thriftInterfaceDb <> myNodeName_ C)
      then Some s
      else processInterfaceDb agent thriftInterfaceDb s
  end.

(** *** The event loop

    The states the reconciler reaches from the constructor by the callbacks
    the event loop runs: the two subscriptions and the timers, of which the
    health check is scheduled only outside dry run and the periodic sync only
    with [enableFibSync_] outside dry run. *)
Inductive reachable : t -> Prop :=
  | reach_init : reachable init
  | reach_decisionSub (s : t) (agent : Agent)
      (publication : option RouteDatabase) :
      reachable s ->
      reachable (decisionSub_callback agent publication s)
  | reach_linkMonSub (s s' : t) (agent : Agent)
      (publication : option InterfaceDatabase) :
      reachable s ->
      linkMonSub_callback agent publication s = Some s' ->
      reachable s'
  | reach_syncRoutesTimer (s : t) (agent : Agent) (now now' : Z) :
      reachable s ->
      isScheduled (syncRoutesTimer_ s) = true ->
      now <= now' ->
      reachable (syncRoutesTimer_callback agent now now' s)
  | reach_healthChecker (s : t) (agent : Agent) :
      reachable s ->
      dryrun_ C = false ->
      reachable (healthChecker_callback agent s)
  | reach_syncFibTimer (s : t) (agent : Agent) :
      reachable s ->
      dryrun_ C = false ->
      enableFibSync_ C = true ->
      reachable (syncFibTimer_callback agent s).

End Reconciler.

(** *** Definitions used to state the properties of the reconciler *)

(** The nexthop goes through an interface of the set. *)
Definition onInterfaceOf (names : gset string) (nextHop : NextHopThrift)
    : Prop :=
  exists name, ifName (address nextHop) = Some name /\ name ∈ names.

#[global] Instance onInterfaceOf_dec (names : gset string)
    (nextHop : NextHopThrift) : Decision (onInterfaceOf names nextHop).
Proof.
  unfold onInterfaceOf. destruct (ifName (address nextHop)) as [name|].
  - destruct (decide (name ∈ names)) as [Hin|Hnin].
    + left. exists name. split; [reflexivity | exact Hin].
    + right. intros (n & Heq & Hn). injection Heq as <-. contradiction.
  - right. intros (n & Heq & _). discriminate.
Defined.

(** The nexthops that do not go through an interface of the set, in
    order. *)
Definition survivingNextHops (names : gset string)
    (nextHops : list NextHopThrift) : list NextHopThrift :=
  filter (fun nextHop => ~ onInterfaceOf names nextHop) nextHops.

(** The outcome of an [InterfaceDatabase] publication in the words of the
    specification, for the interfaces [names] that went down: the routes
    that stay are the routes with a surviving nexthop, restricted to their
    surviving nexthops; a route is deleted when no nexthop survives; a route
    is updated, with the best of its surviving nexthops, when that best list
    is not empty and differs from the best list of the nexthops it had. *)
Definition spec_unicastRoutesAfter (names : gset string)
    (routes : list UnicastRoute.t) : list UnicastRoute.t :=
  filter (fun r => UnicastRoute.nextHops r <> [])
    (map (fun r => UnicastRoute.mk (UnicastRoute.dest r)
                     (UnicastRoute.doNotInstall r)
                     (survivingNextHops names (UnicastRoute.nextHops r)))
         routes).

Definition spec_unicastRoutesToDelete (names : gset string)
    (routes : list UnicastRoute.t) : list IpPrefix :=
  map UnicastRoute.dest
    (filter (fun r => survivingNextHops names (UnicastRoute.nextHops r) = [])
            routes).

Definition spec_unicastRoutesToUpdate (U : Util) (names : gset string)
    (routes : list UnicastRoute.t) : list UnicastRoute.t :=
  map (fun r => UnicastRoute.mk (UnicastRoute.dest r) false
                  (getBestNextHopsUnicast U
                     (survivingNextHops names (UnicastRoute.nextHops r))))
    (filter (fun r =>
               getBestNextHopsUnicast U
                 (survivingNextHops names (UnicastRoute.nextHops r)) <> []
               /\
               getBestNextHopsUnicast U
                 (survivingNextHops names (UnicastRoute.nextHops r))
               <> getBestNextHopsUnicast U (UnicastRoute.nextHops r))
            routes).

Definition spec_mplsRoutesAfter (names : gset string)
    (routes : list MplsRoute.t) : list MplsRoute.t :=
  filter (fun r => MplsRoute.nextHops r <> [])
    (map (fun r => MplsRoute.mk (MplsRoute.topLabel r)
                     (survivingNextHops names (MplsRoute.nextHops r)))
         routes).

Definition spec_mplsRoutesToDelete (names : gset string)
    (routes : list MplsRoute.t) : list Z :=
  map MplsRoute.topLabel
    (filter (fun r => survivingNextHops names (MplsRoute.nextHops r) = [])
            routes).

Definition spec_mplsRoutesToUpdate (U : Util) (names : gset string)
    (routes : list MplsRoute.t) : list MplsRoute.t :=
  map (fun r => MplsRoute.mk (MplsRoute.topLabel r)
                  (getBestNextHopsMpls U
                     (survivingNextHops names (MplsRoute.nextHops r))))
    (filter (fun r =>
               getBestNextHopsMpls U
                 (survivingNextHops names (MplsRoute.nextHops r)) <> []
               /\
               getBestNextHopsMpls U
                 (survivingNextHops names (MplsRoute.nextHops r))
               <> getBestNextHopsMpls U (MplsRoute.nextHops r))
            routes).

(** Every nexthop of every unicast route names its interface: what the
    [CHECK] of [processInterfaceDb] demands. *)
Definition unicastNextHopsNamed (routes : list UnicastRoute.t) : Prop :=
  Forall (fun r => Forall (fun nextHop => is_Some (ifName (address nextHop)))
                          (UnicastRoute.nextHops r))
         routes.

(** What holds of every state the event loop reaches: in dry run the dirty
    flag is never set, and the backoff keeps the bounds the constructor gave
    it. *)
Definition invariant (C : Config) (s : t) : Prop :=
  (dryrun_ C = true -> dirtyRouteDb_ s = false) /\
  ExponentialBackoff.initialBackoff (expBackoff_ s) = 8 /\
  ExponentialBackoff.maxBackoff (expBackoff_ s) = 4096.

(** *** A reconciler to evaluate on *)

Definition sampleConfig : Config :=
  {| myNodeName_ := "node1"; dryrun_ := false; enableFibSync_ := true;
     enableSegmentRouting_ := true; coldStartDuration_ := 1000 |}.

(** A stand-in for the functions of Util.h: every nexthop counts as best, and
    the delta between two databases updates every route of the new one. *)
Definition sampleUtil : Util :=
  {| getBestNextHopsUnicast := fun nextHops => nextHops;
     getBestNextHopsMpls := fun nextHops => nextHops;
     findDeltaRoutes := fun newDb oldDb =>
       mk_RouteDatabaseDelta (unicastRoutes newDb) [] (mplsRoutes newDb) [];
     createUnicastRoutesWithBestNexthops := fun routes => routes;
     createMplsRoutesWithBestNextHops := fun routes => routes |}.

(** An agent that answers every call, and one that is down. *)
Definition agentUp : Agent := mk_Agent (fun _ => false) 1.
Definition agentDown : Agent := mk_Agent (fun _ => true) 1.

Definition nextHopEth0 : NextHopThrift :=
  mk_NextHopThrift (mk_BinaryAddress [192; 0; 2; 1] (Some "eth0")) 0 1.

Definition route10 : UnicastRoute.t :=
  UnicastRoute.mk (mk_IpPrefix [10; 0; 0; 0] 24) false [nextHopEth0].

Definition hiddenRoute : UnicastRoute.t :=
  UnicastRoute.mk (mk_IpPrefix [10; 1; 0; 0] 24) true [nextHopEth0].

Definition eth0Up : InterfaceDatabase :=
  mk_InterfaceDatabase "node1" {[ "eth0" := mk_InterfaceInfo true 3 ]}.
Definition eth0Down : InterfaceDatabase :=
  mk_InterfaceDatabase "node1" {[ "eth0" := mk_InterfaceInfo false 3 ]}.

(** After the constructor: [eth0] is reported up, then decision publishes
    [route10]; the cold-start sync is still pending. *)
Definition stateWithRoute : option t :=
  match linkMonSub_callback sampleConfig sampleUtil agentUp (Some eth0Up)
                            (init sampleConfig) with
  | None => None
  | Some s =>
      Some (decisionSub_callback sampleConfig sampleUtil agentUp
              (Some (mk_RouteDatabase "node1" [route10] [])) s)
  end.

(** The same state, written out. *)
Definition stateRoute10 : t :=
  {| routeDb_ := mk_RouteDatabase "node1" [route10] [];
     doNotInstallRouteDb_ := mk_RouteDatabase "" [] [];
     interfaceStatusDb_ := {[ "eth0" := true ]};
     dirtyRouteDb_ := false;
     syncRoutesTimer_ := Some 1000;
     expBackoff_ := ExponentialBackoff.make 8 4096;
     client_ := false;
     latestAliveSince_ := 0;
     agentCalls := [] |}.

(** After the constructor: decision publishes [route10] before any interface
    has been reported. *)
Definition stateBeforeFirstReport : t :=
  decisionSub_callback sampleConfig sampleUtil agentUp
    (Some (mk_RouteDatabase "node1" [route10] [])) (init sampleConfig).

(** After the constructor: the cold-start sync has run and succeeded. *)
Definition stateSynced : t :=
  syncRoutesTimer_callback sampleConfig sampleUtil agentUp 0 0
                           (init sampleConfig).

(** The same configuration in dry run. *)
Definition dryrunConfig : Config :=
  {| myNodeName_ := "node1"; dryrun_ := true; enableFibSync_ := true;
     enableSegmentRouting_ := true; coldStartDuration_ := 1000 |}.

End Fib.

(** ** Persistent store (openr/config-store/PersistentStore.cpp) *)

Module PersistentStore.

Inductive StoreRequestType :=
  | STORE
  | LOAD
  | ERASE
  | OtherRequest (code : Z).   (* an enum value outside the three cases *)

#[global] Instance StoreRequestType_eq_dec : EqDecision StoreRequestType.
Proof. solve_decision. Defined.

Record StoreRequest := mk_StoreRequest {
  requestType : StoreRequestType;
  req_key : string;
  req_data : string;
}.

Record StoreResponse := mk_StoreResponse {
  success : bool;
  key : string;
  data : string;
}.

Record StoreDatabase := mk_StoreDatabase {
  keyVals : gmap string string;
}.

(** The store.  [saveDbTimerBackoff_] is [None] when the constructor was
    given no backoff; only otherwise does the timer [saveDbTimer_] exist,
    [Some d] meaning that it is scheduled to fire [d] ms from now.  [disk] is
    the content of the storage file, and [saves] lists, for every run of
    [saveDatabaseToDisk], the database it was to write. *)
Record t := mk {
  database_ : StoreDatabase;
  dryrun_ : bool;
  saveDbTimerBackoff_ : option ExponentialBackoff.t;
  saveDbTimer_ : option Z;
  numOfWritesToDisk_ : Z;
  disk : option StoreDatabase;
  saves : list StoreDatabase;
}.

Definition set_database (s : t) (v : StoreDatabase) : t :=
  mk v (dryrun_ s) (saveDbTimerBackoff_ s) (saveDbTimer_ s)
     (numOfWritesToDisk_ s) (disk s) (saves s).
Definition set_saveDbTimerBackoff (s : t) (v : option ExponentialBackoff.t)
    : t :=
  mk (database_ s) (dryrun_ s) v (saveDbTimer_ s) (numOfWritesToDisk_ s)
     (disk s) (saves s).
Definition set_saveDbTimer (s : t) (v : option Z) : t :=
  mk (database_ s) (dryrun_ s) (saveDbTimerBackoff_ s) v
     (numOfWritesToDisk_ s) (disk s) (saves s).

(** [PersistentStore::saveDatabaseToDisk]; [writeThrows] tells whether
    [folly::writeFileAtomic] throws. *)
Definition saveDatabaseToDisk (writeThrows : bool) (s : t) : bool * t :=
  let s := mk (database_ s) (dryrun_ s) (saveDbTimerBackoff_ s)
              (saveDbTimer_ s) (numOfWritesToDisk_ s) (disk s)
              (saves s ++ [database_ s]) in
  if negb (dryrun_ s)
  then
    if writeThrows then (false, s)
    else
      (true,
       mk (database_ s) (dryrun_ s) (saveDbTimerBackoff_ s) (saveDbTimer_ s)
          (numOfWritesToDisk_ s + 1) (Some (database_ s)) (saves s))
  else
    (true,
     mk (database_ s) (dryrun_ s) (saveDbTimerBackoff_ s) (saveDbTimer_ s)
        (numOfWritesToDisk_ s + 1) (disk s) (saves s)).

(** The callback of [saveDbTimer_], run when the timer fires. *)
Definition saveDbTimer_callback (writeThrows : bool) (now now' : Z) (s : t)
    : t :=
  let s := set_saveDbTimer s None in
  let '(saved, s) := saveDatabaseToDisk writeThrows s in
  match saveDbTimerBackoff_ s with
  | None => s
  | Some backoff =>
      if saved
      then set_saveDbTimerBackoff s
             (Some (ExponentialBackoff.reportSuccess backoff))
      else
        (* Report error and schedule next-try *)
        let backoff := ExponentialBackoff.reportError now backoff in
        set_saveDbTimer (set_saveDbTimerBackoff s (Some backoff))
          (Some (ExponentialBackoff.getTimeRemainingUntilRetry now' backoff))
  end.

(** [PersistentStore::processRequestMsg]; [None] is a request that does not
    parse, [now] the reading of the steady clock. *)
Definition processRequestMsg (writeThrows : bool) (now : Z)
    (requestMsg : option StoreRequest) (s : t) : StoreResponse * t :=
  match requestMsg with
  | None => (mk_StoreResponse false "" "", s)
  | Some request =>
      (* Generate response *)
      let '(response, s) :=
        match requestType request with
        | STORE =>
            (* Override previous value if any *)
            (mk_StoreResponse true (req_key request) "",
             set_database s
               (mk_StoreDatabase
                  (<[req_key request := req_data request]>
                     (keyVals (database_ s)))))
        | LOAD =>
            match keyVals (database_ s) !! req_key request with
            | Some value => (mk_StoreResponse true (req_key request) value, s)
            | None => (mk_StoreResponse false (req_key request) "", s)
            end
        | ERASE =>
            (mk_StoreResponse
               (bool_decide (is_Some (keyVals (database_ s)
                                        !! req_key request)))
               (req_key request) "",
             set_database s
               (mk_StoreDatabase
                  (delete (req_key request) (keyVals (database_ s)))))
        | OtherRequest _ => (mk_StoreResponse false (req_key request) "", s)
        end in
      (* Schedule database save *)
      let s :=
        if success response
           && negb (bool_decide (requestType request = LOAD))
        then
          match saveDbTimerBackoff_ s with
          | None => snd (saveDatabaseToDisk writeThrows s)
          | Some backoff =>
              match saveDbTimer_ s with
              | None =>
                  set_saveDbTimer s
                    (Some (ExponentialBackoff.getTimeRemainingUntilRetry
                             now backoff))
              | Some _ => s
              end
          end
        else s in
      (response, s)
  end.

(** Stores to evaluate on: one with a debounced save (backoff 100 ms to
    5000 ms), one that saves at once; both hold the key ["k"]. *)
Definition debouncedStore : t :=
  {| database_ := mk_StoreDatabase {[ "k" := "v" ]};
     dryrun_ := false;
     saveDbTimerBackoff_ := Some (ExponentialBackoff.make 100 5000);
     saveDbTimer_ := None;
     numOfWritesToDisk_ := 0;
     disk := None;
     saves := [] |}.

Definition immediateStore : t :=
  {| database_ := mk_StoreDatabase {[ "k" := "v" ]};
     dryrun_ := false;
     saveDbTimerBackoff_ := None;
     saveDbTimer_ := None;
     numOfWritesToDisk_ := 0;
     disk := None;
     saves := [] |}.

(** [PersistentStore::loadDatabaseFromDisk].  The storage file holds the
    database that was serialised into it, or does not exist ([None]);
    [readFails] tells whether [folly::readFile] fails and [decodeThrows]
    whether deserialising the file content throws. *)
Definition loadDatabaseFromDisk (readFails decodeThrows : bool) (s : t)
    : bool * t :=
  match disk s with
  | None => (true, s)     (* Starting with empty database *)
  | Some newDatabase =>
      if readFails then (false, s)
      else if decodeThrows then (false, s)
      else (true, set_database s newDatabase)
  end.

(** The constructor [PersistentStore::PersistentStore] over the storage file
    [file]: the backoff, and with it the timer, exist only if a backoff is
    requested; a database that fails to load is reported and the store goes
    on with the empty one. *)
Definition construct (saveInitialBackoff saveMaxBackoff : Z) (dryrun : bool)
    (file : option StoreDatabase) (readFails decodeThrows : bool) : t :=
  let s :=
    {| database_ := mk_StoreDatabase ∅;
       dryrun_ := dryrun;
       saveDbTimerBackoff_ :=
         if negb (saveInitialBackoff =? 0) || negb (saveMaxBackoff =? 0)
         then Some (ExponentialBackoff.make saveInitialBackoff saveMaxBackoff)
         else None;
       saveDbTimer_ := None;
       numOfWritesToDisk_ := 0;
       disk := file;
       saves := [] |} in
  snd (loadDatabaseFromDisk readFails decodeThrows s).

(** The destructor: a last [saveDatabaseToDisk]. *)
Definition destroy (writeThrows : bool) (s : t) : t :=
  snd (saveDatabaseToDisk writeThrows s).

(** The event loop handing requests to [processRequestMsg] one after the
    other; each request comes with what the environment decides while it is
    handled: whether a write of the file throws, and the reading of the
    clock. *)
Fixpoint processRequestMsgs
    (requests : list (bool * Z * option StoreRequest)) (s : t) : t :=
  match requests with
  | [] => s
  | (writeThrows, now, requestMsg) :: rest =>
      processRequestMsgs rest
        (snd (processRequestMsg writeThrows now requestMsg s))
  end.

End PersistentStore.
(** * Properties *)

(** ** The monad *)

Lemma outcome_bind {A B} (m : M A) (k : A -> M B) :
  outcome (bind m k) =
  match outcome m with
  | Returned a => outcome (k a)
  | Threw e => Threw e
  end.
Proof.
  destruct m as [[a|e] l]; simpl; [|reflexivity].
  unfold outcome. destruct (k a); reflexivity.
Qed.

Lemma outcome_bind_ext {A B} (m m' : M A) (k k' : A -> M B) :
  outcome m = outcome m' ->
  (forall a, outcome (k a) = outcome (k' a)) ->
  outcome (bind m k) = outcome (bind m' k').
Proof.
  intros Hm Hk. rewrite !outcome_bind, Hm.
  destruct (outcome m'); [apply Hk | reflexivity].
Qed.

Lemma outcome_ret {A} (a : A) : outcome (ret a) = Returned a.
Proof. reflexivity. Qed.


(** ** Netlink route encoder *)

Section NetlinkProperties.

Import Netlink.

Variable P : Platform.

Lemma RTA_ALIGN_eq (x : Z) : RTA_ALIGN x = 4 * ((x + 3) / 4).
Proof.
  unfold RTA_ALIGN.
  change (Z.lnot 3) with (Z.lnot (Z.ones 2)).
  rewrite <- Z.ldiff_land, Z.ldiff_ones_r by lia.
  rewrite Z.shiftr_div_pow2, Z.shiftl_mul_pow2 by lia.
  change (2 ^ 2) with 4. lia.
Qed.

Lemma NLMSG_ALIGN_eq (x : Z) : NLMSG_ALIGN x = 4 * ((x + 3) / 4).
Proof. apply RTA_ALIGN_eq. Qed.

Lemma RTA_ALIGN_aligned (k : Z) : RTA_ALIGN (4 * k) = 4 * k.
Proof. rewrite RTA_ALIGN_eq. Z.div_mod_to_equations. lia. Qed.

Lemma encodeLabel_eq (label : Z) (bos : bool) :
  encodeLabel P label bos =
  if label >? 0xFFFFF
  then (Returned (packLabel P 0 bos), [LOG_ERROR "Invalid label 0x" [label]])
  else (Returned (packLabel P label bos), []).
Proof.
  unfold encodeLabel, packLabel.
  destruct (label >? 0xFFFFF); reflexivity.
Qed.

Lemma encodeLabel_outcome (label : Z) (bos : bool) :
  outcome (encodeLabel P label bos) =
  Returned (packLabel P (clampLabel label) bos).
Proof.
  rewrite encodeLabel_eq. unfold clampLabel.
  destruct (label >? 0xFFFFF); reflexivity.
Qed.






Create Rewrite HintDb align.
#[local] Hint Rewrite NLMSG_ALIGN_eq RTA_ALIGN_eq : align.







(** *** Out-of-range labels *)

Lemma clampLabel_idemp (l : Z) : clampLabel (clampLabel l) = clampLabel l.
Proof.
  unfold clampLabel. destruct (Z.gtb_spec l 0xFFFFF); [reflexivity|].
  destruct (Z.gtb_spec l 0xFFFFF); [lia | reflexivity].
Qed.

Lemma encodeLabel_clamp (l : Z) (bos : bool) :
  outcome (encodeLabel P l bos) = outcome (encodeLabel P (clampLabel l) bos).
Proof. by rewrite !encodeLabel_outcome, clampLabel_idemp. Qed.

Lemma pushLabels_clamp (labels : list Z) : forall size i arr,
  outcome (pushLabels P labels size i arr) =
  outcome (pushLabels P (map clampLabel labels) size i arr).
Proof.
  induction labels as [|l ls IH]; intros size i arr; [reflexivity|].
  cbn [pushLabels map]. apply outcome_bind_ext.
  - apply encodeLabel_clamp.
  - intros e. destruct (i <? kMaxLabels P); [apply IH | reflexivity].
Qed.

(** One step of a proof that two computations have the same outcome. *)
Ltac same_outcome :=
  repeat first
    [ reflexivity
    | apply encodeLabel_clamp
    | apply pushLabels_clamp
    | apply outcome_bind_ext; [| intros ?]
    | match goal with
      | |- outcome (let '(_, _) := ?r in _) = _ => destruct r
      | |- outcome (match ?o with Some _ => _ | None => _ end) = _ =>
          destruct o
      | |- outcome (if ?b then _ else _) = _ => destruct b
      end ].

Lemma addLabelNexthop_clamp (rta : NhopBuf) (rtnh : rtnexthop)
    (path : NextHop.t) :
  outcome (addLabelNexthop P rta rtnh path) =
  outcome (addLabelNexthop P rta rtnh (clampNextHop path)).
Proof.
  unfold addLabelNexthop. destruct path as [ifx gw act sw push fam].
  cbn [clampNextHop NextHop.getIfIndex NextHop.getGateway
       NextHop.getPushLabels option_map].
  destruct push as [labels|]; cbn [option_map]; [|reflexivity].
  rewrite length_map.
  same_outcome.
Qed.

Lemma addSwapOrPHPNexthop_clamp (rta : NhopBuf) (rtnh : rtnexthop)
    (path : NextHop.t) :
  outcome (addSwapOrPHPNexthop P rta rtnh path) =
  outcome (addSwapOrPHPNexthop P rta rtnh (clampNextHop path)).
Proof.
  unfold addSwapOrPHPNexthop. destruct path as [ifx gw act sw push fam].
  cbn [clampNextHop NextHop.getIfIndex NextHop.getGateway NextHop.getFamily
       NextHop.getSwapLabel option_map].
  destruct sw as [l|]; cbn [option_map]; [|reflexivity].
  same_outcome.
Qed.

Lemma addMultiPathNexthop_loop_clamp (route : Route.t)
    (paths : list NextHop.t) : forall rta rtnhs result,
  outcome (addMultiPathNexthop_loop P route paths rta rtnhs result) =
  outcome (addMultiPathNexthop_loop P (clampRoute route)
             (map clampNextHop paths) rta rtnhs result).
Proof.
  induction paths as [|path paths IH]; intros rta rtnhs result;
    [reflexivity|].
  cbn [addMultiPathNexthop_loop map].
  change (NextHop.getLabelAction (clampNextHop path))
    with (NextHop.getLabelAction path).
  destruct (NextHop.getLabelAction path) as [[| | | |code]|];
    try reflexivity;
    (apply outcome_bind_ext;
     [ first [ apply addLabelNexthop_clamp | apply addSwapOrPHPNexthop_clamp
             | reflexivity ]
     | intros [[code rta'] rtnh'];
       destruct (decide (code = SUCCESS)); [apply IH | reflexivity] ]).
Qed.

Lemma addNextHops_clamp (route : Route.t) (msg : NlMsg) :
  outcome (addNextHops P route msg) =
  outcome (addNextHops P (clampRoute route) msg).
Proof.
  unfold addNextHops, addMultiPathNexthop.
  cbn [clampRoute Route.getNextHops].
  destruct (Route.getNextHops route) as [|path paths] eqn:Hp;
    [reflexivity|].
  cbn [map]. apply outcome_bind_ext.
  - rewrite (addMultiPathNexthop_loop_clamp route (path :: paths)).
    reflexivity.
  - intros [[status nhop] rtnhs]. reflexivity.
Qed.

Lemma addLabelRoute_clamp (route : Route.t) (msg : NlMsg) :
  outcome (addLabelRoute P route msg) =
  outcome (addLabelRoute P (clampRoute route) msg).
Proof.
  unfold addLabelRoute.
  change (init RTM_NEWROUTE 0 (clampRoute route) msg)
    with (init RTM_NEWROUTE 0 route msg).
  change (Route.getFamily (clampRoute route)) with (Route.getFamily route).
  change (Route.getMplsLabel (clampRoute route))
    with (option_map clampLabel (Route.getMplsLabel route)).
  destruct (negb (Route.getFamily route =? AF_MPLS)); [reflexivity|].
  destruct (Route.getMplsLabel route) as [l|]; cbn [option_map];
    [|reflexivity].
  apply outcome_bind_ext; [apply encodeLabel_clamp|]. intros e.
  apply outcome_bind_ext; [reflexivity|]. intros [status m].
  destruct (decide (status = SUCCESS)); [apply addNextHops_clamp|reflexivity].
Qed.

Lemma addRoute_clamp (route : Route.t) (msg : NlMsg) :
  outcome (addRoute P route msg) = outcome (addRoute P (clampRoute route) msg).
Proof.
  unfold addRoute.
  change (Route.getDestination (clampRoute route))
    with (Route.getDestination route).
  change (Route.getFamily (clampRoute route)) with (Route.getFamily route).
  destruct (Route.getDestination route) as [ip plen].
  destruct (negb (Route.getFamily route =? AF_INET)
            && negb (Route.getFamily route =? AF_INET6)); [reflexivity|].
  change (init RTM_NEWROUTE RTM_F_NOTIFY (clampRoute route) msg)
    with (init RTM_NEWROUTE RTM_F_NOTIFY route msg).
  apply outcome_bind_ext; [reflexivity|]. intros [status m].
  destruct (decide (status = SUCCESS)); [apply addNextHops_clamp|reflexivity].
Qed.

(** C1, as the code has it.  A label above [0xFFFFF] is replaced by zero and
    one error line is logged; nothing else marks the condition.  Every encode
    ([addRoute], [addLabelRoute], [addLabelNexthop], [addSwapOrPHPNexthop])
    returns for such a route or nexthop exactly the result code and buffers
    it returns once every out-of-range label is replaced by zero: no result
    code reports the out-of-range label. *)
Theorem out_of_range_label_clamped_not_reported :
  (forall l : Z,
     clampLabel l <= 0xFFFFF /\
     (l <= 0xFFFFF -> clampLabel l = l) /\
     (0xFFFFF < l -> clampLabel l = 0)) /\
  (forall (l : Z) (bos : bool),
     0xFFFFF < l ->
     encodeLabel P l bos =
     (outcome (encodeLabel P 0 bos), [LOG_ERROR "Invalid label 0x" [l]])) /\
  (forall (route : Route.t) (msg : NlMsg),
     outcome (addRoute P route msg)
       = outcome (addRoute P (clampRoute route) msg) /\
     outcome (addLabelRoute P route msg)
       = outcome (addLabelRoute P (clampRoute route) msg)) /\
  (forall (rta : NhopBuf) (rtnh : rtnexthop) (path : NextHop.t),
     outcome (addLabelNexthop P rta rtnh path)
       = outcome (addLabelNexthop P rta rtnh (clampNextHop path)) /\
     outcome (addSwapOrPHPNexthop P rta rtnh path)
       = outcome (addSwapOrPHPNexthop P rta rtnh (clampNextHop path))).
Proof.
  split; [|split; [|split]].
  - intros l. unfold clampLabel.
    destruct (Z.gtb_spec l 0xFFFFF); repeat split; intros; lia.
  - intros l bos Hl. rewrite !encodeLabel_eq.
    destruct (Z.gtb_spec l 0xFFFFF); [reflexivity | lia].
  - intros route msg. split; [apply addRoute_clamp | apply addLabelRoute_clamp].
  - intros rta rtnh path.
    split; [apply addLabelNexthop_clamp | apply addSwapOrPHPNexthop_clamp].
Qed.

End NetlinkProperties.

(** C1 as stated fails: the encode of an MPLS route whose label is
    [0x100000] returns [SUCCESS]; the label is encoded as label 0 with the
    bottom-of-stack bit, and the only trace of the condition is the log
    line. *)
Lemma addLabelRoute_out_of_range_label_succeeds :
  Netlink.Route.getMplsLabel Netlink.badLabelRoute = Some 0x100000 /\
  2 ^ 20 <= 0x100000 /\
  exists msg : Netlink.NlMsg,
    Netlink.addLabelRoute Netlink.linuxHost Netlink.badLabelRoute
                          Netlink.emptyMsg
    = (Returned (Netlink.SUCCESS, msg),
       [LOG_ERROR "Invalid label 0x" [0x100000]]) /\
    Netlink.attrs msg =
      [Netlink.mk_nlattr 8 Netlink.RTA_DST
         (Netlink.MP_data (Netlink.P_labels [0x00010000]))].
Proof.
  split; [reflexivity|]. split; [lia|].
  eexists. split; vm_compute; reflexivity.
Qed.

(** The label [0x100000] on a little-endian host: one log line, the entry of
    label 0. *)
Lemma out_of_range_label_clamped_not_reported_witness :
  0xFFFFF < 0x100000 /\
  Netlink.encodeLabel Netlink.linuxHost 0x100000 true =
  (outcome (Netlink.encodeLabel Netlink.linuxHost 0 true),
   [LOG_ERROR "Invalid label 0x" [0x100000]]).
Proof.
  split; [lia|].
  apply (out_of_range_label_clamped_not_reported Netlink.linuxHost). lia.
Defined.






(** ** FIB reconciler *)

Section FibProperties.

Import Fib.

Variable C : Config.
Variable U : Util.

(** *** What [updateRoutes] and [syncRouteDb] leave alone *)

Lemma syncRouteDbDebounced_frame (s : t) :
  routeDb_ (syncRouteDbDebounced s) = routeDb_ s /\
  doNotInstallRouteDb_ (syncRouteDbDebounced s) = doNotInstallRouteDb_ s /\
  interfaceStatusDb_ (syncRouteDbDebounced s) = interfaceStatusDb_ s /\
  dirtyRouteDb_ (syncRouteDbDebounced s) = dirtyRouteDb_ s /\
  expBackoff_ (syncRouteDbDebounced s) = expBackoff_ s /\
  agentCalls (syncRouteDbDebounced s) = agentCalls s.
Proof.
  unfold syncRouteDbDebounced.
  destruct (negb (isScheduled (syncRoutesTimer_ s))); repeat split.
Qed.

Lemma updateRoutes_frame (agent : Agent) (d : RouteDatabaseDelta) (s : t) :
  routeDb_ (updateRoutes C U agent d s) = routeDb_ s /\
  doNotInstallRouteDb_ (updateRoutes C U agent d s) = doNotInstallRouteDb_ s /\
  interfaceStatusDb_ (updateRoutes C U agent d s) = interfaceStatusDb_ s /\
  expBackoff_ (updateRoutes C U agent d s) = expBackoff_ s.
Proof.
  unfold updateRoutes.
  destruct (dryrun_ C); [done|].
  destruct (isScheduled (syncRoutesTimer_ s)); [done|].
  destruct (dirtyRouteDb_ s).
  { destruct (syncRouteDbDebounced_frame s) as (? & ? & ? & ? & ? & ?).
    done. }
  match goal with |- context [match ?b ?c with _ => _ end] =>
    destruct (b c) as [[[]|] calls] end.
  - done.
  - match goal with |- context [syncRouteDbDebounced ?x] =>
      destruct (syncRouteDbDebounced_frame x) as (-> & -> & -> & _ & -> & _)
    end. done.
Qed.

Lemma syncRouteDb_frame (agent : Agent) (s : t) :
  routeDb_ (snd (syncRouteDb C U agent s)) = routeDb_ s /\
  doNotInstallRouteDb_ (snd (syncRouteDb C U agent s))
    = doNotInstallRouteDb_ s /\
  interfaceStatusDb_ (snd (syncRouteDb C U agent s)) = interfaceStatusDb_ s /\
  expBackoff_ (snd (syncRouteDb C U agent s)) = expBackoff_ s /\
  syncRoutesTimer_ (snd (syncRouteDb C U agent s)) = syncRoutesTimer_ s.
Proof.
  unfold syncRouteDb. destruct (dryrun_ C); [done|].
  match goal with |- context [match ?b ?c with _ => _ end] =>
    destruct (b c) as [[[]|] calls] end; done.
Qed.

(** *** Ingestion of a route database *)

Lemma removeDoNotInstall_partition (rs : list UnicastRoute.t) :
  forall acc : list UnicastRoute.t,
    removeDoNotInstall rs acc =
    (filter (fun r => UnicastRoute.doNotInstall r = false) rs,
     acc ++ filter (fun r => UnicastRoute.doNotInstall r = true) rs).
Proof.
  induction rs as [|r rs IH]; intros acc.
  - by rewrite !filter_nil, app_nil_r.
  - cbn [removeDoNotInstall]. rewrite !filter_cons.
    destruct (UnicastRoute.doNotInstall r) eqn:Hr.
    + rewrite IH. repeat case_decide; try congruence.
      by rewrite <- app_assoc.
    + rewrite IH. repeat case_decide; congruence.
Qed.

(** C7.  [processRouteDb] moves every unicast route that carries
    [doNotInstall] out of the snapshot before the delta is computed: the
    delta handed to [updateRoutes] is the one between the installable routes
    of the snapshot and the previous route DB; afterwards the in-memory route
    DB holds the installable routes only (in snapshot order),
    [ROUTE_DB_GET] returns them, and [ROUTE_DB_UNINSTALLABLE_GET] returns
    exactly the routes that were partitioned off. *)
Theorem processRouteDb_partitions_doNotInstall :
  forall (agent : Agent) (newRouteDb : RouteDatabase) (s : t),
    let installable :=
      filter (fun r => UnicastRoute.doNotInstall r = false)
             (unicastRoutes newRouteDb) in
    let uninstallable :=
      filter (fun r => UnicastRoute.doNotInstall r = true)
             (unicastRoutes newRouteDb) in
    let s' := fst (processRouteDb C U agent newRouteDb s) in
    let delta := snd (processRouteDb C U agent newRouteDb s) in
    delta = findDeltaRoutes U
              (mk_RouteDatabase (thisNodeName newRouteDb) installable
                                (mplsRoutes newRouteDb))
              (routeDb_ s) /\
    routeDb_ s' = mk_RouteDatabase (thisNodeName newRouteDb) installable
                                   (mplsRoutes newRouteDb) /\
    Forall (fun r => UnicastRoute.doNotInstall r = false)
           (unicastRoutes (routeDb_ s')) /\
    unicastRoutes (doNotInstallRouteDb_ s') = uninstallable /\
    Forall (fun r => UnicastRoute.doNotInstall r = true)
           (unicastRoutes (doNotInstallRouteDb_ s')) /\
    (forall r, r ∈ unicastRoutes newRouteDb <->
               r ∈ unicastRoutes (routeDb_ s')
               \/ r ∈ unicastRoutes (doNotInstallRouteDb_ s')) /\
    processRequestMsg (Some ROUTE_DB_GET) s' = RouteDbResponse (routeDb_ s') /\
    processRequestMsg (Some ROUTE_DB_UNINSTALLABLE_GET) s'
      = RouteDbResponse (mk_RouteDatabase "" uninstallable []).
Proof.
  intros agent newRouteDb s installable uninstallable s' delta.
  subst s' delta. unfold processRouteDb.
  rewrite removeDoNotInstall_partition. cbn [unicastRoutes app fst snd].
  fold installable. fold uninstallable.
  match goal with |- context [updateRoutes C U agent ?d ?x] =>
    destruct (updateRoutes_frame agent d x) as (Hr & Hd & _ & _);
    set (s' := updateRoutes C U agent d x) in *
  end.
  cbn in Hr, Hd.
  split; [reflexivity|]. split; [exact Hr|].
  split.
  { rewrite Hr. cbn. subst installable. apply Forall_forall.
    intros r Hin. by apply list_elem_of_filter in Hin as [? _]. }
  split; [by rewrite Hd|].
  split.
  { rewrite Hd. cbn. subst uninstallable. apply Forall_forall.
    intros r Hin. by apply list_elem_of_filter in Hin as [? _]. }
  split.
  { intros r. rewrite Hr, Hd. cbn. subst installable uninstallable.
    rewrite !list_elem_of_filter.
    destruct (UnicastRoute.doNotInstall r); intuition congruence. }
  split; [reflexivity|].
  cbn [processRequestMsg]. by rewrite Hd.
Qed.

(** *** Calls to the agent *)

Lemma attempted_app (agent : Agent) (cs1 cs2 : list AgentCall) :
  attempted agent (cs1 ++ cs2) =
  if allSucceed agent cs1 then cs1 ++ attempted agent cs2
  else attempted agent cs1.
Proof.
  induction cs1 as [|c cs1 IH]; [reflexivity|].
  cbn [app attempted allSucceed forallb]. fold (allSucceed agent cs1).
  destruct (throws agent c); cbn [negb andb]; [reflexivity|].
  rewrite IH. by destruct (allSucceed agent cs1).
Qed.

Lemma allSucceed_app (agent : Agent) (cs1 cs2 : list AgentCall) :
  allSucceed agent (cs1 ++ cs2) = allSucceed agent cs1 && allSucceed agent cs2.
Proof. apply forallb_app. Qed.

Lemma attempted_prefix (agent : Agent) (cs : list AgentCall) :
  attempted agent cs `prefix_of` cs.
Proof.
  induction cs as [|c cs IH]; [done|].
  cbn [attempted]. apply prefix_cons.
  destruct (throws agent c); [apply prefix_nil | exact IH].
Qed.

Lemma attempted_allSucceed (agent : Agent) (cs : list AgentCall) :
  allSucceed agent cs = true -> attempted agent cs = cs.
Proof.
  induction cs as [|c cs IH]; [done|].
  cbn [attempted allSucceed forallb]. fold (allSucceed agent cs).
  destruct (throws agent c); cbn [negb andb]; [done|].
  intros H. by rewrite IH.
Qed.

Lemma issues_call (agent : Agent) (c : AgentCall) :
  issues agent (call agent c) [c].
Proof.
  intros calls. unfold call. cbn [allSucceed forallb attempted].
  by destruct (throws agent c).
Qed.

Lemma issues_when (agent : Agent) (b : bool) (m : Try unit)
    (cs : list AgentCall) :
  issues agent m cs -> issues agent (when b m) (if b then cs else []).
Proof.
  intros Hm calls. destruct b; [apply Hm|].
  cbn. by rewrite app_nil_r.
Qed.

Lemma issues_seq (agent : Agent) (m1 m2 : Try unit)
    (cs1 cs2 : list AgentCall) :
  issues agent m1 cs1 -> issues agent m2 cs2 ->
  issues agent (m1 ;;; m2) (cs1 ++ cs2).
Proof.
  intros H1 H2 calls. unfold try_bind. rewrite H1.
  rewrite allSucceed_app, attempted_app.
  destruct (allSucceed agent cs1) eqn:Hok; cbn [andb]; [|reflexivity].
  rewrite H2, (attempted_allSucceed agent cs1 Hok). by rewrite app_assoc.
Qed.

(** C6.  Outside dry run, [updateRoutes] on a delta: with the full-sync timer
    scheduled it changes nothing and calls nothing; otherwise with the dirty
    flag set it calls nothing and schedules the full sync at once (timeout
    0); otherwise the calls it means to make are, in this order,
    [deleteUnicastRoutes] and [addUnicastRoutes], then with segment routing
    [deleteMplsRoutes] and [addMplsRoutes] (each only for a non-empty list),
    and what it issues is that sequence up to and including the first call
    that throws. *)
Theorem updateRoutes_skips_or_deletes_before_adds :
  forall (agent : Agent) (delta : RouteDatabaseDelta) (s : t),
    dryrun_ C = false ->
    let s' := updateRoutes C U agent delta s in
    let del := sync_deleteUnicastRoutes (unicastRoutesToDelete delta) in
    let add := sync_addUnicastRoutes
                 (createUnicastRoutesWithBestNexthops U
                    (unicastRoutesToUpdate delta)) in
    let mdel := sync_deleteMplsRoutes (mplsRoutesToDelete delta) in
    let madd := sync_addMplsRoutes
                  (createMplsRoutesWithBestNextHops U
                     (mplsRoutesToUpdate delta)) in
    let planned :=
      (if nonempty (unicastRoutesToDelete delta) then [del] else []) ++
      (if nonempty (createUnicastRoutesWithBestNexthops U
                      (unicastRoutesToUpdate delta)) then [add] else []) ++
      (if enableSegmentRouting_ C && nonempty (mplsRoutesToDelete delta)
       then [mdel] else []) ++
      (if enableSegmentRouting_ C
          && nonempty (createMplsRoutesWithBestNextHops U
                         (mplsRoutesToUpdate delta))
       then [madd] else []) in
    (isScheduled (syncRoutesTimer_ s) = true -> s' = s) /\
    (isScheduled (syncRoutesTimer_ s) = false -> dirtyRouteDb_ s = true ->
     agentCalls s' = agentCalls s /\
     syncRoutesTimer_ s' = Some 0 /\
     dirtyRouteDb_ s' = true) /\
    (isScheduled (syncRoutesTimer_ s) = false -> dirtyRouteDb_ s = false ->
     agentCalls s' = agentCalls s ++ attempted agent planned /\
     attempted agent planned `prefix_of` planned /\
     planned `sublist_of` [del; add; mdel; madd] /\
     (allSucceed agent planned = true ->
      attempted agent planned = planned /\
      dirtyRouteDb_ s' = false /\ syncRoutesTimer_ s' = None) /\
     (allSucceed agent planned = false ->
      dirtyRouteDb_ s' = true /\ syncRoutesTimer_ s' = Some 0 /\
      client_ s' = false)).
Proof.
  intros agent delta s Hdry s' del add mdel madd planned.
  subst s'. unfold updateRoutes. rewrite Hdry.
  split; [intros Hs; by rewrite Hs|]. split.
  - intros Hs Hd. rewrite Hs, Hd. unfold syncRouteDbDebounced.
    by rewrite Hs.
  - intros Hs Hd. rewrite Hs, Hd.
    match goal with |- context [match ?b ?c with _ => _ end] =>
      assert (Hbody : issues agent b planned) end.
    { subst planned. repeat apply issues_seq; apply issues_when;
        apply issues_call. }
    rewrite Hbody. cbn [createFibClient set_client agentCalls].
    split.
    { destruct (allSucceed agent planned); [reflexivity|].
      match goal with |- context [syncRouteDbDebounced ?x] =>
        destruct (syncRouteDbDebounced_frame x) as (_ & _ & _ & _ & _ & ->)
      end. reflexivity. }
    split; [apply attempted_prefix|].
    split.
    { subst planned.
      destruct (nonempty (unicastRoutesToDelete delta)),
               (nonempty (createUnicastRoutesWithBestNexthops U
                            (unicastRoutesToUpdate delta))),
               (enableSegmentRouting_ C),
               (nonempty (mplsRoutesToDelete delta)),
               (nonempty (createMplsRoutesWithBestNextHops U
                            (mplsRoutesToUpdate delta)));
        cbn [andb app];
        repeat first [ apply sublist_nil | apply sublist_skip
                     | apply sublist_cons
                     | apply sublist_nil_l ]. }
    split.
    + intros Hok. rewrite Hok. split; [by apply attempted_allSucceed|].
      cbn. destruct (syncRoutesTimer_ s); [discriminate | done].
    + intros Hfail. rewrite Hfail. unfold syncRouteDbDebounced. cbn.
      destruct (syncRoutesTimer_ s); [discriminate | done].
Qed.

(** *** The dirty flag and the backoff *)

Lemma updateRoutes_dryrun (agent : Agent) (d : RouteDatabaseDelta) (s : t) :
  dryrun_ C = true -> updateRoutes C U agent d s = s.
Proof. intros H. unfold updateRoutes. by rewrite H. Qed.

Lemma syncRouteDb_dryrun (agent : Agent) (s : t) :
  dryrun_ C = true -> syncRouteDb C U agent s = (true, s).
Proof. intros H. unfold syncRouteDb. by rewrite H. Qed.

Lemma syncRouteDb_dirty (agent : Agent) (s : t) :
  dryrun_ C = false ->
  dirtyRouteDb_ (snd (syncRouteDb C U agent s))
    = negb (fst (syncRouteDb C U agent s)).
Proof.
  intros H. unfold syncRouteDb. rewrite H.
  match goal with |- context [match ?b ?c with _ => _ end] =>
    destruct (b c) as [[[]|] calls] end; reflexivity.
Qed.

Lemma filterRoutesByInterfaceDb_frame (idb : InterfaceDatabase) (s s1 : t)
    (d : RouteDatabaseDelta) :
  filterRoutesByInterfaceDb U idb s = Some (s1, d) ->
  dirtyRouteDb_ s1 = dirtyRouteDb_ s /\
  expBackoff_ s1 = expBackoff_ s /\
  syncRoutesTimer_ s1 = syncRoutesTimer_ s /\
  agentCalls s1 = agentCalls s /\
  doNotInstallRouteDb_ s1 = doNotInstallRouteDb_ s.
Proof.
  unfold filterRoutesByInterfaceDb.
  destruct (findAffectedInterfaces _ _ _) as [st aff].
  destruct (filterUnicastRoutes _ _ _ _) as [[urs d1]|]; [|discriminate].
  destruct (filterMplsRoutes _ _ _ _) as [mrs d2].
  intros [= <- <-]. done.
Qed.

Lemma processRouteDb_invariant (agent : Agent) (db : RouteDatabase) (s : t) :
  invariant C s -> invariant C (fst (processRouteDb C U agent db s)).
Proof.
  intros (IHd & IHi & IHm). unfold processRouteDb.
  destruct (removeDoNotInstall _ _) as [kept removed]. cbn [fst].
  match goal with |- invariant C (updateRoutes C U agent ?d ?x) =>
    destruct (updateRoutes_frame agent d x) as (_ & _ & _ & Hb);
    pose proof (updateRoutes_dryrun agent d x) as Hdr
  end.
  split; [|by rewrite Hb].
  intros Hdry. rewrite (Hdr Hdry). by apply IHd.
Qed.

Lemma processInterfaceDb_invariant (agent : Agent) (idb : InterfaceDatabase)
    (s s' : t) :
  invariant C s -> processInterfaceDb C U agent idb s = Some s' ->
  invariant C s'.
Proof.
  intros (IHd & IHi & IHm) Hp. unfold processInterfaceDb in Hp.
  destruct (filterRoutesByInterfaceDb U idb s) as [[s1 d]|] eqn:Hf;
    [|discriminate].
  injection Hp as <-.
  destruct (filterRoutesByInterfaceDb_frame _ _ _ _ Hf) as (Hd1 & Hb1 & _).
  destruct (updateRoutes_frame agent d s1) as (_ & _ & _ & Hb).
  split; [|by rewrite Hb, Hb1].
  intros Hdry. rewrite (updateRoutes_dryrun agent d s1 Hdry), Hd1.
  by apply IHd.
Qed.

Lemma reachable_invariant (s : t) : reachable C U s -> invariant C s.
Proof.
  induction 1 as [ | s agent pub _ IH | s s' agent pub _ IH Hp
                 | s agent now now' _ IH _ _ | s agent _ IH Hdry
                 | s agent _ IH Hdry _ ].
  - done.
  - unfold decisionSub_callback. destruct pub as [db|]; [|exact IH].
    case_decide; [exact IH | by apply processRouteDb_invariant].
  - unfold linkMonSub_callback in Hp. destruct pub as [idb|].
    + case_decide; [congruence|].
      by apply (processInterfaceDb_invariant agent idb s).
    + congruence.
  - destruct IH as (IHd & IHi & IHm). unfold syncRoutesTimer_callback.
    destruct (dryrun_ C) eqn:Hdry.
    + rewrite (syncRouteDb_dryrun agent _ Hdry). split; [|done].
      intros _. by apply IHd.
    + pose proof (syncRouteDb_frame agent (set_syncRoutesTimer s None))
        as (_ & _ & _ & Hb & _).
      destruct (syncRouteDb C U agent (set_syncRoutesTimer s None))
        as [[] s1]; cbn in Hb; (split; [congruence | cbn; by rewrite Hb]).
  - destruct IH as (IHd & IHi & IHm). split; [congruence|].
    unfold healthChecker_callback, keepAliveCheck, call.
    cbn [createFibClient agentCalls set_client].
    destruct (throws agent sync_aliveSince); [done|].
    cbn. destruct (negb _); [|done].
    unfold syncRouteDbDebounced. cbn.
    destruct (negb _); done.
  - destruct IH as (IHd & IHi & IHm). split; [congruence|].
    unfold syncFibTimer_callback.
    destruct (negb _); [|done].
    destruct (syncRouteDb_frame agent s) as (_ & _ & _ & -> & _). done.
Qed.

Lemma getTimeRemainingUntilRetry_bound (now now' : Z)
    (b : ExponentialBackoff.t) :
  now <= now' ->
  0 <= ExponentialBackoff.initialBackoff b
    <= ExponentialBackoff.maxBackoff b ->
  0 <= ExponentialBackoff.getTimeRemainingUntilRetry now'
         (ExponentialBackoff.reportError now b)
    <= ExponentialBackoff.maxBackoff b.
Proof.
  intros Hnow Hb.
  unfold ExponentialBackoff.getTimeRemainingUntilRetry,
         ExponentialBackoff.reportError.
  cbn [ExponentialBackoff.lastErrorTime ExponentialBackoff.currentBackoff].
  destruct (Z.eqb_spec (ExponentialBackoff.currentBackoff b) 0);
    match goal with |- context [0 <=? ?x] => destruct (Z.leb_spec 0 x) end;
    lia.
Qed.

(** What the periodic timer [syncFibTimer_] does when the full-sync timer is
    not scheduled: it runs [syncRouteDb] and drops the result.  A failure
    sets the dirty flag and leaves the backoff and the full-sync timer as
    they were. *)
Lemma syncFibTimer_callback_drops_result (s : t) (agent : Agent) :
  reachable C U s ->
  isScheduled (syncRoutesTimer_ s) = false ->
  let success := fst (syncRouteDb C U agent s) in
  let s' := syncFibTimer_callback C U agent s in
  s' = snd (syncRouteDb C U agent s) /\
  expBackoff_ s' = expBackoff_ s /\
  syncRoutesTimer_ s' = None /\
  dirtyRouteDb_ s' = negb success.
Proof.
  intros Hreach Hs. cbv zeta.
  destruct (reachable_invariant s Hreach) as (Hd & _).
  unfold syncFibTimer_callback. rewrite Hs. cbn [negb].
  destruct (syncRouteDb_frame agent s) as (_ & _ & _ & Hb & Ht).
  split; [reflexivity|]. split; [exact Hb|]. split.
  { rewrite Ht. by destruct (syncRoutesTimer_ s). }
  destruct (dryrun_ C) eqn:Hdry.
  - rewrite (syncRouteDb_dryrun agent _ Hdry). cbn [fst snd negb].
    by apply Hd.
  - by apply syncRouteDb_dirty.
Qed.

(** C5, for the full-sync timer.  When [syncRoutesTimer_] fires in a
    reachable state: if [syncRouteDb] fails, the dirty flag is set, the
    backoff records the error, and the timer is scheduled again after the
    backoff's time remaining until retry, which is between 0 and 4096 ms; if
    it succeeds, the dirty flag is clear, the backoff records the success and
    the timer stays unscheduled. *)
Theorem full_sync_timer_backoff :
  forall (s : t) (agent : Agent) (now now' : Z),
    reachable C U s ->
    now <= now' ->
    let success := fst (syncRouteDb C U agent (set_syncRoutesTimer s None)) in
    let s' := syncRoutesTimer_callback C U agent now now' s in
    (success = false ->
     dirtyRouteDb_ s' = true /\
     expBackoff_ s' = ExponentialBackoff.reportError now (expBackoff_ s) /\
     syncRoutesTimer_ s' =
       Some (ExponentialBackoff.getTimeRemainingUntilRetry now'
               (expBackoff_ s')) /\
     0 <= ExponentialBackoff.getTimeRemainingUntilRetry now' (expBackoff_ s')
       <= 4096) /\
    (success = true ->
     dirtyRouteDb_ s' = false /\
     expBackoff_ s' = ExponentialBackoff.reportSuccess (expBackoff_ s) /\
     syncRoutesTimer_ s' = None).
Proof.
  intros s agent now now' Hreach Hnow.
  destruct (reachable_invariant s Hreach) as (Hd & Hi & Hm).
  cbv zeta. unfold syncRoutesTimer_callback.
  pose proof (syncRouteDb_frame agent (set_syncRoutesTimer s None))
    as (_ & _ & _ & Hb & Ht).
  destruct (dryrun_ C) eqn:Hdry.
  - rewrite (syncRouteDb_dryrun agent _ Hdry). cbn [fst].
    split; [discriminate|]. intros _. cbn. split; [by apply Hd | done].
  - pose proof (syncRouteDb_dirty agent (set_syncRoutesTimer s None) Hdry)
      as Hdirty.
    destruct (syncRouteDb C U agent (set_syncRoutesTimer s None))
      as [success s1]. cbn [fst snd] in *.
    destruct success; cbn [negb] in Hdirty.
    + split; [discriminate|]. intros _. cbn. by rewrite Hb.
    + split; [|discriminate]. intros _. cbn. rewrite Hb. cbn.
      split; [exact Hdirty|]. split; [reflexivity|]. split; [reflexivity|].
      rewrite <- Hm.
      apply getTimeRemainingUntilRetry_bound; [exact Hnow | lia].
Qed.

(** *** Interface publications *)

Lemma nonempty_true {A} (l : list A) : nonempty l = true <-> l <> [].
Proof. destruct l; cbn; split; congruence. Qed.

Lemma nonempty_false {A} (l : list A) : nonempty l = false <-> l = [].
Proof. destruct l; cbn; split; congruence. Qed.

Lemma findAffectedInterfaces_spec (kvs : list (string * InterfaceInfo)) :
  NoDup kvs.*1 ->
  forall (st : gmap string bool) (aff : gset string),
    (forall name,
       name ∈ snd (findAffectedInterfaces kvs st aff) <->
       name ∈ aff \/
       (st !! name = Some true /\
        exists info, (name, info) ∈ kvs /\ isUp info = false)) /\
    (forall name,
       fst (findAffectedInterfaces kvs st aff) !! name =
       match (list_to_map kvs : gmap string InterfaceInfo) !! name with
       | Some info => Some (isUp info)
       | None => st !! name
       end).
Proof.
  induction kvs as [|[k info] kvs IH]; intros Hnd st aff.
  - cbn. split; [|done]. intros name. split; [by left|].
    intros [H|(_ & i & Hin & _)]; [done|]. by apply elem_of_nil in Hin.
  - cbn [fmap list_fmap fst] in Hnd. apply NoDup_cons in Hnd as [Hk Hnd].
    cbn [findAffectedInterfaces].
    specialize (IH Hnd (<[k:=isUp info]> st)
                  (if default false (st !! k) && negb (isUp info)
                   then {[k]} ∪ aff else aff)) as [IHa IHs].
    assert (Hne : forall name i, (name, i) ∈ kvs -> name <> k).
    { intros name i Hin ->. apply Hk.
      apply list_elem_of_fmap. by exists (k, i). }
    split.
    + intros name. rewrite IHa. split.
      * intros [Hin|(Hst & i & Hin & Hup)].
        -- destruct (default false (st !! k) && negb (isUp info)) eqn:Hc;
             [|by left].
           apply elem_of_union in Hin as [Hin|Hin]; [|by left].
           apply elem_of_singleton in Hin as ->.
           apply andb_true_iff in Hc as [Hw Hu]. right. split.
           ++ destruct (st !! k) as [[]|]; cbn in Hw; congruence.
           ++ exists info. split; [apply elem_of_cons; by left|].
              by destruct (isUp info).
        -- right. rewrite lookup_insert_ne in Hst by (symmetry; eauto).
           split; [exact Hst|]. exists i. split; [|exact Hup].
           apply elem_of_cons. by right.
      * intros [Hin|(Hst & i & Hin & Hup)].
        -- left. destruct (_ && _); [|done]. apply elem_of_union. by right.
        -- apply elem_of_cons in Hin as [[= -> ->]|Hin].
           ++ left. rewrite Hst, Hup. cbn. apply elem_of_union. left.
              by apply elem_of_singleton.
           ++ right. rewrite lookup_insert_ne by (symmetry; eauto).
              split; [done|]. by exists i.
    + intros name. rewrite IHs. cbn [list_to_map foldr uncurry].
      destruct (decide (name = k)) as [->|Hn].
      * rewrite lookup_insert_eq.
        rewrite (not_elem_of_list_to_map_1 kvs k Hk).
        by rewrite lookup_insert_eq.
      * by rewrite !(lookup_insert_ne _ k name) by done.
Qed.

Lemma affectedInterfaces_spec (idb : InterfaceDatabase) (s : t) (name : string) :
  name ∈ affectedInterfaces idb s <->
  interfaceStatusDb_ s !! name = Some true /\
  exists info, interfaces idb !! name = Some info /\ isUp info = false.
Proof.
  unfold affectedInterfaces.
  destruct (findAffectedInterfaces_spec (map_to_list (interfaces idb))
              (NoDup_fst_map_to_list _) (interfaceStatusDb_ s) ∅) as [Ha _].
  rewrite Ha. split.
  - intros [H|(Hst & i & Hin & Hup)]; [by apply not_elem_of_empty in H|].
    split; [done|]. exists i. by rewrite <- elem_of_map_to_list.
  - intros (Hst & i & Hin & Hup). right. split; [done|].
    exists i. by rewrite elem_of_map_to_list.
Qed.

Lemma interfaceStatusDb_after (idb : InterfaceDatabase) (s : t)
    (name : string) :
  fst (findAffectedInterfaces (map_to_list (interfaces idb))
         (interfaceStatusDb_ s) ∅) !! name =
  match interfaces idb !! name with
  | Some info => Some (isUp info)
  | None => interfaceStatusDb_ s !! name
  end.
Proof.
  destruct (findAffectedInterfaces_spec (map_to_list (interfaces idb))
              (NoDup_fst_map_to_list _) (interfaceStatusDb_ s) ∅) as [_ Hs].
  by rewrite Hs, list_to_map_to_list.
Qed.

Lemma validNextHopsUnicast_spec (names : gset string)
    (nextHops : list NextHopThrift) :
  Forall (fun nextHop => is_Some (ifName (address nextHop))) nextHops ->
  validNextHopsUnicast names nextHops
    = Some (survivingNextHops names nextHops).
Proof.
  unfold survivingNextHops.
  induction 1 as [|nh nhs [name Hname] _ IH]; [done|].
  cbn [validNextHopsUnicast]. rewrite Hname, IH, filter_cons.
  destruct (decide (name ∈ names)) as [Hin|Hnin].
  - rewrite decide_False; [done|]. intros Hn. apply Hn. by exists name.
  - rewrite decide_True; [done|]. intros (n & Hn & Hin). congruence.
Qed.

Lemma validNextHopsMpls_spec (names : gset string)
    (nextHops : list NextHopThrift) :
  validNextHopsMpls names nextHops = survivingNextHops names nextHops.
Proof.
  unfold survivingNextHops.
  induction nextHops as [|nh nhs IH]; [done|].
  cbn [validNextHopsMpls]. rewrite IH, filter_cons.
  destruct (ifName (address nh)) as [name|] eqn:Hname.
  - destruct (decide (name ∈ names)) as [Hin|Hnin].
    + rewrite decide_False; [done|]. intros Hn. apply Hn. by exists name.
    + rewrite decide_True; [done|]. intros (n & Hn & Hin). congruence.
  - rewrite decide_True; [done|]. intros (n & Hn & _). congruence.
Qed.

Lemma filterUnicastRoutes_spec (names : gset string)
    (routes : list UnicastRoute.t) :
  unicastNextHopsNamed routes ->
  forall d : RouteDatabaseDelta,
    filterUnicastRoutes U names routes d =
    Some (spec_unicastRoutesAfter names routes,
          mk_RouteDatabaseDelta
            (unicastRoutesToUpdate d
             ++ spec_unicastRoutesToUpdate U names routes)
            (unicastRoutesToDelete d
             ++ spec_unicastRoutesToDelete names routes)
            (mplsRoutesToUpdate d) (mplsRoutesToDelete d)).
Proof.
  unfold spec_unicastRoutesAfter, spec_unicastRoutesToUpdate,
         spec_unicastRoutesToDelete.
  induction 1 as [|r rs Hr _ IH]; intros d.
  - cbn. rewrite !app_nil_r. by destruct d.
  - cbn [filterUnicastRoutes map]. rewrite (validNextHopsUnicast_spec _ _ Hr).
    cbn [UnicastRoute.nextHops UnicastRoute.dest UnicastRoute.doNotInstall].
    rewrite !(filter_cons _ r), filter_cons.
    cbn [UnicastRoute.nextHops].
    set (valid := survivingNextHops names (UnicastRoute.nextHops r)).
    set (best := getBestNextHopsUnicast U valid).
    set (prev := getBestNextHopsUnicast U (UnicastRoute.nextHops r)).
    assert (Hupd :
      nonempty best && bool_decide (best <> prev) = true <->
      best <> [] /\ best <> prev).
    { rewrite andb_true_iff, nonempty_true, bool_decide_eq_true. done. }
    destruct (nonempty best && bool_decide (best <> prev)) eqn:Hc.
    + rewrite (decide_True (P := best <> [] /\ best <> prev))
        by (by apply Hupd).
      destruct (nonempty valid) eqn:Hv; cbn [negb].
      * apply nonempty_true in Hv.
        rewrite IH, (decide_True (P := valid <> [])),
                (decide_False (P := valid = [])) by done.
        cbn. by rewrite <- app_assoc.
      * apply nonempty_false in Hv.
        rewrite IH, (decide_False (P := valid <> [])),
                (decide_True (P := valid = []))
          by first [exact Hv | intros Hneg; by apply Hneg].
        cbn. by rewrite <- !app_assoc.
    + rewrite (decide_False (P := best <> [] /\ best <> prev))
        by (rewrite <- Hupd; congruence).
      destruct (nonempty valid) eqn:Hv; cbn [negb].
      * apply nonempty_true in Hv.
        rewrite IH, (decide_True (P := valid <> [])),
                (decide_False (P := valid = [])) by done.
        done.
      * apply nonempty_false in Hv.
        rewrite IH, (decide_False (P := valid <> [])),
                (decide_True (P := valid = []))
          by first [exact Hv | intros Hneg; by apply Hneg].
        cbn. by rewrite <- !app_assoc.
Qed.

Lemma filterMplsRoutes_spec (names : gset string)
    (routes : list MplsRoute.t) :
  forall d : RouteDatabaseDelta,
    filterMplsRoutes U names routes d =
    (spec_mplsRoutesAfter names routes,
     mk_RouteDatabaseDelta
       (unicastRoutesToUpdate d) (unicastRoutesToDelete d)
       (mplsRoutesToUpdate d ++ spec_mplsRoutesToUpdate U names routes)
       (mplsRoutesToDelete d ++ spec_mplsRoutesToDelete names routes)).
Proof.
  unfold spec_mplsRoutesAfter, spec_mplsRoutesToUpdate,
         spec_mplsRoutesToDelete.
  induction routes as [|r rs IH]; intros d.
  - cbn. rewrite !app_nil_r. by destruct d.
  - cbn [filterMplsRoutes map]. rewrite validNextHopsMpls_spec.
    cbn [MplsRoute.nextHops MplsRoute.topLabel].
    rewrite !(filter_cons _ r), filter_cons.
    cbn [MplsRoute.nextHops].
    set (valid := survivingNextHops names (MplsRoute.nextHops r)).
    set (best := getBestNextHopsMpls U valid).
    set (prev := getBestNextHopsMpls U (MplsRoute.nextHops r)).
    assert (Hupd :
      nonempty best && bool_decide (best <> prev) = true <->
      best <> [] /\ best <> prev).
    { rewrite andb_true_iff, nonempty_true, bool_decide_eq_true. done. }
    destruct (nonempty best && bool_decide (best <> prev)) eqn:Hc.
    + rewrite (decide_True (P := best <> [] /\ best <> prev))
        by (by apply Hupd).
      destruct (nonempty valid) eqn:Hv; cbn [negb].
      * apply nonempty_true in Hv.
        rewrite IH, (decide_True (P := valid <> [])),
                (decide_False (P := valid = [])) by done.
        cbn. by rewrite <- app_assoc.
      * apply nonempty_false in Hv.
        rewrite IH, (decide_False (P := valid <> [])),
                (decide_True (P := valid = []))
          by first [exact Hv | intros Hneg; by apply Hneg].
        cbn. by rewrite <- !app_assoc.
    + rewrite (decide_False (P := best <> [] /\ best <> prev))
        by (rewrite <- Hupd; congruence).
      destruct (nonempty valid) eqn:Hv; cbn [negb].
      * apply nonempty_true in Hv.
        rewrite IH, (decide_True (P := valid <> [])),
                (decide_False (P := valid = [])) by done.
        done.
      * apply nonempty_false in Hv.
        rewrite IH, (decide_False (P := valid <> [])),
                (decide_True (P := valid = []))
          by first [exact Hv | intros Hneg; by apply Hneg].
        cbn. by rewrite <- !app_assoc.
Qed.

Lemma survivingNextHops_elem (names : gset string)
    (nextHops : list NextHopThrift) (nextHop : NextHopThrift) :
  nextHop ∈ survivingNextHops names nextHops <->
  nextHop ∈ nextHops /\
  forall name, ifName (address nextHop) = Some name -> name ∉ names.
Proof.
  unfold survivingNextHops. rewrite list_elem_of_filter.
  unfold onInterfaceOf. split.
  - intros [Hn Hin]. split; [done|]. intros name Hname Hbad.
    apply Hn. by exists name.
  - intros [Hin Hn]. split; [|done]. intros (name & Hname & Hbad).
    by apply (Hn name).
Qed.

Lemma survivingNextHops_empty (nextHops : list NextHopThrift) :
  survivingNextHops ∅ nextHops = nextHops.
Proof.
  unfold survivingNextHops. induction nextHops as [|nh nhs IH]; [done|].
  rewrite filter_cons, IH. rewrite decide_True; [done|].
  intros (name & _ & Hin). by apply not_elem_of_empty in Hin.
Qed.

Lemma filterRoutesByInterfaceDb_spec (idb : InterfaceDatabase) (s : t) :
  unicastNextHopsNamed (unicastRoutes (routeDb_ s)) ->
  filterRoutesByInterfaceDb U idb s =
  Some (set_routeDb
          (set_interfaceStatusDb s
             (fst (findAffectedInterfaces (map_to_list (interfaces idb))
                     (interfaceStatusDb_ s) ∅)))
          (mk_RouteDatabase (thisNodeName (routeDb_ s))
             (spec_unicastRoutesAfter (affectedInterfaces idb s)
                (unicastRoutes (routeDb_ s)))
             (spec_mplsRoutesAfter (affectedInterfaces idb s)
                (mplsRoutes (routeDb_ s)))),
        mk_RouteDatabaseDelta
          (spec_unicastRoutesToUpdate U (affectedInterfaces idb s)
             (unicastRoutes (routeDb_ s)))
          (spec_unicastRoutesToDelete (affectedInterfaces idb s)
             (unicastRoutes (routeDb_ s)))
          (spec_mplsRoutesToUpdate U (affectedInterfaces idb s)
             (mplsRoutes (routeDb_ s)))
          (spec_mplsRoutesToDelete (affectedInterfaces idb s)
             (mplsRoutes (routeDb_ s)))).
Proof.
  intros Hnamed. unfold filterRoutesByInterfaceDb, affectedInterfaces.
  destruct (findAffectedInterfaces _ _ _) as [st aff]. cbn [fst snd].
  cbn [routeDb_ set_interfaceStatusDb].
  rewrite (filterUnicastRoutes_spec aff _ Hnamed), filterMplsRoutes_spec.
  reflexivity.
Qed.

(** C4, as the code has it.  With [affected] the interfaces that were up and
    are now reported down, [processInterfaceDb] (for a route DB whose unicast
    nexthops all name their interface, as its [CHECK] demands) keeps of each
    stored route exactly the nexthops whose interface name is not in
    [affected]; nexthops without an interface name stay.  A route without a
    surviving nexthop is removed from the route DB and its destination or
    label is put in the delete list.  A route is put in the update list, with
    the best of its surviving nexthops, exactly when that best list is not
    empty and differs from the best list of the nexthops it had before.  The
    delta so built is what [updateRoutes] receives. *)
Theorem processInterfaceDb_filters_routes :
  forall (agent : Agent) (idb : InterfaceDatabase) (s : t),
    unicastNextHopsNamed (unicastRoutes (routeDb_ s)) ->
    let affected := affectedInterfaces idb s in
    (forall name,
       name ∈ affected <->
       interfaceStatusDb_ s !! name = Some true /\
       exists info, interfaces idb !! name = Some info /\ isUp info = false)
    /\
    (forall nextHops nextHop,
       nextHop ∈ survivingNextHops affected nextHops <->
       nextHop ∈ nextHops /\
       forall name, ifName (address nextHop) = Some name -> name ∉ affected)
    /\
    exists (s1 : t) (delta : RouteDatabaseDelta),
      filterRoutesByInterfaceDb U idb s = Some (s1, delta) /\
      processInterfaceDb C U agent idb s
        = Some (updateRoutes C U agent delta s1) /\
      routeDb_ (updateRoutes C U agent delta s1) = routeDb_ s1 /\
      unicastRoutes (routeDb_ s1)
        = spec_unicastRoutesAfter affected (unicastRoutes (routeDb_ s)) /\
      mplsRoutes (routeDb_ s1)
        = spec_mplsRoutesAfter affected (mplsRoutes (routeDb_ s)) /\
      unicastRoutesToUpdate delta
        = spec_unicastRoutesToUpdate U affected (unicastRoutes (routeDb_ s)) /\
      unicastRoutesToDelete delta
        = spec_unicastRoutesToDelete affected (unicastRoutes (routeDb_ s)) /\
      mplsRoutesToUpdate delta
        = spec_mplsRoutesToUpdate U affected (mplsRoutes (routeDb_ s)) /\
      mplsRoutesToDelete delta
        = spec_mplsRoutesToDelete affected (mplsRoutes (routeDb_ s)).
Proof.
  intros agent idb s Hnamed affected.
  split; [intros name; apply affectedInterfaces_spec|].
  split; [intros nhs nh; apply survivingNextHops_elem|].
  eexists _, _. split; [by apply filterRoutesByInterfaceDb_spec|].
  split.
  { unfold processInterfaceDb.
    by rewrite (filterRoutesByInterfaceDb_spec idb s Hnamed). }
  split; [apply updateRoutes_frame|]. done.
Qed.

Lemma spec_unicastRoutesAfter_empty (routes : list UnicastRoute.t) :
  spec_unicastRoutesAfter ∅ routes
  = filter (fun r => UnicastRoute.nextHops r <> []) routes.
Proof.
  unfold spec_unicastRoutesAfter. f_equal.
  induction routes as [|[d i nhs] rs IH]; [done|].
  cbn [map UnicastRoute.dest UnicastRoute.doNotInstall UnicastRoute.nextHops].
  by rewrite survivingNextHops_empty, IH.
Qed.

Lemma spec_mplsRoutesAfter_empty (routes : list MplsRoute.t) :
  spec_mplsRoutesAfter ∅ routes
  = filter (fun r => MplsRoute.nextHops r <> []) routes.
Proof.
  unfold spec_mplsRoutesAfter. f_equal.
  induction routes as [|[l nhs] rs IH]; [done|].
  cbn [map MplsRoute.topLabel MplsRoute.nextHops].
  by rewrite survivingNextHops_empty, IH.
Qed.

Lemma spec_unicastRoutesToUpdate_empty (routes : list UnicastRoute.t) :
  spec_unicastRoutesToUpdate U ∅ routes = [].
Proof.
  unfold spec_unicastRoutesToUpdate.
  induction routes as [|r rs IH]; [done|].
  rewrite filter_cons, decide_False; [exact IH|].
  rewrite survivingNextHops_empty. intros [_ Hne]. by apply Hne.
Qed.

Lemma spec_mplsRoutesToUpdate_empty (routes : list MplsRoute.t) :
  spec_mplsRoutesToUpdate U ∅ routes = [].
Proof.
  unfold spec_mplsRoutesToUpdate.
  induction routes as [|r rs IH]; [done|].
  rewrite filter_cons, decide_False; [exact IH|].
  rewrite survivingNextHops_empty. intros [_ Hne]. by apply Hne.
Qed.

(** C9.  An interface name that the interface status DB does not hold (it
    has not appeared in a publication: the DB starts empty and records every
    name it is given) counts as down before, and is not among the affected
    interfaces of the publication that reports it.  Hence with an empty
    status DB, as at the first publication, no interface is affected, no
    stored route loses a nexthop (a route stays as it is, unless it had no
    nexthop at all) and no update is put in the delta. *)
Theorem first_report_is_never_affected :
  forall (agent : Agent) (idb : InterfaceDatabase) (s : t),
    (forall name,
       interfaceStatusDb_ s !! name = None ->
       default false (interfaceStatusDb_ s !! name) = false /\
       name ∉ affectedInterfaces idb s) /\
    interfaceStatusDb_ (init C) = ∅ /\
    (forall s1 delta,
       filterRoutesByInterfaceDb U idb s = Some (s1, delta) ->
       dom (interfaceStatusDb_ (updateRoutes C U agent delta s1))
         = dom (interfaces idb) ∪ dom (interfaceStatusDb_ s)) /\
    (interfaceStatusDb_ s = ∅ ->
     unicastNextHopsNamed (unicastRoutes (routeDb_ s)) ->
     affectedInterfaces idb s = ∅ /\
     exists (s1 : t) (delta : RouteDatabaseDelta),
       filterRoutesByInterfaceDb U idb s = Some (s1, delta) /\
       processInterfaceDb C U agent idb s
         = Some (updateRoutes C U agent delta s1) /\
       unicastRoutes (routeDb_ (updateRoutes C U agent delta s1))
         = filter (fun r => UnicastRoute.nextHops r <> [])
                  (unicastRoutes (routeDb_ s)) /\
       mplsRoutes (routeDb_ (updateRoutes C U agent delta s1))
         = filter (fun r => MplsRoute.nextHops r <> [])
                  (mplsRoutes (routeDb_ s)) /\
       unicastRoutesToUpdate delta = [] /\
       mplsRoutesToUpdate delta = []).
Proof.
  intros agent idb s.
  split.
  { intros name Hnone. rewrite Hnone. split; [done|].
    rewrite affectedInterfaces_spec. intros [Hst _]. congruence. }
  split; [reflexivity|].
  split.
  { intros s1 delta Hf.
    destruct (updateRoutes_frame agent delta s1) as (_ & _ & -> & _).
    unfold filterRoutesByInterfaceDb in Hf.
    pose proof (interfaceStatusDb_after idb s) as Hst.
    destruct (findAffectedInterfaces _ _ _) as [st aff]. cbn [fst] in Hst.
    destruct (filterUnicastRoutes _ _ _ _) as [[urs d1]|]; [|discriminate].
    destruct (filterMplsRoutes _ _ _ _) as [mrs d2].
    injection Hf as <- <-. cbn [interfaceStatusDb_ set_routeDb
                                  set_interfaceStatusDb].
    apply set_eq. intros name.
    rewrite elem_of_union, !elem_of_dom, Hst.
    destruct (interfaces idb !! name) as [info|].
    - split; [intros _; left|]; eauto.
    - split; [intros H; by right|].
      intros [[? H]|H]; [discriminate | done]. }
  intros Hempty Hnamed.
  assert (Haff : affectedInterfaces idb s = ∅).
  { apply set_eq. intros name. rewrite affectedInterfaces_spec, Hempty.
    rewrite lookup_empty. split; [intros [? _]; congruence|].
    intros Hin. by apply not_elem_of_empty in Hin. }
  split; [exact Haff|].
  eexists _, _. split; [by apply filterRoutesByInterfaceDb_spec|].
  split.
  { unfold processInterfaceDb.
    by rewrite (filterRoutesByInterfaceDb_spec idb s Hnamed). }
  match goal with |- context [updateRoutes C U agent ?d ?x] =>
    destruct (updateRoutes_frame agent d x) as (-> & _)
  end.
  cbn [routeDb_ set_routeDb unicastRoutes mplsRoutes unicastRoutesToUpdate
       mplsRoutesToUpdate].
  rewrite Haff.
  split; [apply spec_unicastRoutesAfter_empty|].
  split; [apply spec_mplsRoutesAfter_empty|].
  split; [apply spec_unicastRoutesToUpdate_empty
         |apply spec_mplsRoutesToUpdate_empty].
Qed.

End FibProperties.

(** C4 as stated fails where the last nexthop of a route goes away: [route10]
    has its one nexthop via [eth0], which is up; when [eth0] is reported down
    the best list of the surviving nexthops (empty) differs from the previous
    best list, yet no update is put in the delta: the route is deleted
    instead. *)
Lemma interface_down_last_nexthop_emits_no_update :
  Fib.stateWithRoute = Some Fib.stateRoute10 /\
  Fib.reachable Fib.sampleConfig Fib.sampleUtil Fib.stateRoute10 /\
  exists (s1 : Fib.t) (delta : Fib.RouteDatabaseDelta),
    Fib.filterRoutesByInterfaceDb Fib.sampleUtil Fib.eth0Down Fib.stateRoute10
      = Some (s1, delta) /\
    Fib.getBestNextHopsUnicast Fib.sampleUtil
      (Fib.survivingNextHops
         (Fib.affectedInterfaces Fib.eth0Down Fib.stateRoute10)
         (Fib.UnicastRoute.nextHops Fib.route10))
    <> Fib.getBestNextHopsUnicast Fib.sampleUtil
         (Fib.UnicastRoute.nextHops Fib.route10) /\
    Fib.unicastRoutesToUpdate delta = [] /\
    Fib.unicastRoutesToDelete delta = [Fib.UnicastRoute.dest Fib.route10] /\
    Fib.unicastRoutes (Fib.routeDb_ s1) = [].
Proof.
  assert (Hs : Fib.stateWithRoute = Some Fib.stateRoute10)
    by (vm_compute; reflexivity).
  split; [exact Hs|]. split.
  - unfold Fib.stateWithRoute in Hs.
    destruct (Fib.linkMonSub_callback Fib.sampleConfig Fib.sampleUtil
                Fib.agentUp (Some Fib.eth0Up) (Fib.init Fib.sampleConfig))
      as [s0|] eqn:H0; [|discriminate].
    assert (Heq :
      Fib.decisionSub_callback Fib.sampleConfig Fib.sampleUtil Fib.agentUp
        (Some (Fib.mk_RouteDatabase "node1" [Fib.route10] [])) s0
      = Fib.stateRoute10) by congruence.
    rewrite <- Heq.
    apply Fib.reach_decisionSub.
    exact (Fib.reach_linkMonSub Fib.sampleConfig Fib.sampleUtil _ _
             Fib.agentUp (Some Fib.eth0Up) (Fib.reach_init _ _) H0).
  - eexists _, _.
    split; [vm_compute; reflexivity|].
    split; [vm_compute; discriminate|].
    repeat split.
Qed.

(** C5 as stated fails for the full sync that the periodic timer runs: after
    the cold-start sync has succeeded, a periodic sync against an agent that
    is down fails and sets the dirty flag, yet no full sync is pending
    afterwards and the backoff has recorded no error. *)
Lemma periodic_sync_failure_schedules_nothing :
  let s := Fib.syncFibTimer_callback Fib.sampleConfig Fib.sampleUtil
             Fib.agentDown Fib.stateSynced in
  Fib.reachable Fib.sampleConfig Fib.sampleUtil s /\
  fst (Fib.syncRouteDb Fib.sampleConfig Fib.sampleUtil Fib.agentDown
         Fib.stateSynced) = false /\
  Fib.dirtyRouteDb_ s = true /\
  Fib.syncRoutesTimer_ s = None /\
  Fib.expBackoff_ s = ExponentialBackoff.make 8 4096.
Proof.
  cbv zeta. split; [|by vm_compute].
  apply Fib.reach_syncFibTimer; [|reflexivity|reflexivity].
  apply Fib.reach_syncRoutesTimer; [apply Fib.reach_init|reflexivity|lia].
Qed.

(** The cold-start sync against an agent that is down: dirty, and the next
    try 8 ms later. *)
Lemma full_sync_timer_backoff_witness :
  let s' := Fib.syncRoutesTimer_callback Fib.sampleConfig Fib.sampleUtil
              Fib.agentDown 5 5 (Fib.init Fib.sampleConfig) in
  Fib.dirtyRouteDb_ s' = true /\
  Fib.syncRoutesTimer_ s' = Some 8.
Proof.
  destruct (full_sync_timer_backoff Fib.sampleConfig Fib.sampleUtil
              (Fib.init Fib.sampleConfig) Fib.agentDown 5 5
              (Fib.reach_init _ _) ltac:(lia)) as [Hfail _].
  destruct (Hfail eq_refl) as (Hd & _ & Ht & _).
  cbv zeta. split; [exact Hd|]. rewrite Ht. reflexivity.
Defined.

(** A delta with one delete and one update, applied after a successful
    sync: the delete is issued first. *)
Lemma updateRoutes_skips_or_deletes_before_adds_witness :
  let delta := Fib.mk_RouteDatabaseDelta
                 [Fib.route10] [Fib.mk_IpPrefix [10; 2; 0; 0] 24] [] [] in
  Fib.dryrun_ Fib.sampleConfig = false /\
  Fib.agentCalls (Fib.updateRoutes Fib.sampleConfig Fib.sampleUtil Fib.agentUp
                    delta Fib.stateSynced)
  = Fib.agentCalls Fib.stateSynced ++
    [Fib.sync_deleteUnicastRoutes [Fib.mk_IpPrefix [10; 2; 0; 0] 24];
     Fib.sync_addUnicastRoutes [Fib.route10]].
Proof.
  cbv zeta. split; [reflexivity|].
  destruct (updateRoutes_skips_or_deletes_before_adds Fib.sampleConfig
              Fib.sampleUtil Fib.agentUp
              (Fib.mk_RouteDatabaseDelta
                 [Fib.route10] [Fib.mk_IpPrefix [10; 2; 0; 0] 24] [] [])
              Fib.stateSynced eq_refl) as (_ & _ & Hcalls).
  destruct (Hcalls eq_refl eq_refl) as (-> & _). reflexivity.
Defined.

(** ** Persistent store *)

Section PersistentStoreProperties.

Import PersistentStore.

Lemma saveDatabaseToDisk_saves (writeThrows : bool) (s : t) :
  let s' := snd (saveDatabaseToDisk writeThrows s) in
  saves s' = saves s ++ [database_ s] /\
  database_ s' = database_ s /\
  saveDbTimer_ s' = saveDbTimer_ s /\
  saveDbTimerBackoff_ s' = saveDbTimerBackoff_ s /\
  (writeThrows = false -> dryrun_ s = false -> disk s' = Some (database_ s)).
Proof.
  unfold saveDatabaseToDisk. cbn [dryrun_].
  destruct (dryrun_ s), writeThrows; cbn; repeat split; congruence.
Qed.

(** C8.  A [STORE] always succeeds and an [ERASE] succeeds exactly when the
    key is present.  After a successful [STORE] or [ERASE]: without a
    configured backoff the database is saved before the response is
    returned (and with a write that does not throw, outside dry run, the
    file holds the new database); with a backoff nothing is saved at once,
    and the save timer is scheduled, after the backoff's time remaining
    until retry, exactly when it was not scheduled already, a scheduled
    timer being left as it is.  A [LOAD], found or not, leaves the store as
    it was: no save, no timer. *)
Theorem processRequestMsg_schedules_save :
  forall (writeThrows : bool) (now : Z) (request : StoreRequest) (s : t),
    let response :=
      fst (processRequestMsg writeThrows now (Some request) s) in
    let s' := snd (processRequestMsg writeThrows now (Some request) s) in
    (requestType request = STORE -> success response = true) /\
    (requestType request = ERASE ->
     (success response = true <->
      is_Some (keyVals (database_ s) !! req_key request))) /\
    (requestType request = STORE \/ requestType request = ERASE ->
     success response = true ->
     match saveDbTimerBackoff_ s with
     | None =>
         saves s' = saves s ++ [database_ s'] /\
         saveDbTimer_ s' = saveDbTimer_ s /\
         (writeThrows = false -> dryrun_ s = false ->
          disk s' = Some (database_ s'))
     | Some backoff =>
         saves s' = saves s /\
         disk s' = disk s /\
         match saveDbTimer_ s with
         | Some d => saveDbTimer_ s' = Some d
         | None =>
             saveDbTimer_ s' =
             Some (ExponentialBackoff.getTimeRemainingUntilRetry now backoff)
         end
     end) /\
    (requestType request = LOAD ->
     s' = s /\
     (success response = true <->
      is_Some (keyVals (database_ s) !! req_key request))).
Proof.
  intros writeThrows now [type k d] s response s'. subst response s'.
  unfold processRequestMsg. cbn [requestType req_key req_data].
  destruct type as [| | |code].
  - (* STORE *)
    cbn [success andb negb]. rewrite bool_decide_eq_false_2 by discriminate.
    cbn [negb fst snd].
    split; [done|]. split; [discriminate|]. split; [|discriminate].
    intros _ _.
    cbn [saveDbTimerBackoff_ saveDbTimer_ set_database].
    destruct (saveDbTimerBackoff_ s) as [backoff|].
    + destruct (saveDbTimer_ s) eqn:Ht; cbn; rewrite ?Ht; done.
    + match goal with |- context [saveDatabaseToDisk writeThrows ?x] =>
        destruct (saveDatabaseToDisk_saves writeThrows x)
          as (Hs & Hd & Ht & _ & Hdisk)
      end.
      rewrite Hs, Hd, Ht. cbn [saves database_ saveDbTimer_].
      split; [done|]. split; [done|].
      intros Hw Hdry. by rewrite (Hdisk Hw Hdry).
  - (* LOAD *)
    split; [discriminate|]. split; [discriminate|].
    split; [intros [?|?]; discriminate|]. intros _.
    destruct (keyVals (database_ s) !! k) as [v|]; cbn.
    + split; [done|]. split; eauto.
    + split; [done|]. split; [discriminate|]. intros [? ?]. discriminate.
  - (* ERASE *)
    cbn [success fst snd].
    split; [discriminate|].
    split; [intros _; apply bool_decide_eq_true|].
    split; [|discriminate]. intros _ Hok. rewrite Hok.
    rewrite bool_decide_eq_false_2 by discriminate. cbn [andb negb].
    cbn [saveDbTimerBackoff_ saveDbTimer_ set_database].
    destruct (saveDbTimerBackoff_ s) as [backoff|].
    + destruct (saveDbTimer_ s) eqn:Ht; cbn; rewrite ?Ht; done.
    + match goal with |- context [saveDatabaseToDisk writeThrows ?x] =>
        destruct (saveDatabaseToDisk_saves writeThrows x)
          as (Hs & Hd & Ht & _ & Hdisk)
      end.
      rewrite Hs, Hd, Ht. cbn [saves database_ saveDbTimer_].
      split; [done|]. split; [done|].
      intros Hw Hdry. by rewrite (Hdisk Hw Hdry).
  - (* any other request type *)
    cbn. split; [discriminate|]. split; [discriminate|].
    split; [intros [?|?]; discriminate|]. discriminate.
Qed.

(** C10.  An [ERASE] of a key that the key/value map does not hold is
    answered with [success = false] and leaves the whole store as it was:
    the map, the file, the save timer, and the list of saves. *)
Theorem erase_absent_key_fails_without_save :
  forall (writeThrows : bool) (now : Z) (k d : string) (s : t),
    keyVals (database_ s) !! k = None ->
    processRequestMsg writeThrows now (Some (mk_StoreRequest ERASE k d)) s
    = (mk_StoreResponse false k "", s).
Proof.
  intros writeThrows now k d s Hk.
  unfold processRequestMsg. cbn [requestType req_key req_data].
  rewrite Hk, delete_id by exact Hk.
  rewrite bool_decide_eq_false_2 by (intros [? ?]; discriminate).
  cbn [success andb]. f_equal.
  destruct s as [[m] ? ? ? ? ? ?]. reflexivity.
Qed.

End PersistentStoreProperties.

(** A [STORE] into the debounced store: the timer is scheduled, nothing is
    saved yet. *)
Lemma processRequestMsg_schedules_save_witness :
  PersistentStore.success
    (fst (PersistentStore.processRequestMsg false 7
            (Some (PersistentStore.mk_StoreRequest PersistentStore.STORE
                     "a" "b"))
            PersistentStore.debouncedStore)) = true /\
  PersistentStore.saveDbTimer_
    (snd (PersistentStore.processRequestMsg false 7
            (Some (PersistentStore.mk_StoreRequest PersistentStore.STORE
                     "a" "b"))
            PersistentStore.debouncedStore)) = Some 0 /\
  PersistentStore.saves
    (snd (PersistentStore.processRequestMsg false 7
            (Some (PersistentStore.mk_StoreRequest PersistentStore.STORE
                     "a" "b"))
            PersistentStore.debouncedStore)) = [].
Proof.
  destruct (processRequestMsg_schedules_save false 7
              (PersistentStore.mk_StoreRequest PersistentStore.STORE "a" "b")
              PersistentStore.debouncedStore) as (Hok & _ & Hsave & _).
  specialize (Hok eq_refl). specialize (Hsave (or_introl eq_refl) Hok).
  cbn in Hsave. destruct Hsave as (Hs & _ & Ht).
  split; [exact Hok|]. split; [exact Ht | exact Hs].
Defined.

(** An [ERASE] of a key the store does not hold. *)
Lemma erase_absent_key_fails_without_save_witness :
  PersistentStore.keyVals
    (PersistentStore.database_ PersistentStore.immediateStore) !! "absent"
    = None /\
  PersistentStore.processRequestMsg false 7
    (Some (PersistentStore.mk_StoreRequest PersistentStore.ERASE "absent" ""))
    PersistentStore.immediateStore
  = (PersistentStore.mk_StoreResponse false "absent" "",
     PersistentStore.immediateStore).
Proof.
  split; [reflexivity|].
  apply (erase_absent_key_fails_without_save false 7 "absent" ""
           PersistentStore.immediateStore).
  reflexivity.
Defined.

(** [eth0] goes down under [route10]: the route is deleted. *)
Lemma processInterfaceDb_filters_routes_witness :
  Fib.unicastNextHopsNamed (Fib.unicastRoutes (Fib.routeDb_ Fib.stateRoute10))
  /\
  exists (s1 : Fib.t) (delta : Fib.RouteDatabaseDelta),
    Fib.filterRoutesByInterfaceDb Fib.sampleUtil Fib.eth0Down Fib.stateRoute10
      = Some (s1, delta) /\
    Fib.unicastRoutes (Fib.routeDb_ s1) = [] /\
    Fib.unicastRoutesToDelete delta = [Fib.UnicastRoute.dest Fib.route10].
Proof.
  assert (Hnamed : Fib.unicastNextHopsNamed
                     (Fib.unicastRoutes (Fib.routeDb_ Fib.stateRoute10))).
  { repeat constructor. eexists. reflexivity. }
  split; [exact Hnamed|].
  destruct (processInterfaceDb_filters_routes Fib.sampleConfig Fib.sampleUtil
              Fib.agentUp Fib.eth0Down Fib.stateRoute10 Hnamed)
    as (_ & _ & s1 & delta & Hf & _ & _ & Hu & _ & _ & Hd & _).
  exists s1, delta. split; [exact Hf|].
  rewrite Hu, Hd. split; vm_compute; reflexivity.
Defined.

(** The first publication reports [eth0] down: [route10] keeps its
    nexthop. *)
Lemma first_report_is_never_affected_witness :
  (Fib.interfaceStatusDb_ Fib.stateBeforeFirstReport !! "eth0" = None /\
   "eth0" ∉ Fib.affectedInterfaces Fib.eth0Down Fib.stateBeforeFirstReport) /\
  (Fib.interfaceStatusDb_ Fib.stateBeforeFirstReport = ∅ /\
   exists (s1 : Fib.t) (delta : Fib.RouteDatabaseDelta),
     Fib.processInterfaceDb Fib.sampleConfig Fib.sampleUtil Fib.agentUp
       Fib.eth0Down Fib.stateBeforeFirstReport
       = Some (Fib.updateRoutes Fib.sampleConfig Fib.sampleUtil Fib.agentUp
                 delta s1) /\
     Fib.unicastRoutes
       (Fib.routeDb_ (Fib.updateRoutes Fib.sampleConfig Fib.sampleUtil
                        Fib.agentUp delta s1))
     = [Fib.route10]).
Proof.
  destruct (first_report_is_never_affected Fib.sampleConfig Fib.sampleUtil
              Fib.agentUp Fib.eth0Down Fib.stateBeforeFirstReport)
    as (Hname & _ & _ & Hfirst).
  assert (Hempty : Fib.interfaceStatusDb_ Fib.stateBeforeFirstReport = ∅)
    by reflexivity.
  split.
  - split; [reflexivity|]. apply (Hname "eth0"). reflexivity.
  - split; [exact Hempty|].
    destruct (Hfirst Hempty) as (_ & s1 & delta & _ & Hp & Hu & _).
    { repeat constructor. eexists. reflexivity. }
    exists s1, delta. split; [exact Hp|]. rewrite Hu. reflexivity.
Defined.

(** A snapshot with [route10] and the do-not-install [hiddenRoute]. *)
Lemma processRouteDb_partitions_doNotInstall_witness :
  let s' := fst (Fib.processRouteDb Fib.sampleConfig Fib.sampleUtil
                   Fib.agentUp
                   (Fib.mk_RouteDatabase "node1"
                      [Fib.route10; Fib.hiddenRoute] [])
                   (Fib.init Fib.sampleConfig)) in
  Fib.unicastRoutes (Fib.routeDb_ s') = [Fib.route10] /\
  Fib.processRequestMsg (Some Fib.ROUTE_DB_UNINSTALLABLE_GET) s'
    = Fib.RouteDbResponse (Fib.mk_RouteDatabase "" [Fib.hiddenRoute] []).
Proof.
  destruct (processRouteDb_partitions_doNotInstall Fib.sampleConfig
              Fib.sampleUtil Fib.agentUp
              (Fib.mk_RouteDatabase "node1" [Fib.route10; Fib.hiddenRoute] [])
              (Fib.init Fib.sampleConfig))
    as (_ & Hdb & _ & _ & _ & _ & _ & Hget).
  cbv zeta. rewrite Hdb, Hget. split; reflexivity.
Defined.
(** * Further properties of the code *)

(** ** Netlink route encoder: byte order and labels *)

Section NetlinkByteOrder.

Import Netlink.

Lemma testbit_0xFF (m : Z) : Z.testbit 0xFF m = (0 <=? m) && (m <? 8).
Proof.
  change 0xFF with (Z.ones 8). apply Z.testbit_ones. lia.
Qed.

Lemma testbit_0xFF00 (m : Z) : Z.testbit 0xFF00 m = (8 <=? m) && (m <? 16).
Proof.
  change 0xFF00 with (Z.shiftl (Z.ones 8) 8).
  destruct (Z.leb_spec 8 m) as [Hm|Hm].
  - rewrite Z.shiftl_spec by lia. rewrite Z.testbit_ones by lia.
    destruct (Z.leb_spec 0 (m - 8)), (Z.ltb_spec (m - 8) 8),
      (Z.ltb_spec m 16); simpl; lia.
  - destruct (Z.le_gt_cases 0 m) as [H0|H0].
    + rewrite Z.shiftl_spec_low by lia. reflexivity.
    + rewrite Z.testbit_neg_r by lia. reflexivity.
Qed.

(** Bit [n] of the byte-swapped word. *)
Lemma bswap_32_testbit (x n : Z) :
  0 <= n ->
  Z.testbit (bswap_32 x) n =
  if n <? 8 then Z.testbit x (n + 24)
  else if n <? 16 then Z.testbit x (n + 8)
  else if n <? 24 then Z.testbit x (n - 8)
  else if n <? 32 then Z.testbit x (n - 24)
  else false.
Proof.
  intros Hn. unfold bswap_32.
  rewrite !Z.lor_spec, !Z.land_spec, !Z.shiftl_spec, !Z.land_spec,
    !Z.shiftr_spec, !testbit_0xFF, !testbit_0xFF00 by lia.
  destruct (Z.ltb_spec n 8), (Z.ltb_spec n 16), (Z.ltb_spec n 24),
    (Z.ltb_spec n 32); try lia;
  repeat match goal with
  | |- context [?a <=? ?b] => destruct (Z.leb_spec a b); try lia
  | |- context [?a <? ?b] => destruct (Z.ltb_spec a b); try lia
  end;
  rewrite ?andb_false_r, ?andb_true_r, ?orb_false_r, ?orb_false_l;
  reflexivity.
Qed.

Lemma testbit_above (x k n : Z) :
  0 <= x < 2 ^ k -> 0 <= k <= n -> Z.testbit x n = false.
Proof.
  intros Hx Hk. rewrite <- (Z.mod_small x (2 ^ k)) by lia.
  apply Z.mod_pow2_bits_high. lia.
Qed.

Lemma bswap_32_involutive (x : Z) :
  0 <= x < 2 ^ 32 -> bswap_32 (bswap_32 x) = x.
Proof.
  intros Hx. apply Z.bits_inj'. intros n Hn.
  rewrite bswap_32_testbit by lia.
  destruct (Z.ltb_spec n 8); [rewrite bswap_32_testbit by lia|
  destruct (Z.ltb_spec n 16); [rewrite bswap_32_testbit by lia|
  destruct (Z.ltb_spec n 24); [rewrite bswap_32_testbit by lia|
  destruct (Z.ltb_spec n 32); [rewrite bswap_32_testbit by lia|]]]];
  repeat match goal with
  | |- context [?a <? ?b] => destruct (Z.ltb_spec a b); try lia
  end;
  try (f_equal; lia).
  symmetry. apply (testbit_above x 32); lia.
Qed.

Lemma bswap_32_lor (a b : Z) :
  bswap_32 (Z.lor a b) = Z.lor (bswap_32 a) (bswap_32 b).
Proof.
  apply Z.bits_inj'. intros n Hn.
  rewrite Z.lor_spec, !bswap_32_testbit by lia.
  repeat match goal with
  | |- context [?a <? ?b] => destruct (Z.ltb_spec a b); try lia
  end;
  rewrite ?Z.lor_spec; reflexivity.
Qed.

Variable P : Platform.

(** [htonl] undoes itself on 32-bit words: [ntohl] is the same function. *)
Lemma htonl_involutive (x : Z) :
  0 <= x < 2 ^ 32 -> htonl P (htonl P x) = x.
Proof.
  intros Hx. unfold htonl.
  destruct (hostLittleEndian P); [by apply bswap_32_involutive | done].
Qed.

Lemma htonl_lor (a b : Z) :
  htonl P (Z.lor a b) = Z.lor (htonl P a) (htonl P b).
Proof.
  unfold htonl. destruct (hostLittleEndian P); [apply bswap_32_lor | done].
Qed.

Lemma htonl_packLabel (L : Z) (bos : bool) :
  0 <= L < 2 ^ 20 ->
  htonl P (packLabel P L bos) =
  Z.lor (Z.shiftl L 12) (if bos then Z.shiftl 1 8 else 0).
Proof.
  intros HL. unfold packLabel, kLabelShift, kLabelBosShift.
  assert (Hw : uint32 (Z.shiftl L 12) = Z.shiftl L 12).
  { unfold uint32. rewrite Z.shiftl_mul_pow2 by lia.
    apply Z.mod_small. lia. }
  assert (Hr : 0 <= Z.shiftl L 12 < 2 ^ 32).
  { rewrite Z.shiftl_mul_pow2 by lia. lia. }
  rewrite Hw. change (uint32 (Z.shiftl 1 8)) with (Z.shiftl 1 8).
  destruct bos.
  - rewrite htonl_lor, (htonl_involutive (Z.shiftl L 12)) by exact Hr.
    rewrite (htonl_involutive (Z.shiftl 1 8)) by (vm_compute; intuition congruence).
    reflexivity.
  - rewrite htonl_involutive by exact Hr. by rewrite Z.lor_0_r.
Qed.

(** X1.  For a label [L] in [0, 2^20), [encodeLabel L bos] returns, without
    logging, an entry that read back in host byte order ([ntohl], which is
    the function [htonl]) is the MPLS label stack entry of [L]: the label in
    the bits 12 to 31, the bottom-of-stack bit (bit 8) equal to [bos], and
    the traffic class (bits 9 to 11) and the TTL (bits 0 to 7) zero. *)
Theorem encodeLabel_entry_reads_back (L : Z) (bos : bool) :
  0 <= L < 2 ^ 20 ->
  exists entry,
    encodeLabel P L bos = ret entry /\
    htonl P entry = Z.lor (Z.shiftl L 12) (if bos then Z.shiftl 1 8 else 0) /\
    Z.shiftr (htonl P entry) 12 = L /\
    Z.testbit (htonl P entry) 8 = bos /\
    Z.land (htonl P entry) 0xEFF = 0.
Proof.
  intros HL. exists (packLabel P L bos).
  split.
  { rewrite encodeLabel_eq.
    destruct (Z.gtb_spec L 0xFFFFF); [lia | reflexivity]. }
  rewrite htonl_packLabel by exact HL.
  split; [reflexivity|].
  assert (Hb : 0 <= (if bos then Z.shiftl 1 8 else 0) < 2 ^ 12)
    by (destruct bos; [change (Z.shiftl 1 8) with 256|]; lia).
  split; [|split].
  - rewrite Z.shiftr_lor, (Z.shiftr_shiftl_l L 12 12) by lia.
    rewrite Z.sub_diag, Z.shiftl_0_r.
    rewrite (Z.shiftr_div_pow2 (if bos then _ else _)) by lia.
    rewrite Z.div_small by exact Hb. apply Z.lor_0_r.
  - rewrite Z.lor_spec, Z.shiftl_spec_low by lia.
    destruct bos; reflexivity.
  - rewrite Z.land_lor_distr_l.
    assert (Hlow : Z.land (Z.shiftl L 12) 0xEFF = 0).
    { apply Z.bits_inj'. intros n Hn. rewrite Z.land_spec, Z.bits_0.
      destruct (Z.lt_ge_cases n 12) as [Hlt|Hge].
      - by rewrite Z.shiftl_spec_low.
      - rewrite (testbit_above 0xEFF 12 n) by lia. apply andb_false_r. }
    rewrite Hlow. by destruct bos.
Qed.

End NetlinkByteOrder.

Lemma encodeLabel_entry_reads_back_witness :
  0 <= 16 < 2 ^ 20 /\
  exists entry,
    Netlink.encodeLabel Netlink.linuxHost 16 true = ret entry /\
    Netlink.htonl Netlink.linuxHost entry =
      Z.lor (Z.shiftl 16 12) (Z.shiftl 1 8) /\
    Z.shiftr (Netlink.htonl Netlink.linuxHost entry) 12 = 16 /\
    Z.testbit (Netlink.htonl Netlink.linuxHost entry) 8 = true /\
    Z.land (Netlink.htonl Netlink.linuxHost entry) 0xEFF = 0.
Proof.
  assert (H : 0 <= 16 < 2 ^ 20) by lia.
  split; [exact H|].
  exact (encodeLabel_entry_reads_back Netlink.linuxHost 16 true H).
Defined.

(** ** Netlink route encoder: nexthops *)

Section NetlinkNexthops.

Import Netlink.

Variable P : Platform.

Lemma addSubAttributes_outcome (rta : NhopBuf) (type : Z) (data : Payload)
    (len : Z) :
  outcome (addSubAttributes P rta type data len) =
  Returned
    (if RTA_ALIGN (nh_rta_len rta) + RTA_ALIGN (RTA_LENGTH len)
          >? kMaxNlPayloadSize P
     then (None, rta)
     else (Some (length (nh_subattrs rta)),
           mk_nhop (NLMSG_ALIGN (nh_rta_len rta) + RTA_ALIGN (RTA_LENGTH len))
                   (nh_rta_type rta)
                   (nh_subattrs rta ++ [mk_rtattr (RTA_LENGTH len) type data]))).
Proof.
  unfold addSubAttributes.
  destruct (_ >? _); reflexivity.
Qed.

Lemma addAttributes_outcome (type : Z) (data : MsgPayload) (len : Z)
    (msg : NlMsg) :
  outcome (addAttributes P type data len msg) =
  Returned
    (if NLMSG_ALIGN (nlmsg_len msg) + RTA_ALIGN (RTA_LENGTH len)
          >? kMaxNlPayloadSize P
     then (NO_MESSAGE_BUFFER, msg)
     else (SUCCESS,
           mk_msg (NLMSG_ALIGN (nlmsg_len msg) + RTA_ALIGN (RTA_LENGTH len))
                  (nlmsg_type msg) (nlmsg_flags msg) (rtm_family msg)
                  (rtm_dst_len msg) (rtm_src_len msg) (rtm_tos msg)
                  (rtm_table msg) (rtm_protocol msg) (rtm_scope msg)
                  (rtm_type msg) (rtm_flags msg)
                  (attrs msg ++ [mk_nlattr (RTA_LENGTH len) type data]))).
Proof.
  unfold addAttributes.
  destruct (_ >? _); reflexivity.
Qed.

Lemma outcome_log_error (msg : string) (args : list Z) :
  outcome (log_error msg args) = Returned tt.
Proof. reflexivity. Qed.

Lemma outcome_value {A} (o : option A) :
  outcome (value o) =
  match o with
  | Some a => Returned a
  | None => Threw OptionalEmptyException
  end.
Proof. by destruct o. Qed.

(** Running an encoder symbolically: the outcome of a hypothesis [H] is
    computed step by step, with a case distinction at every test. *)
Ltac run_in H :=
  repeat first
    [ discriminate H
    | progress rewrite ?outcome_bind, ?addSubAttributes_outcome,
        ?addAttributes_outcome, ?encodeLabel_outcome, ?outcome_ret,
        ?outcome_log_error, ?outcome_value in H
    | progress cbn beta iota in H
    | match type of H with
      | context [if ?a >? ?b then _ else _] => destruct (Z.gtb_spec a b)
      | context [if ?b then _ else _] => destruct b eqn:?
      | context [match ?o with Some _ => _ | None => _ end] =>
          destruct o eqn:?
      | context [outcome (pushLabels ?p ?a ?b ?c ?d)] =>
          destruct (outcome (pushLabels p a b c d)) eqn:?
      end ].

Ltac aligned_lia :=
  cbn [nh_rta_len rtnh_len rtnh_flags rtnh_hops rtnh_ifindex set_rtnh_len
       set_sub_rta_len] in *;
  unfold RTNH_ALIGN, RTA_LENGTH in *;
  change (Z.land (?x + 3) (Z.lnot 3)) with (RTA_ALIGN x) in *;
  change (RTA_ALIGN sizeof_rtattr) with 4 in *;
  unfold sizeof_mpls_label, sizeof_uint16, sizeof_int, sizeof_rtattr,
         sizeof_rtnexthop in *;
  rewrite ?NLMSG_ALIGN_eq, ?RTA_ALIGN_eq in *;
  Z.div_mod_to_equations; lia.


(** What every encoder of a nexthop keeps, when it succeeds: the container
    has grown by what [RTNH_NEXT] will step over, and stays aligned; the
    header carries the interface index of the path. *)
Lemma addIpNexthop_lengths (rta rta' : NhopBuf) (rtnh rtnh' : rtnexthop)
    (path : NextHop.t) (route : Route.t) :
  nh_rta_len rta mod 4 = 0 ->
  outcome (addIpNexthop P rta rtnh path route) = Returned (SUCCESS, rta', rtnh') ->
  nh_rta_len rta' =
    nh_rta_len rta - sizeof_rtnexthop + RTNH_ALIGN (rtnh_len rtnh') /\
  nh_rta_len rta' mod 4 = 0 /\
  NextHop.getIfIndex path = Some (rtnh_ifindex rtnh') /\
  rtnh_flags rtnh' = 0 /\ rtnh_hops rtnh' = 0.
Proof.
  intros Hal H. unfold addIpNexthop in H. run_in H.
  all: injection H as <- <-.
  all: repeat split; try reflexivity; aligned_lia.
Qed.

Lemma addPopNexthop_lengths (rta rta' : NhopBuf) (rtnh rtnh' : rtnexthop)
    (path : NextHop.t) :
  nh_rta_len rta mod 4 = 0 ->
  outcome (addPopNexthop P rta rtnh path) = Returned (SUCCESS, rta', rtnh') ->
  nh_rta_len rta' =
    nh_rta_len rta - sizeof_rtnexthop + RTNH_ALIGN (rtnh_len rtnh') /\
  nh_rta_len rta' mod 4 = 0 /\
  NextHop.getIfIndex path = Some (rtnh_ifindex rtnh') /\
  rtnh_flags rtnh' = 0 /\ rtnh_hops rtnh' = 0.
Proof.
  intros Hal H. unfold addPopNexthop in H. run_in H.
  all: injection H as <- <-.
  all: repeat split; try reflexivity; aligned_lia.
Qed.

Lemma addSwapOrPHPNexthop_lengths (rta rta' : NhopBuf) (rtnh rtnh' : rtnexthop)
    (path : NextHop.t) :
  nh_rta_len rta mod 4 = 0 ->
  outcome (addSwapOrPHPNexthop P rta rtnh path) =
    Returned (SUCCESS, rta', rtnh') ->
  nh_rta_len rta' =
    nh_rta_len rta - sizeof_rtnexthop + RTNH_ALIGN (rtnh_len rtnh') /\
  nh_rta_len rta' mod 4 = 0 /\
  NextHop.getIfIndex path = Some (rtnh_ifindex rtnh') /\
  rtnh_flags rtnh' = 0 /\ rtnh_hops rtnh' = 0.
Proof.
  intros Hal H. unfold addSwapOrPHPNexthop in H. run_in H.
  all: injection H as <- <-.
  all: repeat split; try reflexivity; aligned_lia.
Qed.

Lemma addLabelNexthop_lengths (rta rta' : NhopBuf) (rtnh rtnh' : rtnexthop)
    (path : NextHop.t) :
  nh_rta_len rta mod 4 = 0 ->
  outcome (addLabelNexthop P rta rtnh path) = Returned (SUCCESS, rta', rtnh') ->
  nh_rta_len rta' =
    nh_rta_len rta - sizeof_rtnexthop + RTNH_ALIGN (rtnh_len rtnh') /\
  nh_rta_len rta' mod 4 = 0 /\
  NextHop.getIfIndex path = Some (rtnh_ifindex rtnh') /\
  rtnh_flags rtnh' = 0 /\ rtnh_hops rtnh' = 0.
Proof.
  intros Hal H. unfold addLabelNexthop in H. run_in H.
  all: injection H as <- <-.
  all: repeat split; try reflexivity; aligned_lia.
Qed.

Lemma addMultiPathNexthop_loop_lengths (route : Route.t)
    (paths : list NextHop.t) :
  forall (rta : NhopBuf) (rtnhs : list rtnexthop) (result : ResultCode)
         (rta' : NhopBuf) (rtnhs' : list rtnexthop),
  nh_rta_len rta mod 4 = 0 ->
  outcome (addMultiPathNexthop_loop P route paths rta rtnhs result) =
    Returned (SUCCESS, rta', rtnhs') ->
  exists new,
    rtnhs' = rtnhs ++ new /\
    nh_rta_len rta' = nh_rta_len rta + rtnhBytes new /\
    Forall2 (fun path rtnh =>
               NextHop.getIfIndex path = Some (rtnh_ifindex rtnh) /\
               rtnh_flags rtnh = 0 /\ rtnh_hops rtnh = 0)
            paths new.
Proof.
  induction paths as [|path paths IH]; intros rta rtnhs result rta' rtnhs' Hal H.
  - cbn [addMultiPathNexthop_loop] in H. rewrite outcome_ret in H.
    injection H as _ <- <-. exists []. rewrite app_nil_r.
    split; [reflexivity|]. split; [cbn; lia | constructor].
  - cbn [addMultiPathNexthop_loop] in H.
    unfold sizeof_rtnexthop in H |- *. cbn [rtnh_len] in H.
    set (rta1 := mk_nhop (nh_rta_len rta + 8) (nh_rta_type rta)
                         (nh_subattrs rta)) in H.
    assert (Hal1 : nh_rta_len rta1 mod 4 = 0).
    { subst rta1. cbn [nh_rta_len]. Z.div_mod_to_equations. lia. }
    assert (Hstep : forall call,
      (forall rta2 rtnh2,
         outcome call = Returned (SUCCESS, rta2, rtnh2) ->
         nh_rta_len rta2 =
           nh_rta_len rta1 - 8 + RTNH_ALIGN (rtnh_len rtnh2) /\
         nh_rta_len rta2 mod 4 = 0 /\
         NextHop.getIfIndex path = Some (rtnh_ifindex rtnh2) /\
         rtnh_flags rtnh2 = 0 /\ rtnh_hops rtnh2 = 0) ->
      outcome
        (let* r := call in
         let '(result, rta, rtnh) := r in
         if decide (result = SUCCESS)
         then addMultiPathNexthop_loop P route paths rta (rtnhs ++ [rtnh])
                                       result
         else ret (result, rta, rtnhs ++ [rtnh])) =
        Returned (SUCCESS, rta', rtnhs') ->
      exists new,
        rtnhs' = rtnhs ++ new /\
        nh_rta_len rta' = nh_rta_len rta + rtnhBytes new /\
        Forall2 (fun path rtnh =>
                   NextHop.getIfIndex path = Some (rtnh_ifindex rtnh) /\
                   rtnh_flags rtnh = 0 /\ rtnh_hops rtnh = 0)
                (path :: paths) new).
    { intros call Hcall Hrun. rewrite outcome_bind in Hrun.
      destruct (outcome call) as [[[code rta2] rtnh2]|e] eqn:Hc; [|discriminate].
      destruct (decide (code = SUCCESS)) as [->|Hne].
      - destruct (Hcall rta2 rtnh2 eq_refl) as (Hlen & Hal2 & Hif).
        destruct (IH _ _ _ _ _ Hal2 Hrun) as (new & -> & Hlen' & Hall).
        exists (rtnh2 :: new). rewrite <- app_assoc. split; [reflexivity|].
        split; [|by constructor].
        rewrite Hlen', Hlen. subst rta1.
        unfold rtnhBytes. cbn [foldr nh_rta_len rtnh_len]. lia.
      - rewrite outcome_ret in Hrun. congruence. }
    destruct (NextHop.getLabelAction path) as [[| | | |code]|].
    + apply (Hstep _ (fun rta2 rtnh2 => addLabelNexthop_lengths _ _ _ _ _ Hal1) H).
    + apply (Hstep _ (fun rta2 rtnh2 => addSwapOrPHPNexthop_lengths _ _ _ _ _ Hal1) H).
    + apply (Hstep _ (fun rta2 rtnh2 => addSwapOrPHPNexthop_lengths _ _ _ _ _ Hal1) H).
    + apply (Hstep _ (fun rta2 rtnh2 => addPopNexthop_lengths _ _ _ _ _ Hal1) H).
    + rewrite outcome_bind, outcome_log_error, outcome_ret in H. discriminate.
    + apply (Hstep _ (fun rta2 rtnh2 => addIpNexthop_lengths _ _ _ _ _ _ Hal1) H).
Qed.

(** X2.  When [addMultiPathNexthop] succeeds, the [RTA_MULTIPATH] container
    holds one [rtnexthop] header per nexthop of the route, in order, each
    with the interface index of its nexthop and with flags and hops zero, and
    the [rta_len] of the container is its own header plus what [RTNH_NEXT]
    steps over in walking these headers ([RTNH_ALIGN] of every
    [rtnh_len]): the lengths the encoders add to the container and to the
    headers agree. *)
Theorem addMultiPathNexthop_lengths_agree (route : Route.t) (nhop : NhopBuf)
    (rtnhs : list rtnexthop) :
  outcome (addMultiPathNexthop P route) = Returned (SUCCESS, nhop, rtnhs) ->
  nh_rta_len nhop = RTA_LENGTH 0 + rtnhBytes rtnhs /\
  Forall2 (fun path rtnh =>
             NextHop.getIfIndex path = Some (rtnh_ifindex rtnh) /\
             rtnh_flags rtnh = 0 /\ rtnh_hops rtnh = 0)
          (Route.getNextHops route) rtnhs.
Proof.
  intros H. unfold addMultiPathNexthop in H.
  apply addMultiPathNexthop_loop_lengths in H as (new & -> & Hlen & Hall).
  - split; [exact Hlen | exact Hall].
  - reflexivity.
Qed.

(** X3.  A route whose first nexthop has no interface index: for the action
    [POP_AND_LOOKUP] [addNextHops] returns [NO_LOOPBACK_INDEX], for a label
    action outside the four cases [UNKNOWN_LABEL_ACTION], and in every other
    case (plain IP, [PUSH], [SWAP], [PHP]) [getIfIndex().value()] throws and
    the exception leaves [addNextHops].  In the two cases that return, the
    message is as it was. *)
Theorem addNextHops_first_nexthop_without_interface_index (route : Route.t)
    (msg : NlMsg) (path : NextHop.t) (rest : list NextHop.t) :
  Route.getNextHops route = path :: rest ->
  NextHop.getIfIndex path = None ->
  outcome (addNextHops P route msg) =
  match NextHop.getLabelAction path with
  | Some POP_AND_LOOKUP => Returned (NO_LOOPBACK_INDEX, msg)
  | Some (OtherAction _) => Returned (UNKNOWN_LABEL_ACTION, msg)
  | _ => Threw OptionalEmptyException
  end.
Proof.
  intros Hpaths Hif. unfold addNextHops, addMultiPathNexthop.
  rewrite Hpaths. cbn [addMultiPathNexthop_loop].
  rewrite outcome_bind.
  destruct (NextHop.getLabelAction path) as [[| | | |code]|];
    rewrite outcome_bind;
    unfold addLabelNexthop, addSwapOrPHPNexthop, addPopNexthop, addIpNexthop;
    rewrite ?Hif; try reflexivity.
Qed.

(** X4.  The loop of [addMultiPathNexthop] over the nexthops [paths]
    followed by [rest] is the loop over [paths] and then, if every one of
    them was encoded, the loop over [rest] on the container and the headers
    the first left.  If a nexthop of [paths] fails, or its encoder throws,
    that is the result: no nexthop after it is looked at, and the container
    is as the failing encoder left it. *)
Theorem addMultiPathNexthop_loop_stops_at_first_failure (route : Route.t)
    (paths rest : list NextHop.t) (rta : NhopBuf) (rtnhs : list rtnexthop) :
  outcome (addMultiPathNexthop_loop P route (paths ++ rest) rta rtnhs SUCCESS)
  = match outcome (addMultiPathNexthop_loop P route paths rta rtnhs SUCCESS)
    with
    | Returned (code, rta', rtnhs') =>
        if decide (code = SUCCESS)
        then outcome (addMultiPathNexthop_loop P route rest rta' rtnhs' SUCCESS)
        else Returned (code, rta', rtnhs')
    | Threw e => Threw e
    end.
Proof.
  revert rta rtnhs. induction paths as [|path paths IH]; intros rta rtnhs.
  - cbn [app addMultiPathNexthop_loop]. rewrite outcome_ret.
    by rewrite decide_True.
  - cbn [app addMultiPathNexthop_loop].
    assert (Hstep : forall call,
      outcome
        (let* r := call in
         let '(result, rta, rtnh) := r in
         if decide (result = SUCCESS)
         then addMultiPathNexthop_loop P route (paths ++ rest) rta
                                       (rtnhs ++ [rtnh]) result
         else ret (result, rta, rtnhs ++ [rtnh]))
      = match outcome
                (let* r := call in
                 let '(result, rta, rtnh) := r in
                 if decide (result = SUCCESS)
                 then addMultiPathNexthop_loop P route paths rta
                                               (rtnhs ++ [rtnh]) result
                 else ret (result, rta, rtnhs ++ [rtnh]))
        with
        | Returned (code, rta', rtnhs') =>
            if decide (code = SUCCESS)
            then outcome (addMultiPathNexthop_loop P route rest rta' rtnhs'
                                                   SUCCESS)
            else Returned (code, rta', rtnhs')
        | Threw e => Threw e
        end).
    { intros call. rewrite !outcome_bind.
      destruct (outcome call) as [[[code rta2] rtnh2]|e]; [|reflexivity].
      destruct (decide (code = SUCCESS)) as [->|Hne].
      - apply IH.
      - rewrite outcome_ret. by rewrite decide_False. }
    destruct (NextHop.getLabelAction path) as [[| | | |code]|];
      try apply Hstep.
    rewrite outcome_bind, outcome_log_error, outcome_ret.
    by rewrite decide_False.
Qed.

(** X5.  [addSwapOrPHPNexthop] for a nexthop with an interface index.  With
    a gateway and room in the container it succeeds and appends, for a swap
    label, [RTA_NEWDST] with the one entry [encodeLabel] makes of the label,
    bottom-of-stack set, and then [RTA_VIA] with the address family and the
    gateway; without a swap label (PHP) it appends [RTA_VIA] alone.  The
    length of [RTA_VIA] is that of [nextHopV4] for the family [AF_INET] and
    that of [nextHop] for every other family.  Without a gateway
    [getGateway().value()] throws, once [RTA_NEWDST] has found room. *)
Theorem addSwapOrPHPNexthop_attributes (rta : NhopBuf) (rtnh : rtnexthop)
    (path : NextHop.t) (ifIndex : Z) :
  NextHop.getIfIndex path = Some ifIndex ->
  let viaLen := if NextHop.getFamily path =? AF_INET then sizeof_nextHopV4 P
                else sizeof_nextHop P in
  let newdst :=
    match NextHop.getSwapLabel path with
    | Some label =>
        [mk_rtattr (RTA_LENGTH sizeof_mpls_label) RTA_NEWDST
                   (P_labels [packLabel P (clampLabel label) true])]
    | None => []
    end in
  let newdstLen :=
    match NextHop.getSwapLabel path with
    | Some _ => RTA_ALIGN (RTA_LENGTH sizeof_mpls_label)
    | None => 0
    end in
  (forall gw,
     NextHop.getGateway path = Some gw ->
     0 <= viaLen ->
     RTA_ALIGN (nh_rta_len rta) + newdstLen + RTA_ALIGN (RTA_LENGTH viaLen)
       <= kMaxNlPayloadSize P ->
     exists rta' rtnh',
       outcome (addSwapOrPHPNexthop P rta rtnh path) =
         Returned (SUCCESS, rta', rtnh') /\
       nh_subattrs rta' =
         nh_subattrs rta ++ newdst ++
         [mk_rtattr (RTA_LENGTH viaLen) RTA_VIA
                    (P_via (NextHop.getFamily path) gw)] /\
       rtnh_ifindex rtnh' = ifIndex) /\
  (NextHop.getGateway path = None ->
   RTA_ALIGN (nh_rta_len rta) + newdstLen <= kMaxNlPayloadSize P ->
   outcome (addSwapOrPHPNexthop P rta rtnh path) =
     Threw OptionalEmptyException).
Proof.
  intros Hif viaLen newdst newdstLen. split.
  - intros gw Hgw Hvia Hroom. unfold addSwapOrPHPNexthop.
    rewrite Hif, Hgw. fold viaLen. subst newdst newdstLen.
    rewrite outcome_bind, outcome_value. cbn beta iota.
    destruct (NextHop.getSwapLabel path) as [label|].
    + rewrite !outcome_bind, encodeLabel_outcome. cbn beta iota.
      rewrite addSubAttributes_outcome.
      destruct (Z.gtb_spec (RTA_ALIGN (nh_rta_len rta)
                            + RTA_ALIGN (RTA_LENGTH sizeof_mpls_label))
                           (kMaxNlPayloadSize P)) as [Hgt|_];
        [aligned_lia|].
      cbn beta iota. rewrite outcome_bind, outcome_value. cbn beta iota.
      rewrite outcome_bind, addSubAttributes_outcome.
      cbn [nh_rta_len nh_rta_type nh_subattrs].
      destruct (Z.gtb_spec
                  (RTA_ALIGN (NLMSG_ALIGN (nh_rta_len rta)
                              + RTA_ALIGN (RTA_LENGTH sizeof_mpls_label))
                   + RTA_ALIGN (RTA_LENGTH viaLen))
                  (kMaxNlPayloadSize P)) as [Hgt|_];
        [aligned_lia|].
      cbn beta iota. rewrite outcome_ret. eexists _, _.
      split; [reflexivity|]. cbn [nh_subattrs rtnh_ifindex set_rtnh_len].
      split; [by rewrite <- app_assoc | reflexivity].
    + rewrite !outcome_bind, outcome_ret. cbn beta iota.
      rewrite outcome_bind, outcome_value. cbn beta iota.
      rewrite outcome_bind, addSubAttributes_outcome.
      destruct (Z.gtb_spec (RTA_ALIGN (nh_rta_len rta)
                            + RTA_ALIGN (RTA_LENGTH viaLen))
                           (kMaxNlPayloadSize P)) as [Hgt|_]; [lia|].
      cbn beta iota. rewrite outcome_ret. eexists _, _.
      split; [reflexivity|]. cbn [nh_subattrs rtnh_ifindex set_rtnh_len].
      split; reflexivity.
  - intros Hgw Hroom. unfold addSwapOrPHPNexthop.
    rewrite Hif, Hgw. subst newdstLen.
    rewrite outcome_bind, outcome_value. cbn beta iota.
    destruct (NextHop.getSwapLabel path) as [label|].
    + rewrite !outcome_bind, encodeLabel_outcome. cbn beta iota.
      rewrite addSubAttributes_outcome.
      destruct (Z.gtb_spec (RTA_ALIGN (nh_rta_len rta)
                            + RTA_ALIGN (RTA_LENGTH sizeof_mpls_label))
                           (kMaxNlPayloadSize P)) as [Hgt|_]; [lia|].
      cbn beta iota. rewrite outcome_bind, outcome_value. reflexivity.
    + rewrite !outcome_bind, outcome_ret. cbn beta iota.
      rewrite outcome_bind, outcome_value. reflexivity.
Qed.

(** X6.  [addNextHops] on a message that has been initialised ([nlmsg_len]
    is at least the length of the two headers), for a route whose container
    stays within the [nhop] array (whatever [addMultiPathNexthop] returns,
    the [rta_len] of the container is within [kMaxNlPayloadSize]).  Whenever
    it returns, the message is as it was unless the route has nexthops and
    all of them were encoded: a result other than [SUCCESS], from the first
    nexthop that fails or from a message buffer that cannot take the
    container, leaves every field of the message unchanged.  On success with
    nexthops the message has grown by exactly one attribute,
    [RTA_MULTIPATH], placed after the headers and the attributes it held,
    whose length is the [rta_len] of the container [addMultiPathNexthop]
    built and whose payload are the headers and sub-attributes of that
    container; no header field changes. *)
Theorem addNextHops_one_attribute_or_none (route : Route.t) (msg msg' : NlMsg)
    (code : ResultCode) :
  NLMSG_LENGTH sizeof_rtmsg <= nlmsg_len msg ->
  (forall code' nhop rtnhs,
     outcome (addMultiPathNexthop P route) = Returned (code', nhop, rtnhs) ->
     nh_rta_len nhop <= kMaxNlPayloadSize P) ->
  outcome (addNextHops P route msg) = Returned (code, msg') ->
  (code <> SUCCESS \/ Route.getNextHops route = [] -> msg' = msg) /\
  (code = SUCCESS -> Route.getNextHops route <> [] ->
   exists nhop rtnhs,
     outcome (addMultiPathNexthop P route) = Returned (SUCCESS, nhop, rtnhs) /\
     nh_rta_len nhop <= kMaxNlPayloadSize P /\
     NLMSG_LENGTH sizeof_rtmsg
       <= NLMSG_ALIGN (nlmsg_len msg) /\
     NLMSG_ALIGN (nlmsg_len msg) + RTA_ALIGN (nh_rta_len nhop)
       <= kMaxNlPayloadSize P /\
     msg' =
       mk_msg (NLMSG_ALIGN (nlmsg_len msg) + RTA_ALIGN (nh_rta_len nhop))
              (nlmsg_type msg) (nlmsg_flags msg) (rtm_family msg)
              (rtm_dst_len msg) (rtm_src_len msg) (rtm_tos msg)
              (rtm_table msg) (rtm_protocol msg) (rtm_scope msg)
              (rtm_type msg) (rtm_flags msg)
              (attrs msg ++
               [mk_nlattr (nh_rta_len nhop) RTA_MULTIPATH
                          (MP_multipath rtnhs (nh_subattrs nhop))])).
Proof.
  intros Hinit Hbound H. unfold addNextHops in H.
  destruct (Route.getNextHops route) as [|path rest] eqn:Hpaths.
  { rewrite outcome_ret in H. injection H as <- <-.
    split; [reflexivity | intros _ Hne; congruence]. }
  rewrite outcome_bind in H.
  destruct (outcome (addMultiPathNexthop P route))
    as [[[status nhop] rtnhs]|e] eqn:Hm; [|discriminate].
  destruct (decide (status = SUCCESS)) as [->|Hne].
  - rewrite addAttributes_outcome in H.
    assert (Hlen : RTA_LENGTH (nh_rta_len nhop - RTA_LENGTH 0) = nh_rta_len nhop).
    { unfold RTA_LENGTH. change (RTA_ALIGN sizeof_rtattr) with 4. lia. }
    rewrite Hlen in H.
    destruct (Z.gtb_spec (NLMSG_ALIGN (nlmsg_len msg)
                          + RTA_ALIGN (nh_rta_len nhop))
                         (kMaxNlPayloadSize P)) as [Hgt|Hle];
      injection H as <- <-.
    + split; [reflexivity | intros Hc; discriminate].
    + split; [intros [Hc|Hc]; congruence|].
      intros _ _. exists nhop, rtnhs.
      split; [reflexivity|]. split; [by apply (Hbound SUCCESS nhop rtnhs)|].
      split; [|by split].
      revert Hinit. unfold NLMSG_LENGTH, sizeof_rtmsg.
      change (NLMSG_ALIGN sizeof_nlmsghdr) with 16.
      rewrite NLMSG_ALIGN_eq. intros Hinit. Z.div_mod_to_equations. lia.
  - rewrite outcome_ret in H. injection H as <- <-.
    split; [reflexivity | intros Hc; contradiction].
Qed.




Lemma family_check (family : Z) :
  negb (family =? AF_INET) && negb (family =? AF_INET6) = true <->
  family <> AF_INET /\ family <> AF_INET6.
Proof.
  destruct (Z.eqb_spec family AF_INET), (Z.eqb_spec family AF_INET6);
    cbn; intuition congruence.
Qed.


(** X8.  The two delete operations on a fresh message never throw and never
    encode a nexthop, whatever nexthops the route has.  [deleteRoute]
    returns [INVALID_ADDRESS_FAMILY] exactly for a family that is neither
    [AF_INET] nor [AF_INET6], leaving the message untouched, and otherwise
    [SUCCESS] or [NO_MESSAGE_BUFFER]; [deleteLabelRoute] does not look at the
    family of the route and returns [NO_LABEL] exactly for a route without
    label, and otherwise [SUCCESS] or [NO_MESSAGE_BUFFER].  The request is
    [RTM_DELROUTE] without [NLM_F_CREATE], and on success its only attribute
    is [RTA_DST], with the address bytes or the encoded label. *)
Theorem delete_operations_results (route : Route.t) :
  (exists code msg',
     outcome (deleteRoute P route emptyMsg) = Returned (code, msg') /\
     (code = INVALID_ADDRESS_FAMILY <->
      Route.getFamily route <> AF_INET /\ Route.getFamily route <> AF_INET6) /\
     (code = SUCCESS \/ code = NO_MESSAGE_BUFFER \/
      code = INVALID_ADDRESS_FAMILY) /\
     (code = INVALID_ADDRESS_FAMILY -> msg' = emptyMsg) /\
     (code <> INVALID_ADDRESS_FAMILY ->
      nlmsg_type msg' = RTM_DELROUTE /\
      nlmsg_flags msg' =
        Z.lor (Z.lor NLM_F_REQUEST NLM_F_ACK)
              (if Route.getType route =? RTN_MULTICAST then 0
               else NLM_F_REPLACE)) /\
     attrs msg' =
       if decide (code = SUCCESS)
       then [mk_nlattr (RTA_LENGTH (byteCount (fst (Route.getDestination route))))
                       RTA_DST
                       (MP_data (P_bytes (fst (Route.getDestination route))))]
       else []) /\
  (exists code msg',
     outcome (deleteLabelRoute P route emptyMsg) = Returned (code, msg') /\
     (code = NO_LABEL <-> Route.getMplsLabel route = None) /\
     (code = SUCCESS \/ code = NO_MESSAGE_BUFFER \/ code = NO_LABEL) /\
     nlmsg_type msg' = RTM_DELROUTE /\
     nlmsg_flags msg' =
       Z.lor (Z.lor NLM_F_REQUEST NLM_F_ACK)
             (if Route.getType route =? RTN_MULTICAST then 0
              else NLM_F_REPLACE) /\
     rtm_family msg' = AF_MPLS /\
     attrs msg' =
       match Route.getMplsLabel route with
       | Some label =>
           if decide (code = SUCCESS)
           then [mk_nlattr (RTA_LENGTH sizeof_mpls_label) RTA_DST
                   (MP_data (P_labels [packLabel P (clampLabel label) true]))]
           else []
       | None => []
       end).
Proof.
  split.
  - unfold deleteRoute.
    destruct (Route.getDestination route) as [ip plen] eqn:Hdst.
    destruct (negb (Route.getFamily route =? AF_INET)
              && negb (Route.getFamily route =? AF_INET6)) eqn:Hfam.
    + eexists _, _. rewrite outcome_ret. split; [reflexivity|].
      apply family_check in Hfam. cbn. intuition congruence.
    + assert (Hok : ~ (Route.getFamily route <> AF_INET /\
                       Route.getFamily route <> AF_INET6)).
      { intros Hbad. apply family_check in Hbad. congruence. }
      rewrite addAttributes_outcome.
      destruct (_ >? _); eexists _, _; (split; [reflexivity|]);
        cbn; destruct (Route.getType route =? RTN_MULTICAST);
        intuition congruence.
  - unfold deleteLabelRoute.
    destruct (Route.getMplsLabel route) as [label|].
    + rewrite outcome_bind, encodeLabel_outcome. cbn beta iota.
      rewrite addAttributes_outcome.
      destruct (_ >? _); eexists _, _; (split; [reflexivity|]);
        cbn; destruct (Route.getType route =? RTN_MULTICAST);
        intuition congruence.
    + rewrite outcome_bind, outcome_log_error, outcome_ret.
      eexists _, _; (split; [reflexivity|]);
        cbn; destruct (Route.getType route =? RTN_MULTICAST);
        intuition congruence.
Qed.

End NetlinkNexthops.

Lemma addMultiPathNexthop_lengths_agree_witness :
  exists nhop rtnhs,
    outcome (Netlink.addMultiPathNexthop Netlink.linuxHost Netlink.labelRoute)
      = Returned (Netlink.SUCCESS, nhop, rtnhs) /\
    Netlink.nh_rta_len nhop
      = Netlink.RTA_LENGTH 0 + Netlink.rtnhBytes rtnhs /\
    Forall2 (fun path rtnh =>
               Netlink.NextHop.getIfIndex path
                 = Some (Netlink.rtnh_ifindex rtnh) /\
               Netlink.rtnh_flags rtnh = 0 /\ Netlink.rtnh_hops rtnh = 0)
            (Netlink.Route.getNextHops Netlink.labelRoute) rtnhs.
Proof.
  eexists _, _.
  assert (H : outcome (Netlink.addMultiPathNexthop Netlink.linuxHost
                         Netlink.labelRoute)
              = Returned (Netlink.SUCCESS, _, _))
    by (vm_compute; reflexivity).
  split; [exact H|].
  exact (addMultiPathNexthop_lengths_agree Netlink.linuxHost Netlink.labelRoute
           _ _ H).
Defined.

Lemma addNextHops_first_nexthop_without_interface_index_witness :
  outcome (Netlink.addNextHops Netlink.linuxHost Netlink.noIndexRoute
             Netlink.emptyMsg)
  = Threw OptionalEmptyException.
Proof.
  exact (addNextHops_first_nexthop_without_interface_index Netlink.linuxHost
           Netlink.noIndexRoute Netlink.emptyMsg Netlink.noIndexNextHop []
           eq_refl eq_refl).
Defined.

Lemma addSwapOrPHPNexthop_attributes_witness :
  (exists rta' rtnh',
     outcome (Netlink.addSwapOrPHPNexthop Netlink.linuxHost Netlink.firstNhop
                Netlink.firstRtnh Netlink.swapNextHop)
       = Returned (Netlink.SUCCESS, rta', rtnh') /\
     Netlink.nh_subattrs rta' =
       [Netlink.mk_rtattr 8 Netlink.RTA_NEWDST
          (Netlink.P_labels [Netlink.packLabel Netlink.linuxHost 500 true]);
        Netlink.mk_rtattr 9 Netlink.RTA_VIA
          (Netlink.P_via Netlink.AF_INET [192; 0; 2; 1])] /\
     Netlink.rtnh_ifindex rtnh' = 3) /\
  outcome (Netlink.addSwapOrPHPNexthop Netlink.linuxHost Netlink.firstNhop
             Netlink.firstRtnh
             (Netlink.NextHop.mk (Some 3) None (Some Netlink.PHP) None None
                                 Netlink.AF_INET))
    = Threw OptionalEmptyException.
Proof.
  split.
  - apply (proj1 (addSwapOrPHPNexthop_attributes Netlink.linuxHost
                    Netlink.firstNhop Netlink.firstRtnh Netlink.swapNextHop 3
                    eq_refl) [192; 0; 2; 1] eq_refl);
      vm_compute; discriminate.
  - apply (proj2 (addSwapOrPHPNexthop_attributes Netlink.linuxHost
                    Netlink.firstNhop Netlink.firstRtnh
                    (Netlink.NextHop.mk (Some 3) None (Some Netlink.PHP) None
                                        None Netlink.AF_INET) 3 eq_refl)
             eq_refl).
    vm_compute; discriminate.
Defined.

(** [addNextHops] on the message [addRoute] has prepared for
    [multicastRoute]. *)
Lemma addNextHops_one_attribute_or_none_witness :
  outcome (Netlink.addAttributes Netlink.linuxHost Netlink.RTA_DST
             (Netlink.MP_data (Netlink.P_bytes [224; 0; 0; 0])) 4
             (Netlink.set_family_dst_len
                (Netlink.init Netlink.RTM_NEWROUTE Netlink.RTM_F_NOTIFY
                   Netlink.multicastRoute Netlink.emptyMsg)
                Netlink.AF_INET 4))
    = Returned (Netlink.SUCCESS, Netlink.multicastRouteMsg) /\
  exists msg',
    outcome (Netlink.addNextHops Netlink.linuxHost Netlink.multicastRoute
               Netlink.multicastRouteMsg)
      = Returned (Netlink.SUCCESS, msg') /\
    exists nhop rtnhs,
      outcome (Netlink.addMultiPathNexthop Netlink.linuxHost
                 Netlink.multicastRoute)
        = Returned (Netlink.SUCCESS, nhop, rtnhs) /\
      Netlink.attrs msg' =
        [Netlink.mk_nlattr 8 Netlink.RTA_DST
           (Netlink.MP_data (Netlink.P_bytes [224; 0; 0; 0]));
         Netlink.mk_nlattr (Netlink.nh_rta_len nhop) Netlink.RTA_MULTIPATH
           (Netlink.MP_multipath rtnhs (Netlink.nh_subattrs nhop))] /\
      Netlink.nlmsg_type msg' = Netlink.RTM_NEWROUTE.
Proof.
  split; [vm_compute; reflexivity|].
  eexists.
  assert (H : outcome (Netlink.addNextHops Netlink.linuxHost
                         Netlink.multicastRoute Netlink.multicastRouteMsg)
              = Returned (Netlink.SUCCESS, _))
    by (vm_compute; reflexivity).
  split; [exact H|].
  assert (Hinit : Netlink.NLMSG_LENGTH Netlink.sizeof_rtmsg
                  <= Netlink.nlmsg_len Netlink.multicastRouteMsg)
    by (vm_compute; discriminate).
  assert (Hbound : forall code' nhop rtnhs,
            outcome (Netlink.addMultiPathNexthop Netlink.linuxHost
                       Netlink.multicastRoute)
              = Returned (code', nhop, rtnhs) ->
            Netlink.nh_rta_len nhop
              <= Netlink.kMaxNlPayloadSize Netlink.linuxHost).
  { intros code' nhop rtnhs Hm. vm_compute in Hm.
    injection Hm as _ <- _. vm_compute. discriminate. }
  destruct (proj2 (addNextHops_one_attribute_or_none Netlink.linuxHost
                     Netlink.multicastRoute Netlink.multicastRouteMsg _ _
                     Hinit Hbound H)
                  eq_refl)
    as (nhop & rtnhs & Hm & _ & _ & _ & Hmsg); [discriminate|].
  exists nhop, rtnhs. split; [exact Hm|].
  split; [exact (f_equal Netlink.attrs Hmsg)
         | exact (f_equal Netlink.nlmsg_type Hmsg)].
Defined.


(** ** FIB reconciler: agent restarts, dry run, publications *)

Section FibMore.

Import Fib.

Variable C : Config.
Variable U : Util.

(** X9.  The health check asks the agent for [aliveSince], whatever the
    state.  If the call throws, the client is dropped and nothing else
    changes.  If it returns the value recorded last, only the client exists
    afterwards.  If it returns another value, the agent has restarted: the
    dirty flag is set, the backoff is cleared, the full sync is scheduled at
    once unless it is scheduled already (its timeout then stays), and the
    new value is recorded, so that the next check with the same answer finds
    no restart. *)
Theorem healthChecker_detects_agent_restart (agent : Agent) (s : t) :
  let s' := healthChecker_callback agent s in
  agentCalls s' = agentCalls s ++ [sync_aliveSince] /\
  routeDb_ s' = routeDb_ s /\
  (throws agent sync_aliveSince = true ->
   client_ s' = false /\
   latestAliveSince_ s' = latestAliveSince_ s /\
   dirtyRouteDb_ s' = dirtyRouteDb_ s /\
   syncRoutesTimer_ s' = syncRoutesTimer_ s /\
   expBackoff_ s' = expBackoff_ s) /\
  (throws agent sync_aliveSince = false ->
   client_ s' = true /\
   latestAliveSince_ s' = aliveSince agent /\
   (aliveSince agent = latestAliveSince_ s ->
    dirtyRouteDb_ s' = dirtyRouteDb_ s /\
    syncRoutesTimer_ s' = syncRoutesTimer_ s /\
    expBackoff_ s' = expBackoff_ s) /\
   (aliveSince agent <> latestAliveSince_ s ->
    dirtyRouteDb_ s' = true /\
    expBackoff_ s' = ExponentialBackoff.reportSuccess (expBackoff_ s) /\
    syncRoutesTimer_ s' = match syncRoutesTimer_ s with
                          | Some d => Some d
                          | None => Some 0
                          end /\
    healthChecker_callback agent s' =
      set_agentCalls s' (agentCalls s' ++ [sync_aliveSince]))).
Proof.
  cbv zeta. unfold healthChecker_callback, keepAliveCheck, call.
  unfold syncRouteDbDebounced. cbn.
  destruct (throws agent sync_aliveSince) eqn:Hthrow; cbn.
  { repeat split; try done. }
  destruct (Z.eqb_spec (aliveSince agent) (latestAliveSince_ s)) as [Heq|Hne];
    cbn.
  - repeat split; try done.
  - destruct (syncRoutesTimer_ s) as [d|] eqn:Ht; cbn;
      rewrite ?Hthrow, ?Z.eqb_refl; cbn;
      repeat split; try done.
Qed.

(** The calls [syncRouteDb] means to make: the whole route DB. *)
Lemma syncRouteDb_issues (agent : Agent) (s : t) (calls : list AgentCall) :
  let planned :=
    sync_syncFib (createUnicastRoutesWithBestNexthops U
                    (unicastRoutes (routeDb_ s)))
    :: (if enableSegmentRouting_ C
        then [sync_syncMplsFib (createMplsRoutesWithBestNextHops U
                                  (mplsRoutes (routeDb_ s)))]
        else []) in
  (call agent (sync_syncFib (createUnicastRoutesWithBestNexthops U
                               (unicastRoutes (routeDb_ s))))
   ;;;
   when (enableSegmentRouting_ C)
        (call agent (sync_syncMplsFib (createMplsRoutesWithBestNextHops U
                                         (mplsRoutes (routeDb_ s))))))
    calls
  = (if allSucceed agent planned then Some tt else None,
     calls ++ attempted agent planned).
Proof.
  cbv zeta.
  match goal with |- ?m calls = _ =>
    assert (Hbody : issues agent m
      ([sync_syncFib (createUnicastRoutesWithBestNexthops U
                        (unicastRoutes (routeDb_ s)))] ++
       (if enableSegmentRouting_ C
        then [sync_syncMplsFib (createMplsRoutesWithBestNextHops U
                                  (mplsRoutes (routeDb_ s)))]
        else [])))
  end.
  { apply issues_seq; [|apply issues_when]; apply issues_call. }
  apply Hbody.
Qed.

(** X10.  Outside dry run, [syncRouteDb] sends the agent the whole route DB,
    whatever was sent before: [syncFib] with the best-nexthop form of every
    stored unicast route and then, with segment routing only, [syncMplsFib]
    with that of every stored MPLS route; if [syncFib] throws, [syncMplsFib]
    is not called.  It returns true exactly when no call throws; the dirty
    flag afterwards is the negation of the result, whatever it was before,
    and a client exists afterwards exactly on success.  The route DB, the
    full-sync timer and the backoff are not touched. *)
Theorem syncRouteDb_sends_whole_route_db (agent : Agent) (s : t) :
  dryrun_ C = false ->
  let planned :=
    sync_syncFib (createUnicastRoutesWithBestNexthops U
                    (unicastRoutes (routeDb_ s)))
    :: (if enableSegmentRouting_ C
        then [sync_syncMplsFib (createMplsRoutesWithBestNextHops U
                                  (mplsRoutes (routeDb_ s)))]
        else []) in
  let success := fst (syncRouteDb C U agent s) in
  let s' := snd (syncRouteDb C U agent s) in
  agentCalls s' = agentCalls s ++ attempted agent planned /\
  success = allSucceed agent planned /\
  dirtyRouteDb_ s' = negb success /\
  client_ s' = success /\
  routeDb_ s' = routeDb_ s /\
  syncRoutesTimer_ s' = syncRoutesTimer_ s /\
  expBackoff_ s' = expBackoff_ s.
Proof.
  intros Hdry. cbv zeta. unfold syncRouteDb. rewrite Hdry.
  cbn [createFibClient routeDb_ set_client agentCalls].
  rewrite syncRouteDb_issues.
  match goal with |- context [allSucceed agent ?p] =>
    destruct (allSucceed agent p) end; cbn; by repeat split.
Qed.

(** X11.  An agent restart, outside dry run, while the agent answers its
    calls.  The health check that sees a new [aliveSince] leaves the dirty
    flag set and the full sync scheduled; until the timer fires,
    [updateRoutes] sends no incremental update; when it fires, the agent
    gets the whole route DB, the dirty flag is cleared, the backoff is clear
    and the timer stays idle; and the next health check finds no restart. *)
Theorem agent_restart_leads_to_full_sync (agent : Agent) (now now' : Z)
    (s : t) :
  dryrun_ C = false ->
  (forall c, throws agent c = false) ->
  aliveSince agent <> latestAliveSince_ s ->
  let s1 := healthChecker_callback agent s in
  let s2 := syncRoutesTimer_callback C U agent now now' s1 in
  dirtyRouteDb_ s1 = true /\
  isScheduled (syncRoutesTimer_ s1) = true /\
  (forall delta, updateRoutes C U agent delta s1 = s1) /\
  agentCalls s2 =
    agentCalls s ++
    [sync_aliveSince;
     sync_syncFib (createUnicastRoutesWithBestNexthops U
                     (unicastRoutes (routeDb_ s)))] ++
    (if enableSegmentRouting_ C
     then [sync_syncMplsFib (createMplsRoutesWithBestNextHops U
                               (mplsRoutes (routeDb_ s)))]
     else []) /\
  dirtyRouteDb_ s2 = false /\
  syncRoutesTimer_ s2 = None /\
  ExponentialBackoff.currentBackoff (expBackoff_ s2) = 0 /\
  dirtyRouteDb_ (healthChecker_callback agent s2) = false /\
  syncRoutesTimer_ (healthChecker_callback agent s2) = None.
Proof.
  intros Hdry Hup Hnew. cbv zeta.
  unfold syncRoutesTimer_callback, syncRouteDb, updateRoutes,
         healthChecker_callback, keepAliveCheck, call, try_bind, when,
         syncRouteDbDebounced.
  rewrite Hdry. cbn. rewrite !Hup. cbn.
  destruct (Z.eqb_spec (aliveSince agent) (latestAliveSince_ s)) as [Heq|_];
    [contradiction|]. cbn.
  destruct (syncRoutesTimer_ s) as [d|] eqn:Ht; cbn; rewrite ?Ht, ?Hup; cbn;
    destruct (enableSegmentRouting_ C); cbn; rewrite ?Hup; cbn;
    rewrite ?Z.eqb_refl; cbn; rewrite <- ?app_assoc; by repeat split.
Qed.

(** The fields [filterRoutesByInterfaceDb] does not touch, beyond those
    of [filterRoutesByInterfaceDb_frame]. *)
Lemma filterRoutesByInterfaceDb_client (idb : InterfaceDatabase) (s s1 : t)
    (d : RouteDatabaseDelta) :
  filterRoutesByInterfaceDb U idb s = Some (s1, d) ->
  client_ s1 = client_ s /\
  latestAliveSince_ s1 = latestAliveSince_ s /\
  thisNodeName (routeDb_ s1) = thisNodeName (routeDb_ s).
Proof.
  unfold filterRoutesByInterfaceDb.
  destruct (findAffectedInterfaces _ _ _) as [st aff].
  destruct (filterUnicastRoutes _ _ _ _) as [[urs d1]|]; [|discriminate].
  destruct (filterMplsRoutes _ _ _ _) as [mrs d2].
  intros [= <- <-]. done.
Qed.

(** X12.  In dry run no state the event loop reaches has issued a call to
    the agent or created a client: neither the publications nor the
    full-sync timer reach the agent, and the health check and the periodic
    sync are not scheduled. *)
Theorem dry_run_never_calls_the_agent (s : t) :
  reachable C U s ->
  dryrun_ C = true ->
  agentCalls s = [] /\ client_ s = false.
Proof.
  intros Hreach Hdry.
  induction Hreach as [ | s agent pub _ IH | s s' agent pub _ IH Hp
                      | s agent now now' _ IH _ _ | s agent _ IH Hno
                      | s agent _ IH Hno _ ].
  - done.
  - unfold decisionSub_callback. destruct pub as [db|]; [|exact IH].
    case_decide; [exact IH|].
    unfold processRouteDb. destruct (removeDoNotInstall _ _) as [kept removed].
    cbn [fst]. by rewrite (updateRoutes_dryrun C U _ _ _ Hdry).
  - unfold linkMonSub_callback in Hp. destruct pub as [idb|]; [|congruence].
    case_decide; [congruence|].
    unfold processInterfaceDb in Hp.
    destruct (filterRoutesByInterfaceDb U idb s) as [[s1 d]|] eqn:Hf;
      [|discriminate].
    injection Hp as <-. rewrite (updateRoutes_dryrun C U _ _ _ Hdry).
    destruct (filterRoutesByInterfaceDb_frame _ _ _ _ _ Hf)
      as (_ & _ & _ & -> & _).
    destruct (filterRoutesByInterfaceDb_client _ _ _ _ Hf) as (-> & _).
    exact IH.
  - unfold syncRoutesTimer_callback.
    rewrite (syncRouteDb_dryrun C U _ _ Hdry). exact IH.
  - congruence.
  - congruence.
Qed.

Lemma updateRoutes_dirty_pending (agent : Agent) (d : RouteDatabaseDelta)
    (s : t) :
  dryrun_ C = false ->
  dirtyRouteDb_ (updateRoutes C U agent d s) = true ->
  isScheduled (syncRoutesTimer_ (updateRoutes C U agent d s)) = true.
Proof.
  intros Hdry. unfold updateRoutes. rewrite Hdry.
  destruct (isScheduled (syncRoutesTimer_ s)) eqn:Hs; [by rewrite Hs|].
  destruct (dirtyRouteDb_ s) eqn:Hd.
  { intros _. unfold syncRouteDbDebounced. rewrite Hs. reflexivity. }
  match goal with |- context [match ?b ?c with _ => _ end] =>
    destruct (b c) as [[[]|] calls] end.
  - cbn. discriminate.
  - intros _. unfold syncRouteDbDebounced. cbn. rewrite Hs. reflexivity.
Qed.

(** X13.  Outside dry run, after a publication of decision or of the link
    monitor has been processed, a dirty route DB always has its full sync
    scheduled: an incremental update that fails schedules it, and so does an
    update that finds the dirty flag set, as a failed periodic sync leaves
    it. *)
Theorem publication_leaves_dirty_only_with_sync_pending :
  dryrun_ C = false ->
  (forall (agent : Agent) (db : RouteDatabase) (s : t),
     let s' := fst (processRouteDb C U agent db s) in
     dirtyRouteDb_ s' = true -> isScheduled (syncRoutesTimer_ s') = true) /\
  (forall (agent : Agent) (idb : InterfaceDatabase) (s s' : t),
     processInterfaceDb C U agent idb s = Some s' ->
     dirtyRouteDb_ s' = true -> isScheduled (syncRoutesTimer_ s') = true).
Proof.
  intros Hdry. split.
  - intros agent db s. cbv zeta. unfold processRouteDb.
    destruct (removeDoNotInstall _ _) as [kept removed]. cbn [fst].
    by apply updateRoutes_dirty_pending.
  - intros agent idb s s' Hp. unfold processInterfaceDb in Hp.
    destruct (filterRoutesByInterfaceDb U idb s) as [[s1 d]|]; [|discriminate].
    injection Hp as <-. by apply updateRoutes_dirty_pending.
Qed.

(** The [CHECK] of the unicast loop has passed only if every nexthop names
    its interface. *)
Lemma validNextHopsUnicast_named (names : gset string)
    (nextHops valid : list NextHopThrift) :
  validNextHopsUnicast names nextHops = Some valid ->
  Forall (fun nextHop => is_Some (ifName (address nextHop))) nextHops.
Proof.
  revert valid. induction nextHops as [|nh nhs IH]; intros valid H; [done|].
  cbn [validNextHopsUnicast] in H.
  destruct (ifName (address nh)) as [name|] eqn:Hname; [|discriminate].
  destruct (validNextHopsUnicast names nhs) as [v|]; [|discriminate].
  constructor; [by rewrite Hname | by apply (IH v)].
Qed.

Lemma filterUnicastRoutes_named (names : gset string)
    (routes : list UnicastRoute.t) :
  forall (d : RouteDatabaseDelta) (res : list UnicastRoute.t * RouteDatabaseDelta),
    filterUnicastRoutes U names routes d = Some res ->
    unicastNextHopsNamed routes.
Proof.
  induction routes as [|r rs IH]; intros d res H; [constructor|].
  cbn [filterUnicastRoutes] in H.
  destruct (validNextHopsUnicast names (UnicastRoute.nextHops r))
    as [valid|] eqn:Hv; [|discriminate].
  constructor; [by apply (validNextHopsUnicast_named names _ valid)|].
  cbn [UnicastRoute.nextHops UnicastRoute.dest] in H.
  destruct (negb (nonempty valid)).
  - by apply (IH _ _ H).
  - destruct (filterUnicastRoutes U names rs _) as [[rest' d']|] eqn:Hr;
      [|discriminate].
    by apply (IH _ _ Hr).
Qed.

Lemma filterRoutesByInterfaceDb_named (idb : InterfaceDatabase) (s s1 : t)
    (d : RouteDatabaseDelta) :
  filterRoutesByInterfaceDb U idb s = Some (s1, d) ->
  unicastNextHopsNamed (unicastRoutes (routeDb_ s)).
Proof.
  unfold filterRoutesByInterfaceDb.
  destruct (findAffectedInterfaces _ _ _) as [st aff].
  cbn [routeDb_ set_interfaceStatusDb].
  destruct (filterUnicastRoutes U aff _ _) as [res|] eqn:Hf; [|discriminate].
  intros _. by apply (filterUnicastRoutes_named aff _ _ _ Hf).
Qed.

Lemma survivingNextHops_named (names : gset string)
    (nextHops : list NextHopThrift) :
  Forall (fun nextHop => is_Some (ifName (address nextHop))) nextHops ->
  Forall (fun nextHop => is_Some (ifName (address nextHop)))
         (survivingNextHops names nextHops).
Proof.
  intros H. apply Forall_forall. intros nh Hin.
  apply survivingNextHops_elem in Hin as [Hin _].
  by apply (proj1 (Forall_forall _ _) H).
Qed.

Lemma spec_unicastRoutesAfter_named (names : gset string)
    (routes : list UnicastRoute.t) :
  unicastNextHopsNamed routes ->
  unicastNextHopsNamed (spec_unicastRoutesAfter names routes).
Proof.
  unfold unicastNextHopsNamed, spec_unicastRoutesAfter.
  intros H. apply Forall_forall. intros r Hin.
  apply list_elem_of_filter in Hin as [_ Hin].
  apply list_elem_of_fmap in Hin as (r0 & -> & Hin0).
  cbn [UnicastRoute.nextHops]. apply survivingNextHops_named.
  by apply (proj1 (Forall_forall _ _) H).
Qed.

Lemma filter_all {A} (P : A -> Prop) `{!forall x, Decision (P x)}
    (l : list A) :
  Forall P l -> filter P l = l.
Proof.
  induction 1 as [|x l Hx _ IH]; [done|].
  by rewrite filter_cons, decide_True, IH.
Qed.

Lemma filter_none {A} (P : A -> Prop) `{!forall x, Decision (P x)}
    (l : list A) :
  Forall (fun x => ~ P x) l -> filter P l = [].
Proof.
  induction 1 as [|x l Hx _ IH]; [done|].
  by rewrite filter_cons, decide_False, IH.
Qed.

(** X14.  After [processInterfaceDb] the interface status DB holds, for
    every interface of the publication, the state that was reported, and for
    every other name what it held before: a name once recorded is never
    removed. *)
Theorem processInterfaceDb_records_status (agent : Agent)
    (idb : InterfaceDatabase) (s s' : t) (name : string) :
  processInterfaceDb C U agent idb s = Some s' ->
  interfaceStatusDb_ s' !! name =
  match interfaces idb !! name with
  | Some info => Some (isUp info)
  | None => interfaceStatusDb_ s !! name
  end.
Proof.
  intros Hp. unfold processInterfaceDb in Hp.
  destruct (filterRoutesByInterfaceDb U idb s) as [[s1 d]|] eqn:Hf;
    [|discriminate].
  injection Hp as <-.
  destruct (updateRoutes_frame C U agent d s1) as (_ & _ & -> & _).
  pose proof (filterRoutesByInterfaceDb_named _ _ _ _ Hf) as Hnamed.
  rewrite (filterRoutesByInterfaceDb_spec U idb s Hnamed) in Hf.
  injection Hf as <- _. cbn [interfaceStatusDb_ set_routeDb set_interfaceStatusDb].
  apply interfaceStatusDb_after.
Qed.

(** X15.  A publication of the link monitor that is processed a second time
    finds no interface affected, leaves the route DB and the interface
    status DB as the first run left them, and hands [updateRoutes] an empty
    delta: every route the first run kept has a nexthop left, and every
    interface it saw go down is now recorded as down. *)
Theorem repeated_interface_publication_changes_nothing (agent : Agent)
    (idb : InterfaceDatabase) (s s1 : t) :
  processInterfaceDb C U agent idb s = Some s1 ->
  affectedInterfaces idb s1 = ∅ /\
  Forall (fun r => UnicastRoute.nextHops r <> [])
         (unicastRoutes (routeDb_ s1)) /\
  Forall (fun r => MplsRoute.nextHops r <> []) (mplsRoutes (routeDb_ s1)) /\
  exists s2,
    filterRoutesByInterfaceDb U idb s1
      = Some (s2, mk_RouteDatabaseDelta [] [] [] []) /\
    routeDb_ s2 = routeDb_ s1 /\
    interfaceStatusDb_ s2 = interfaceStatusDb_ s1.
Proof.
  intros Hp.
  assert (Hst : forall name,
            interfaceStatusDb_ s1 !! name =
            match interfaces idb !! name with
            | Some info => Some (isUp info)
            | None => interfaceStatusDb_ s !! name
            end).
  { intros name. unfold processInterfaceDb in Hp.
    destruct (filterRoutesByInterfaceDb U idb s) as [[s0 d]|] eqn:Hf;
      [|discriminate].
    injection Hp as <-.
    destruct (updateRoutes_frame C U agent d s0) as (_ & _ & -> & _).
    pose proof (filterRoutesByInterfaceDb_named _ _ _ _ Hf) as Hnamed.
    rewrite (filterRoutesByInterfaceDb_spec U idb s Hnamed) in Hf.
    injection Hf as <- _.
    cbn [interfaceStatusDb_ set_routeDb set_interfaceStatusDb].
    apply interfaceStatusDb_after. }
  unfold processInterfaceDb in Hp.
  destruct (filterRoutesByInterfaceDb U idb s) as [[s0 d]|] eqn:Hf;
    [|discriminate].
  injection Hp as Hs1.
  destruct (updateRoutes_frame C U agent d s0) as (Hdb & _ & _ & _).
  rewrite Hs1 in Hdb.
  pose proof (filterRoutesByInterfaceDb_named _ _ _ _ Hf) as Hnamed.
  rewrite (filterRoutesByInterfaceDb_spec U idb s Hnamed) in Hf.
  injection Hf as Hs0 _.
  assert (Hroutes : routeDb_ s1 =
            mk_RouteDatabase (thisNodeName (routeDb_ s))
              (spec_unicastRoutesAfter (affectedInterfaces idb s)
                 (unicastRoutes (routeDb_ s)))
              (spec_mplsRoutesAfter (affectedInterfaces idb s)
                 (mplsRoutes (routeDb_ s)))).
  { rewrite Hdb, <- Hs0. reflexivity. }
  assert (Haff : affectedInterfaces idb s1 = ∅).
  { apply set_eq. intros name. rewrite affectedInterfaces_spec, Hst.
    split; [|intros Hin; by apply not_elem_of_empty in Hin].
    intros (Hup & info & Hinfo & Hdown). rewrite Hinfo in Hup. congruence. }
  assert (Hu : Forall (fun r => UnicastRoute.nextHops r <> [])
                      (unicastRoutes (routeDb_ s1))).
  { rewrite Hroutes. cbn [unicastRoutes]. unfold spec_unicastRoutesAfter.
    apply Forall_forall. intros r Hin.
    by apply list_elem_of_filter in Hin as [Hne _]. }
  assert (Hm : Forall (fun r => MplsRoute.nextHops r <> [])
                      (mplsRoutes (routeDb_ s1))).
  { rewrite Hroutes. cbn [mplsRoutes]. unfold spec_mplsRoutesAfter.
    apply Forall_forall. intros r Hin.
    by apply list_elem_of_filter in Hin as [Hne _]. }
  split; [exact Haff|]. split; [exact Hu|]. split; [exact Hm|].
  assert (Hnamed1 : unicastNextHopsNamed (unicastRoutes (routeDb_ s1))).
  { rewrite Hroutes. cbn [unicastRoutes].
    by apply spec_unicastRoutesAfter_named. }
  rewrite (filterRoutesByInterfaceDb_spec U idb s1 Hnamed1), Haff.
  rewrite spec_unicastRoutesAfter_empty, spec_mplsRoutesAfter_empty,
    spec_unicastRoutesToUpdate_empty, spec_mplsRoutesToUpdate_empty.
  rewrite (filter_all _ _ Hu), (filter_all _ _ Hm).
  unfold spec_unicastRoutesToDelete, spec_mplsRoutesToDelete.
  rewrite (filter_none (fun r => survivingNextHops ∅ (UnicastRoute.nextHops r) = [])),
          (filter_none (fun r => survivingNextHops ∅ (MplsRoute.nextHops r) = [])).
  - eexists. split; [reflexivity|].
    cbn [routeDb_ interfaceStatusDb_ set_routeDb set_interfaceStatusDb].
    split; [by destruct (routeDb_ s1)|].
    apply map_eq. intros name.
    rewrite interfaceStatusDb_after, Hst.
    by destruct (interfaces idb !! name).
  - eapply Forall_impl; [exact Hm|]. intros r Hne.
    by rewrite survivingNextHops_empty.
  - eapply Forall_impl; [exact Hu|]. intros r Hne.
    by rewrite survivingNextHops_empty.
Qed.

(** What holds of the two route DBs in every state the event loop
    reaches. *)
Lemma reachable_route_db_invariant (s : t) :
  reachable C U s ->
  thisNodeName (routeDb_ s) = myNodeName_ C /\
  Forall (fun r => UnicastRoute.doNotInstall r = false)
         (unicastRoutes (routeDb_ s)) /\
  Forall (fun r => UnicastRoute.doNotInstall r = true)
         (unicastRoutes (doNotInstallRouteDb_ s)).
Proof.
  induction 1 as [ | s agent pub _ IH | s s' agent pub _ IH Hp
                 | s agent now now' _ IH _ _ | s agent _ IH Hno
                 | s agent _ IH Hno _ ].
  - cbn. by repeat split.
  - unfold decisionSub_callback. destruct pub as [db|]; [|exact IH].
    case_decide as Hname; [exact IH|].
    unfold processRouteDb. rewrite removeDoNotInstall_partition.
    cbn [fst].
    match goal with |- context [updateRoutes C U agent ?d ?x] =>
      destruct (updateRoutes_frame C U agent d x) as (-> & -> & _)
    end.
    cbn. split; [|split].
    + destruct (decide (thisNodeName db = myNodeName_ C)) as [He|Hn];
        [exact He | contradiction].
    + apply Forall_forall. intros r Hin.
      by apply list_elem_of_filter in Hin as [Hr _].
    + apply Forall_forall. intros r Hin.
      by apply list_elem_of_filter in Hin as [Hr _].
  - unfold linkMonSub_callback in Hp. destruct pub as [idb|]; [|congruence].
    case_decide; [congruence|].
    unfold processInterfaceDb in Hp.
    destruct (filterRoutesByInterfaceDb U idb s) as [[s1 d]|] eqn:Hf;
      [|discriminate].
    injection Hp as <-.
    destruct (updateRoutes_frame C U agent d s1) as (-> & -> & _).
    destruct (filterRoutesByInterfaceDb_frame _ _ _ _ _ Hf)
      as (_ & _ & _ & _ & ->).
    pose proof (filterRoutesByInterfaceDb_named _ _ _ _ Hf) as Hnamed.
    rewrite (filterRoutesByInterfaceDb_spec U idb s Hnamed) in Hf.
    injection Hf as <- _. cbn [routeDb_ set_routeDb thisNodeName unicastRoutes].
    destruct IH as (IHn & IHu & IHd).
    split; [exact IHn|]. split; [|exact IHd].
    unfold spec_unicastRoutesAfter. apply Forall_forall. intros r Hin.
    apply list_elem_of_filter in Hin as [_ Hin].
    apply list_elem_of_fmap in Hin as (r0 & -> & Hin0).
    cbn [UnicastRoute.doNotInstall].
    rewrite Forall_forall in IHu. by apply IHu.
  - unfold syncRoutesTimer_callback.
    pose proof (syncRouteDb_frame C U agent (set_syncRoutesTimer s None))
      as (Hr & Hd & _).
    destruct (syncRouteDb C U agent (set_syncRoutesTimer s None))
      as [[] s1]; cbn in Hr, Hd |- *; by rewrite Hr, Hd.
  - unfold healthChecker_callback, keepAliveCheck, call, syncRouteDbDebounced.
    cbn. destruct (throws agent sync_aliveSince); cbn; [exact IH|].
    destruct (negb _); cbn; [|exact IH].
    destruct (negb _); cbn; exact IH.
  - unfold syncFibTimer_callback. destruct (negb _); [|exact IH].
    destruct (syncRouteDb_frame C U agent s) as (-> & -> & _). exact IH.
Qed.

(** X16.  In every state the event loop reaches, the answer to
    [ROUTE_DB_GET] is a route DB that carries the name of this node and
    holds no unicast route marked [doNotInstall], also after interface
    events have removed nexthops and routes; and the answer to
    [ROUTE_DB_UNINSTALLABLE_GET] holds only unicast routes that are so
    marked. *)
Theorem reachable_route_db_is_installable (s : t) :
  reachable C U s ->
  (exists db,
     processRequestMsg (Some ROUTE_DB_GET) s = RouteDbResponse db /\
     thisNodeName db = myNodeName_ C /\
     Forall (fun r => UnicastRoute.doNotInstall r = false)
            (unicastRoutes db)) /\
  (exists db,
     processRequestMsg (Some ROUTE_DB_UNINSTALLABLE_GET) s
       = RouteDbResponse db /\
     Forall (fun r => UnicastRoute.doNotInstall r = true)
            (unicastRoutes db)).
Proof.
  intros Hreach.
  destruct (reachable_route_db_invariant s Hreach) as (Hname & Hin & Hout).
  split.
  - exists (routeDb_ s). by repeat split.
  - exists (doNotInstallRouteDb_ s). by repeat split.
Qed.

End FibMore.

Lemma healthChecker_detects_agent_restart_witness :
  Fib.dirtyRouteDb_ (Fib.healthChecker_callback Fib.agentUp Fib.stateSynced)
    = true /\
  Fib.syncRoutesTimer_ (Fib.healthChecker_callback Fib.agentUp Fib.stateSynced)
    = Some 0.
Proof.
  destruct (healthChecker_detects_agent_restart Fib.agentUp Fib.stateSynced)
    as (_ & _ & _ & Hok).
  destruct (Hok eq_refl) as (_ & _ & _ & Hrestart).
  destruct Hrestart as (Hd & _ & Ht & _); [vm_compute; discriminate|].
  split; [exact Hd | exact Ht].
Defined.


(** The agent answers the health check of [stateSynced] with an
    [aliveSince] it has not seen: a full sync follows. *)
Lemma agent_restart_leads_to_full_sync_witness :
  let s1 := Fib.healthChecker_callback Fib.agentUp Fib.stateSynced in
  let s2 := Fib.syncRoutesTimer_callback Fib.sampleConfig Fib.sampleUtil
              Fib.agentUp 0 0 s1 in
  Fib.dirtyRouteDb_ s1 = true /\
  Fib.agentCalls s2 =
    Fib.agentCalls Fib.stateSynced ++
    [Fib.sync_aliveSince; Fib.sync_syncFib []; Fib.sync_syncMplsFib []] /\
  Fib.dirtyRouteDb_ s2 = false.
Proof.
  assert (Hnew : Fib.aliveSince Fib.agentUp
                 <> Fib.latestAliveSince_ Fib.stateSynced)
    by (vm_compute; discriminate).
  destruct (agent_restart_leads_to_full_sync Fib.sampleConfig Fib.sampleUtil
              Fib.agentUp 0 0 Fib.stateSynced eq_refl (fun _ => eq_refl) Hnew)
    as (Hd1 & _ & _ & Hcalls & Hd2 & _).
  cbv zeta. split; [exact Hd1|]. split; [exact Hcalls | exact Hd2].
Defined.

(** The first full sync against an agent that is down: [syncFib] is tried,
    [syncMplsFib] is not. *)
Lemma syncRouteDb_sends_whole_route_db_witness :
  let s := Fib.init Fib.sampleConfig in
  Fib.agentCalls (snd (Fib.syncRouteDb Fib.sampleConfig Fib.sampleUtil
                         Fib.agentDown s))
    = [Fib.sync_syncFib []] /\
  fst (Fib.syncRouteDb Fib.sampleConfig Fib.sampleUtil Fib.agentDown s)
    = false /\
  Fib.dirtyRouteDb_ (snd (Fib.syncRouteDb Fib.sampleConfig Fib.sampleUtil
                            Fib.agentDown s))
    = true.
Proof.
  destruct (syncRouteDb_sends_whole_route_db Fib.sampleConfig Fib.sampleUtil
              Fib.agentDown (Fib.init Fib.sampleConfig) eq_refl)
    as (Hcalls & Hsucc & Hdirty & _).
  cbv zeta. split; [exact Hcalls|]. split; [exact Hsucc|].
  rewrite Hdirty, Hsucc. reflexivity.
Defined.

(** In dry run the cold-start sync reaches no agent. *)
Lemma dry_run_never_calls_the_agent_witness :
  let s := Fib.syncRoutesTimer_callback Fib.dryrunConfig Fib.sampleUtil
             Fib.agentUp 0 0 (Fib.init Fib.dryrunConfig) in
  Fib.agentCalls s = [] /\ Fib.client_ s = false.
Proof.
  exact (dry_run_never_calls_the_agent Fib.dryrunConfig Fib.sampleUtil _
           (Fib.reach_syncRoutesTimer Fib.dryrunConfig Fib.sampleUtil
              (Fib.init Fib.dryrunConfig) Fib.agentUp 0 0
              (Fib.reach_init _ _) eq_refl (Z.le_refl 0))
           eq_refl).
Defined.

(** After the cold-start sync, a route published while the agent is down:
    the update fails and the full sync is scheduled. *)
Lemma publication_leaves_dirty_only_with_sync_pending_witness :
  let s' := fst (Fib.processRouteDb Fib.sampleConfig Fib.sampleUtil
                   Fib.agentDown
                   (Fib.mk_RouteDatabase "node1" [Fib.route10] [])
                   Fib.stateSynced) in
  Fib.dirtyRouteDb_ s' = true /\
  Fib.isScheduled (Fib.syncRoutesTimer_ s') = true.
Proof.
  cbv zeta.
  assert (Hd : Fib.dirtyRouteDb_
                 (fst (Fib.processRouteDb Fib.sampleConfig Fib.sampleUtil
                         Fib.agentDown
                         (Fib.mk_RouteDatabase "node1" [Fib.route10] [])
                         Fib.stateSynced)) = true)
    by (vm_compute; reflexivity).
  split; [exact Hd|].
  exact (proj1 (publication_leaves_dirty_only_with_sync_pending
                  Fib.sampleConfig Fib.sampleUtil eq_refl)
               Fib.agentDown (Fib.mk_RouteDatabase "node1" [Fib.route10] [])
               Fib.stateSynced Hd).
Defined.

(** [eth0] is reported down twice under [route10]: the second report finds
    nothing to do. *)
Lemma repeated_interface_publication_changes_nothing_witness :
  exists s1,
    Fib.processInterfaceDb Fib.sampleConfig Fib.sampleUtil Fib.agentUp
      Fib.eth0Down Fib.stateRoute10 = Some s1 /\
    Fib.affectedInterfaces Fib.eth0Down s1 = ∅ /\
    exists s2,
      Fib.filterRoutesByInterfaceDb Fib.sampleUtil Fib.eth0Down s1
        = Some (s2, Fib.mk_RouteDatabaseDelta [] [] [] []).
Proof.
  destruct (Fib.processInterfaceDb Fib.sampleConfig Fib.sampleUtil Fib.agentUp
              Fib.eth0Down Fib.stateRoute10) as [s1|] eqn:Hp.
  - exists s1. split; [reflexivity|].
    destruct (repeated_interface_publication_changes_nothing Fib.sampleConfig
                Fib.sampleUtil Fib.agentUp Fib.eth0Down Fib.stateRoute10 s1 Hp)
      as (Haff & _ & _ & s2 & Hf & _).
    split; [exact Haff|]. exists s2. exact Hf.
  - vm_compute in Hp. discriminate Hp.
Defined.

(** [eth0], recorded as up, is reported down. *)
Lemma processInterfaceDb_records_status_witness :
  exists s1,
    Fib.processInterfaceDb Fib.sampleConfig Fib.sampleUtil Fib.agentUp
      Fib.eth0Down Fib.stateRoute10 = Some s1 /\
    Fib.interfaceStatusDb_ s1 !! "eth0" = Some false.
Proof.
  destruct (Fib.processInterfaceDb Fib.sampleConfig Fib.sampleUtil Fib.agentUp
              Fib.eth0Down Fib.stateRoute10) as [s1|] eqn:Hp.
  - exists s1. split; [reflexivity|].
    rewrite (processInterfaceDb_records_status Fib.sampleConfig Fib.sampleUtil
               Fib.agentUp Fib.eth0Down Fib.stateRoute10 s1 "eth0" Hp).
    reflexivity.
  - vm_compute in Hp. discriminate Hp.
Defined.

(** Decision publishes [route10] and [hiddenRoute]: only the first is in the
    answer to [ROUTE_DB_GET]. *)
Lemma reachable_route_db_is_installable_witness :
  let s := Fib.decisionSub_callback Fib.sampleConfig Fib.sampleUtil Fib.agentUp
             (Some (Fib.mk_RouteDatabase "node1"
                      [Fib.route10; Fib.hiddenRoute] []))
             (Fib.init Fib.sampleConfig) in
  (exists db,
     Fib.processRequestMsg (Some Fib.ROUTE_DB_GET) s = Fib.RouteDbResponse db /\
     Fib.thisNodeName db = "node1" /\
     Forall (fun r => Fib.UnicastRoute.doNotInstall r = false)
            (Fib.unicastRoutes db)) /\
  (exists db,
     Fib.processRequestMsg (Some Fib.ROUTE_DB_UNINSTALLABLE_GET) s
       = Fib.RouteDbResponse db /\
     Forall (fun r => Fib.UnicastRoute.doNotInstall r = true)
            (Fib.unicastRoutes db)).
Proof.
  exact (reachable_route_db_is_installable Fib.sampleConfig Fib.sampleUtil _
           (Fib.reach_decisionSub Fib.sampleConfig Fib.sampleUtil
              (Fib.init Fib.sampleConfig) Fib.agentUp
              (Some (Fib.mk_RouteDatabase "node1"
                       [Fib.route10; Fib.hiddenRoute] []))
              (Fib.reach_init _ _))).
Defined.

(** ** Persistent store: requests in sequence, saving and loading *)

Section PersistentStoreMore.

Import PersistentStore.

(** The key-value map after a request. *)
Lemma processRequestMsg_database (writeThrows : bool) (now : Z)
    (request : StoreRequest) (s : t) :
  keyVals (database_ (snd (processRequestMsg writeThrows now (Some request) s)))
  = match requestType request with
    | STORE => <[req_key request := req_data request]> (keyVals (database_ s))
    | ERASE => delete (req_key request) (keyVals (database_ s))
    | _ => keyVals (database_ s)
    end.
Proof.
  unfold processRequestMsg, saveDatabaseToDisk.
  destruct (requestType request);
    try destruct (keyVals (database_ s) !! req_key request) eqn:Hk;
    cbn; rewrite ?Hk; cbn;
    try case_bool_decide; cbn;
    destruct (saveDbTimerBackoff_ s), (saveDbTimer_ s), (dryrun_ s),
      writeThrows; cbn; try reflexivity.
Qed.

(** X17.  The store as a map.  A [STORE] always succeeds; a [LOAD] of the
    key just stored returns the data stored, overriding an earlier value;
    a [LOAD] after an [ERASE] of the key fails and returns empty data; an
    [ERASE] succeeds after a [STORE] of the key and fails when repeated; and
    neither a [STORE] nor an [ERASE] changes what a [LOAD] of another key
    returns.  None of this depends on whether the database could be
    saved. *)
Theorem store_load_erase_round_trips (w1 w2 : bool) (now1 now2 : Z)
    (k v d : string) (s : t) :
  let store := Some (mk_StoreRequest STORE k v) in
  let erase := Some (mk_StoreRequest ERASE k d) in
  let load := fun k' => Some (mk_StoreRequest LOAD k' d) in
  let stored := snd (processRequestMsg w1 now1 store s) in
  let erased := snd (processRequestMsg w1 now1 erase s) in
  fst (processRequestMsg w1 now1 store s) = mk_StoreResponse true k "" /\
  fst (processRequestMsg w2 now2 (load k) stored) = mk_StoreResponse true k v /\
  fst (processRequestMsg w2 now2 (load k) erased)
    = mk_StoreResponse false k "" /\
  fst (processRequestMsg w2 now2 erase stored) = mk_StoreResponse true k "" /\
  fst (processRequestMsg w2 now2 erase erased)
    = mk_StoreResponse false k "" /\
  (forall k', k' <> k ->
     fst (processRequestMsg w2 now2 (load k') stored)
       = fst (processRequestMsg w2 now2 (load k') s) /\
     fst (processRequestMsg w2 now2 (load k') erased)
       = fst (processRequestMsg w2 now2 (load k') s)).
Proof.
  cbv zeta.
  pose proof (processRequestMsg_database w1 now1 (mk_StoreRequest STORE k v) s)
    as Hstored.
  pose proof (processRequestMsg_database w1 now1 (mk_StoreRequest ERASE k d) s)
    as Herased.
  cbn [requestType req_key req_data] in Hstored, Herased.
  assert (Hload : forall k' s0,
            fst (processRequestMsg w2 now2
                   (Some (mk_StoreRequest LOAD k' d)) s0)
            = match keyVals (database_ s0) !! k' with
              | Some value => mk_StoreResponse true k' value
              | None => mk_StoreResponse false k' ""
              end).
  { intros k' s0. unfold processRequestMsg. cbn.
    destruct (keyVals (database_ s0) !! k'); reflexivity. }
  assert (Herase : forall s0,
            fst (processRequestMsg w2 now2
                   (Some (mk_StoreRequest ERASE k d)) s0)
            = mk_StoreResponse
                (bool_decide (is_Some (keyVals (database_ s0) !! k))) k "").
  { intros s0. unfold processRequestMsg. cbn [requestType req_key fst].
    reflexivity. }
  split; [reflexivity|].
  rewrite !Hload, !Herase, Hstored, Herased.
  rewrite lookup_insert_eq, lookup_delete_eq.
  split; [reflexivity|]. split; [reflexivity|].
  split. { by rewrite bool_decide_eq_true_2. }
  split. { rewrite bool_decide_eq_false_2; [reflexivity|]. by intros [x Hx]. }
  intros k' Hk. rewrite !Hload, Hstored, Herased.
  by rewrite lookup_insert_ne, lookup_delete_ne.
Qed.

(** What a request leaves alone when a backoff is configured. *)
Lemma processRequestMsg_debounced (writeThrows : bool) (now : Z)
    (requestMsg : option StoreRequest) (s : t) (b : ExponentialBackoff.t) :
  saveDbTimerBackoff_ s = Some b ->
  let s' := snd (processRequestMsg writeThrows now requestMsg s) in
  saveDbTimerBackoff_ s' = Some b /\
  dryrun_ s' = dryrun_ s /\
  saves s' = saves s /\
  disk s' = disk s /\
  numOfWritesToDisk_ s' = numOfWritesToDisk_ s /\
  (forall d, saveDbTimer_ s = Some d -> saveDbTimer_ s' = Some d) /\
  ((exists k v, requestMsg = Some (mk_StoreRequest STORE k v)) ->
   is_Some (saveDbTimer_ s')).
Proof.
  intros Hb. cbv zeta. unfold processRequestMsg.
  destruct requestMsg as [[ty k v]|]; cbn [requestType req_key req_data].
  2: { cbn. repeat split; try done. intros (k & v & Heq). discriminate. }
  destruct ty;
    try destruct (keyVals (database_ s) !! k) eqn:Hk;
    cbn; rewrite ?Hk, ?Hb; cbn;
    try case_bool_decide; cbn; rewrite ?Hb; cbn;
    destruct (saveDbTimer_ s) eqn:Ht; cbn;
    repeat split; try done;
    try (intros (k0 & v0 & Heq); discriminate);
    try (intros d0 Hd; congruence).
Qed.

(** X18.  Debouncing.  With a backoff configured, however many requests are
    processed, nothing is written: the file, the count of writes and the
    list of saves stay as they were.  A save timer that is scheduled keeps
    its timeout, so that further requests do not put the save off, and after
    a [STORE] the timer is scheduled.  When the timer then fires and the
    write does not throw, the database is saved once, as the last request
    left it, and outside dry run the file holds it. *)
Theorem debounced_requests_are_saved_once
    (requests : list (bool * Z * option StoreRequest)) (s : t)
    (b : ExponentialBackoff.t) (now now' : Z) :
  saveDbTimerBackoff_ s = Some b ->
  let s1 := processRequestMsgs requests s in
  let s2 := saveDbTimer_callback false now now' s1 in
  saves s1 = saves s /\
  disk s1 = disk s /\
  numOfWritesToDisk_ s1 = numOfWritesToDisk_ s /\
  (forall d, saveDbTimer_ s = Some d -> saveDbTimer_ s1 = Some d) /\
  (Exists (fun r => exists k v, r.2 = Some (mk_StoreRequest STORE k v))
          requests ->
   is_Some (saveDbTimer_ s1)) /\
  saves s2 = saves s ++ [database_ s1] /\
  numOfWritesToDisk_ s2 = numOfWritesToDisk_ s + 1 /\
  database_ s2 = database_ s1 /\
  saveDbTimer_ s2 = None /\
  (dryrun_ s = false -> disk s2 = Some (database_ s1)).
Proof.
  intros Hb. cbv zeta.
  assert (Hrun : forall requests s,
    saveDbTimerBackoff_ s = Some b ->
    saveDbTimerBackoff_ (processRequestMsgs requests s) = Some b /\
    dryrun_ (processRequestMsgs requests s) = dryrun_ s /\
    saves (processRequestMsgs requests s) = saves s /\
    disk (processRequestMsgs requests s) = disk s /\
    numOfWritesToDisk_ (processRequestMsgs requests s)
      = numOfWritesToDisk_ s /\
    (forall d, saveDbTimer_ s = Some d ->
               saveDbTimer_ (processRequestMsgs requests s) = Some d) /\
    (Exists (fun r => exists k v, r.2 = Some (mk_StoreRequest STORE k v))
            requests ->
     is_Some (saveDbTimer_ (processRequestMsgs requests s)))).
  { clear. intros requests.
    induction requests as [|[[w now] req] rest IH]; intros s Hb.
    - cbn. repeat split; try done. intros H. by apply Exists_nil in H.
    - cbn [processRequestMsgs].
      destruct (processRequestMsg_debounced w now req s b Hb)
        as (Hb1 & Hdry1 & Hsaves1 & Hdisk1 & Hnum1 & Htimer1 & Hstore1).
      destruct (IH _ Hb1) as (Hb2 & Hdry2 & Hsaves2 & Hdisk2 & Hnum2 & Htimer2
                              & Hstore2).
      split; [exact Hb2|]. split; [congruence|]. split; [congruence|].
      split; [congruence|]. split; [congruence|]. split.
      + intros d Hd. apply Htimer2. by apply Htimer1.
      + intros Hex. apply Exists_cons in Hex as [Hhere|Hlater].
        * destruct (Hstore1 Hhere) as [d Hd].
          rewrite (Htimer2 d Hd). by eexists.
        * by apply Hstore2. }
  destruct (Hrun requests s Hb)
    as (Hb1 & Hdry1 & Hsaves1 & Hdisk1 & Hnum1 & Htimer1 & Hstore1).
  split; [exact Hsaves1|]. split; [exact Hdisk1|]. split; [exact Hnum1|].
  split; [exact Htimer1|]. split; [exact Hstore1|].
  unfold saveDbTimer_callback, saveDatabaseToDisk.
  cbn [set_saveDbTimer dryrun_ database_ saveDbTimerBackoff_ saves
       numOfWritesToDisk_ disk saveDbTimer_].
  rewrite Hdry1.
  destruct (dryrun_ s); cbn; rewrite Hb1; cbn;
    rewrite Hsaves1, Hnum1; repeat split; try done.
Qed.

(** X19.  Without a backoff, outside dry run and as long as no write throws,
    the file follows the database: if it holds the database before a
    sequence of requests, it holds the database after it, and no timer is
    involved. *)
Theorem immediate_store_keeps_file_in_step
    (requests : list (bool * Z * option StoreRequest)) (s : t) :
  saveDbTimerBackoff_ s = None ->
  dryrun_ s = false ->
  Forall (fun r => r.1.1 = false) requests ->
  disk s = Some (database_ s) ->
  let s1 := processRequestMsgs requests s in
  disk s1 = Some (database_ s1) /\
  saveDbTimer_ s1 = saveDbTimer_ s.
Proof.
  intros Hb Hdry Hw Hdisk. cbv zeta.
  revert s Hb Hdry Hdisk.
  induction Hw as [|[[w now] req] rest Hhere _ IH]; intros s Hb Hdry Hdisk.
  - done.
  - cbn in Hhere. subst w. cbn [processRequestMsgs].
    assert (Hstep :
      let s' := snd (processRequestMsg false now req s) in
      saveDbTimerBackoff_ s' = None /\ dryrun_ s' = false /\
      disk s' = Some (database_ s') /\ saveDbTimer_ s' = saveDbTimer_ s).
    { cbv zeta. unfold processRequestMsg, saveDatabaseToDisk.
      destruct req as [[ty k v]|]; cbn [requestType req_key req_data];
        [|done].
      destruct ty;
        try destruct (keyVals (database_ s) !! k) eqn:Hk;
        cbn; rewrite ?Hk, ?Hb, ?Hdry; cbn;
        try case_bool_decide; cbn; rewrite ?Hb, ?Hdry; cbn;
        repeat split; try done.
      (* an ERASE of an absent key *)
      all: rewrite Hdisk; do 2 f_equal; destruct (database_ s) as [kv];
        cbn in *; f_equal; symmetry; by apply delete_id. }
    destruct Hstep as (Hb1 & Hdry1 & Hdisk1 & Htimer1).
    destruct (IH _ Hb1 Hdry1 Hdisk1) as (Hd & Ht).
    split; [exact Hd | congruence].
Qed.

(** X20.  When the save timer fires and the write throws (outside dry run),
    nothing is lost and a retry is pending: the database and the file are as
    they were, the count of writes has not moved, the backoff records the
    error and the timer is scheduled again after the backoff's time
    remaining until retry, which with a backoff of bounds
    [0 <= initial <= max] is between 0 and [max].  In dry run the write is
    skipped, so the save counts as done and the timer stays idle. *)
Theorem failed_save_is_retried (s : t) (b : ExponentialBackoff.t)
    (now now' : Z) :
  saveDbTimerBackoff_ s = Some b ->
  now <= now' ->
  0 <= ExponentialBackoff.initialBackoff b
    <= ExponentialBackoff.maxBackoff b ->
  let s' := saveDbTimer_callback true now now' s in
  database_ s' = database_ s /\
  disk s' = disk s /\
  (dryrun_ s = false ->
   numOfWritesToDisk_ s' = numOfWritesToDisk_ s /\
   saveDbTimerBackoff_ s' = Some (ExponentialBackoff.reportError now b) /\
   exists d, saveDbTimer_ s' = Some d /\
             0 <= d <= ExponentialBackoff.maxBackoff b) /\
  (dryrun_ s = true ->
   numOfWritesToDisk_ s' = numOfWritesToDisk_ s + 1 /\
   saveDbTimerBackoff_ s' = Some (ExponentialBackoff.reportSuccess b) /\
   saveDbTimer_ s' = None).
Proof.
  intros Hb Hnow Hbounds. cbv zeta.
  unfold saveDbTimer_callback, saveDatabaseToDisk.
  cbn [set_saveDbTimer dryrun_ database_ saveDbTimerBackoff_ saves
       numOfWritesToDisk_ disk saveDbTimer_].
  destruct (dryrun_ s); cbn; rewrite Hb; cbn.
  - split; [done|]. split; [done|]. split; [discriminate|]. done.
  - split; [done|]. split; [done|]. split; [|discriminate].
    intros _. split; [done|]. split; [done|].
    eexists. split; [reflexivity|].
    by apply getTimeRemainingUntilRetry_bound.
Qed.

(** X21.  Shutdown and restart.  The destructor saves the database, so that
    outside dry run, when the write does not throw, a store constructed over
    the file it leaves, and able to read it, starts with the database the
    old store had, saved or not; in dry run the destructor leaves the file
    as it was.  A store constructed over a missing file, or over a file it
    cannot read or decode, starts with the empty database.  The constructor
    writes nothing, and creates the backoff, and with it the save timer,
    exactly when one of the two backoff durations is not zero. *)
Theorem shutdown_and_restart_keep_database (s : t) (initial max : Z)
    (dryrun readFails decodeThrows : bool) (file : option StoreDatabase) :
  (dryrun_ s = false ->
   database_ (construct initial max dryrun (disk (destroy false s))
                        false false)
     = database_ s) /\
  (dryrun_ s = true ->
   forall writeThrows, disk (destroy writeThrows s) = disk s) /\
  (file = None \/ readFails = true \/ decodeThrows = true ->
   database_ (construct initial max dryrun file readFails decodeThrows)
     = mk_StoreDatabase ∅) /\
  disk (construct initial max dryrun file readFails decodeThrows) = file /\
  saves (construct initial max dryrun file readFails decodeThrows) = [] /\
  saveDbTimer_ (construct initial max dryrun file readFails decodeThrows)
    = None /\
  (saveDbTimerBackoff_
     (construct initial max dryrun file readFails decodeThrows) = None
   <-> initial = 0 /\ max = 0).
Proof.
  unfold construct, destroy, loadDatabaseFromDisk, saveDatabaseToDisk.
  cbn [disk dryrun_ database_ saves saveDbTimer_ saveDbTimerBackoff_
       numOfWritesToDisk_].
  split. { intros ->. reflexivity. }
  split. { intros ->. reflexivity. }
  split.
  { intros [->|[->| ->]];
      [reflexivity | by destruct file | by destruct file, readFails]. }
  destruct (Z.eqb_spec initial 0), (Z.eqb_spec max 0);
    destruct file, readFails, decodeThrows; cbn;
    (repeat split; try done); try discriminate;
    intros [? ?]; contradiction.
Qed.

End PersistentStoreMore.

(** A store and an erase on [immediateStore], then loads. *)
Lemma store_load_erase_round_trips_witness :
  fst (PersistentStore.processRequestMsg false 0
         (Some (PersistentStore.mk_StoreRequest PersistentStore.LOAD "k2" ""))
         (snd (PersistentStore.processRequestMsg false 0
                 (Some (PersistentStore.mk_StoreRequest PersistentStore.STORE
                          "k2" "v2"))
                 PersistentStore.immediateStore)))
  = PersistentStore.mk_StoreResponse true "k2" "v2".
Proof.
  exact (proj1 (proj2 (store_load_erase_round_trips false false 0 0
                         "k2" "v2" "" PersistentStore.immediateStore))).
Defined.

(** Two stores on [debouncedStore], then the timer fires. *)
Lemma debounced_requests_are_saved_once_witness :
  let requests :=
    [(false, 0, Some (PersistentStore.mk_StoreRequest PersistentStore.STORE
                        "a" "1"));
     (false, 1, Some (PersistentStore.mk_StoreRequest PersistentStore.STORE
                        "a" "2"))] in
  let s1 := PersistentStore.processRequestMsgs requests
              PersistentStore.debouncedStore in
  let s2 := PersistentStore.saveDbTimer_callback false 2 2 s1 in
  PersistentStore.saves s1 = [] /\
  is_Some (PersistentStore.saveDbTimer_ s1) /\
  PersistentStore.saves s2 = [PersistentStore.database_ s1] /\
  PersistentStore.disk s2 = Some (PersistentStore.database_ s1).
Proof.
  cbv zeta.
  destruct (debounced_requests_are_saved_once
              [(false, 0, Some (PersistentStore.mk_StoreRequest
                                  PersistentStore.STORE "a" "1"));
               (false, 1, Some (PersistentStore.mk_StoreRequest
                                  PersistentStore.STORE "a" "2"))]
              PersistentStore.debouncedStore
              (ExponentialBackoff.make 100 5000) 2 2 eq_refl)
    as (Hsaves & _ & _ & _ & Htimer & Hsaves2 & _ & _ & _ & Hdisk).
  split; [exact Hsaves|]. split.
  { apply Htimer. apply Exists_cons_hd. by eexists _, _. }
  split; [exact Hsaves2 | exact (Hdisk eq_refl)].
Defined.

(** A store on a store that saves at once and whose file is up to date. *)
Lemma immediate_store_keeps_file_in_step_witness :
  let s :=
    snd (PersistentStore.saveDatabaseToDisk false
           PersistentStore.immediateStore) in
  let s1 :=
    PersistentStore.processRequestMsgs
      [(false, 0, Some (PersistentStore.mk_StoreRequest PersistentStore.STORE
                          "a" "1"))] s in
  PersistentStore.disk s1 = Some (PersistentStore.database_ s1).
Proof.
  cbv zeta.
  refine (proj1 (immediate_store_keeps_file_in_step
                   [(false, 0, Some (PersistentStore.mk_StoreRequest
                                       PersistentStore.STORE "a" "1"))]
                   (snd (PersistentStore.saveDatabaseToDisk false
                           PersistentStore.immediateStore))
                   eq_refl eq_refl _ eq_refl)).
  repeat constructor.
Defined.

(** The save timer of [debouncedStore] fires while the file cannot be
    written. *)
Lemma failed_save_is_retried_witness :
  let s' := PersistentStore.saveDbTimer_callback true 10 10
              PersistentStore.debouncedStore in
  PersistentStore.disk s' = None /\
  exists d, PersistentStore.saveDbTimer_ s' = Some d /\ 0 <= d <= 5000.
Proof.
  cbv zeta.
  destruct (failed_save_is_retried PersistentStore.debouncedStore
              (ExponentialBackoff.make 100 5000) 10 10 eq_refl
              ltac:(lia) ltac:(cbn; lia))
    as (_ & Hdisk & Hretry & _).
  split; [exact Hdisk|].
  destruct (Hretry eq_refl) as (_ & _ & d & Hd & Hbound).
  exists d. split; [exact Hd | exact Hbound].
Defined.

(** [debouncedStore], whose file does not exist yet, is shut down and
    constructed again. *)
Lemma shutdown_and_restart_keep_database_witness :
  PersistentStore.database_
    (PersistentStore.construct 100 5000 false
       (PersistentStore.disk
          (PersistentStore.destroy false PersistentStore.debouncedStore))
       false false)
  = PersistentStore.database_ PersistentStore.debouncedStore.
Proof.
  exact (proj1 (shutdown_and_restart_keep_database
                  PersistentStore.debouncedStore 100 5000 false false false
                  None)
               eq_refl).
Defined.
